(** * drachtio-presence-agent: a shallow embedding of the subscription engine

    The development follows the layout of the repository:
    - [Js]: the JavaScript values the code passes around (primitives, plain
      objects, dialogs), property access, and the result of a call that
      may throw;
    - [Utils]: [lib/utils.js] ([parseAor], [parseEventHeader],
      [getDefaultSubscriptionExpiry], [generateETag]);
    - [Redis]: the commands of the remote store that the code issues;
    - [Runtime]: the process state (store, timer map, armed timers, what was
      sent) and the monad in which asynchronous code is sequenced;
    - [Dialog]: [lib/events/packages/dialog.js];
    - [RedisDb]: the persistence layer ([lib/redisdb.js]);
    - [Subscribe]: [lib/subscribe.js];
    - [Upkeep]: the registrations and the upkeep of the event state of
      [lib/redisdb.js];
    followed by the properties proved about them. *)

From Stdlib Require Import ZArith Lia String Ascii List.
From stdpp Require Import base strings gmap sets list pretty sorting.

Open Scope string_scope.
Open Scope Z_scope.

(* ================================================================== *)
(** ** JavaScript values *)
(* ================================================================== *)

Module Js.

(** Primitive values.  A JavaScript number is a double: the integers that
    occur here are kept as [PNum z] with [z] already rounded to a double
    (see [Utils.toDouble]); [PNaN] is the one non-integer that occurs. *)
Inductive prim :=
  | PUndef
  | PBool (b : bool)
  | PNum (z : Z)
  | PNaN
  | PStr (s : string).

#[global] Instance prim_eq_dec : EqDecision prim.
Proof. solve_decision. Defined.

#[global] Instance prim_countable : Countable prim.
Proof.
  refine (inj_countable'
    (fun p => match p with
      | PUndef => inl (inl ())
      | PNaN => inl (inr ())
      | PBool b => inr (inl b)
      | PNum z => inr (inr (inl z))
      | PStr s => inr (inr (inr s)) end)
    (fun x => match x with
      | inl (inl _) => PUndef
      | inl (inr _) => PNaN
      | inr (inl b) => PBool b
      | inr (inr (inl z)) => PNum z
      | inr (inr (inr s)) => PStr s end) _).
  by intros [].
Defined.

(** Truthiness of a primitive ([if (x)], [x || y], [!x]). *)
Definition truthy (p : prim) : bool :=
  match p with
  | PUndef => false
  | PBool b => b
  | PNum z => negb (z =? 0)
  | PNaN => false
  | PStr s => negb (String.eqb s "")
  end.

(** [x || y] on primitives. *)
Definition por (x y : prim) : prim := if truthy x then x else y.

(** Template-literal / [String(x)] conversion of a primitive.  (A number
    from [10^21] on, which JavaScript writes with an exponent, is outside
    the model; the properties that depend on the digits of a number take
    it below [2^53].) *)
Definition toString (p : prim) : string :=
  match p with
  | PUndef => "undefined"
  | PBool true => "true"
  | PBool false => "false"
  | PNum z => pretty z
  | PNaN => "NaN"
  | PStr s => s
  end.

(** A plain object whose properties hold primitives; a property that is
    not in the map reads as [undefined]. *)
Abbreviation jsobj := (gmap string prim).

(** The dialog object of the transport library, as far as the code reads
    it: [dlg.id], [dlg.sip.callId], [dlg.sip.remoteTag]. *)
Record Dlg := mkDlg {
  dlg_id : string;
  sip_callId : string;
  sip_remoteTag : string
}.

#[global] Instance Dlg_eq_dec : EqDecision Dlg.
Proof. solve_decision. Defined.

(** The values that reach the positional parameters of the functions of
    [lib/subscribe.js]. *)
Inductive jsval :=
  | VPrim (p : prim)
  | VObj (o : jsobj)
  | VDlg (d : Dlg)
  | VLogger
  | VDb.

Abbreviation VUndef := (VPrim PUndef).

(** What a call can throw. *)
Inductive exn :=
  | TypeError (what : string)
  | AssertionError
  | RedisError (what : string)
  | TransportError
  | Error (what : string).

Inductive result (A : Type) :=
  | Ok (a : A)
  | Throw (e : exn).
Arguments Ok {A} a.
Arguments Throw {A} e.

(** [v.k] where [k] is a property holding a primitive.  Reading a property
    of [undefined] throws; a primitive other than [undefined], and an
    object without the property, give [undefined]. *)
Definition getProp (v : jsval) (k : string) : result prim :=
  match v with
  | VPrim PUndef => Throw (TypeError k)
  | VPrim _ => Ok PUndef
  | VObj o => Ok (default PUndef (o !! k))
  | VDlg d => Ok (if String.eqb k "id" then PStr (dlg_id d) else PUndef)
  | VLogger => Ok PUndef
  | VDb => Ok PUndef
  end.

(** Object literal: the listed properties, later ones winning. *)
Definition mkObj (l : list (string * prim)) : jsobj :=
  fold_left (fun o kv => <[kv.1 := kv.2]> o) l ∅.

(** [_.omitBy(o, _.isNil)]. *)
Definition omitNil (o : jsobj) : jsobj := filter (fun kv => kv.2 ≠ PUndef) o.

End Js.
Export Js.

(* ================================================================== *)
(** ** lib/utils.js *)
(* ================================================================== *)

Module Utils.

(** *** Characters and strings *)

Definition isDigit (c : ascii) : bool :=
  let n := N_of_ascii c in ((48 <=? n) && (n <=? 57))%N.

Definition digitVal (c : ascii) : Z := Z.of_N (N_of_ascii c) - 48.

(** Hexadecimal digit value, if [c] is one. *)
Definition hexVal (c : ascii) : option Z :=
  let n := Z.of_N (N_of_ascii c) in
  if (48 <=? n) && (n <=? 57) then Some (n - 48)
  else if (97 <=? n) && (n <=? 102) then Some (n - 87)
  else if (65 <=? n) && (n <=? 70) then Some (n - 55)
  else None.

(** A character of a string of the model is a code unit below 256, read
    as the character of that number; a string that holds another code
    unit is outside the model.  The white space and the line terminators
    of JavaScript among these: TAB, LF, VT, FF, CR, SP and the no-break
    space (160). *)
Definition isSpace (c : ascii) : bool :=
  let n := N_of_ascii c in
  (((9 <=? n) && (n <=? 13)) || (n =? 32) || (n =? 160))%N.

(** The line terminators among them, which the dot of a regular
    expression does not match: LF and CR. *)
Definition isLineTerminator (c : ascii) : bool :=
  let n := N_of_ascii c in ((n =? 10) || (n =? 13))%N.

Fixpoint dropWhile (p : ascii -> bool) (s : string) : string :=
  match s with
  | EmptyString => EmptyString
  | String c r => if p c then dropWhile p r else s
  end.

Fixpoint takeWhile (p : ascii -> bool) (s : string) : string :=
  match s with
  | EmptyString => EmptyString
  | String c r => if p c then String c (takeWhile p r) else EmptyString
  end.

Fixpoint existsb_str (p : ascii -> bool) (s : string) : bool :=
  match s with
  | EmptyString => false
  | String c r => p c || existsb_str p r
  end.

Fixpoint forallb_str (p : ascii -> bool) (s : string) : bool :=
  match s with
  | EmptyString => true
  | String c r => p c && forallb_str p r
  end.

Definition rev_str (s : string) : string :=
  string_of_list_ascii (rev (list_ascii_of_string s)).

(** [s.trim()]. *)
Definition trim (s : string) : string :=
  rev_str (dropWhile isSpace (rev_str (dropWhile isSpace s))).

(** *** Numbers *)

(** The double nearest to a non-negative integer, ties to even: integers
    up to [2^53] are kept, a larger one keeps 53 significant bits.  (The
    integers that a double cannot reach, from [2^1024] on, are outside the
    model: JavaScript has [Infinity] for them.) *)
Definition toDouble (z : Z) : Z :=
  let e := Z.log2 z - 52 in
  if e <=? 0 then z
  else
    let q := z / 2 ^ e in
    let r := z mod 2 ^ e in
    let half := 2 ^ (e - 1) in
    if r <? half then q * 2 ^ e
    else if half <? r then (q + 1) * 2 ^ e
    else if Z.even q then q * 2 ^ e
    else (q + 1) * 2 ^ e.

(** Value of a string of decimal digits, most significant first. *)
Fixpoint decimalValue (acc : Z) (s : string) : Z :=
  match s with
  | EmptyString => acc
  | String c r => decimalValue (10 * acc + digitVal c) r
  end.

Fixpoint hexValue (acc : Z) (s : string) : Z :=
  match s with
  | EmptyString => acc
  | String c r => hexValue (16 * acc + default 0 (hexVal c)) r
  end.

(** The digits [parseInt] reads and the mathematical integer they denote,
    before the conversion to a double: leading white space is skipped, a
    sign is taken, a [0x]/[0X] prefix selects radix 16, and the longest
    prefix of digits of the radix is read.  [None] when that prefix is
    empty. *)
Definition parseIntDigits (s : string) : option (string * Z) :=
  let s1 := dropWhile isSpace s in
  let '(sign, s2) :=
    match s1 with
    | String "-" r => (-1, r)
    | String "+" r => (1, r)
    | _ => (1, s1)
    end in
  match s2 with
  | String "0" (String x r) =>
      if (Ascii.eqb x "x" || Ascii.eqb x "X")%bool then
        let ds := takeWhile (fun c => bool_decide (is_Some (hexVal c))) r in
        if String.eqb ds "" then None else Some (ds, sign * hexValue 0 ds)
      else
        let ds := takeWhile isDigit s2 in
        Some (ds, sign * decimalValue 0 ds)
  | _ =>
      let ds := takeWhile isDigit s2 in
      if String.eqb ds "" then None else Some (ds, sign * decimalValue 0 ds)
  end.

(** [parseInt(s)]: the number JavaScript returns, for digits whose value
    a double can reach (see [toDouble]). *)
Definition parseInt (s : string) : prim :=
  match parseIntDigits s with
  | None => PNaN
  | Some (_, v) => PNum (Z.sgn v * toDouble (Z.abs v))
  end.

(** *** Configuration and the parser of the transport library *)

(** A parsed SIP URI, as far as [parseAor] reads it. *)
Record Uri := mkUri {
  uri_user : option string;
  uri_host : string
}.

(** What the module reads from its surroundings: the URI parser of
    drachtio-srf ([None] when the string is no URI), the [config] entries
    [domain] and [methods.subscribe.expire.default] (for each package the
    [expires] property of its entry), [SUPPORTED_EVENTS], and the packages
    that [lib/events] has registered, and the version of short-uuid. *)
Record Env := mkEnv {
  parseUri : string -> option Uri;
  config_domain : option string;
  config_expire_default : option (list (string * prim));
  supportedEvents : list string;
  (** whether [lib/events] has registered the package [dialog], the one
      package of the repository *)
  dialogPackage : bool;
  (** whether the short-uuid in use pads its output to a fixed length *)
  consistentLength : bool
}.

(** *** parseAor *)

(** Splits off the longest prefix of decimal digits. *)
Definition spanDigits (s : string) : string * string :=
  (takeWhile isDigit s, dropWhile isDigit s).

(** [(?:[0-9]{1,3}\.){n}[0-9]{1,3}$] at the start of [s]. *)
Fixpoint matchOctets (n : nat) (s : string) : bool :=
  let '(ds, rest) := spanDigits s in
  let len := String.length ds in
  ((1 <=? len)%nat && (len <=? 3)%nat) &&
  match n with
  | O => String.eqb rest ""
  | S n' =>
      match rest with
      | String "." r => matchOctets n' r
      | _ => false
      end
  end.

(** [host.match(/^(?:[0-9]{1,3}\.){3}[0-9]{1,3}$/)] is not null. *)
Definition isIPv4Literal (host : string) : bool := matchOctets 3 host.

Definition parseAor (env : Env) (u : string) : result string :=
  match parseUri env u with
  | None => Throw (TypeError "host")
  | Some uri =>
      let domain :=
        if isIPv4Literal (uri_host uri) then
          match config_domain env with
          | Some d => d
          | None => uri_host uri   (* the match array, printed: the host *)
          end
        else uri_host uri in
      let user :=
        match uri_user uri with
        | Some usr => if String.eqb usr "" then "undefined" else usr
        | None => "undefined"
        end in
      Ok (user +:+ "@" +:+ domain)
  end.

(** *** generateETag *)

(** The translator of short-uuid for an alphabet: the 128-bit value of a
    random v4 UUID written in base [length alphabet] with the characters
    of the alphabet as digits (at least one digit), left-padded with the
    zero digit to [pad] characters where the library pads.  The UUID is
    an input of the model. *)
Definition alphabetDigit (alphabet : string) (d : Z) : ascii :=
  default "000"%char (String.get (Z.to_nat d) alphabet).

Fixpoint toAlphabetFrom (fuel : nat) (alphabet : string) (n : Z) (acc : string)
  : string :=
  let base := Z.of_nat (String.length alphabet) in
  let acc' := String (alphabetDigit alphabet (n mod base)) acc in
  match fuel with
  | O => acc'
  | S f => if n / base =? 0 then acc' else toAlphabetFrom f alphabet (n / base) acc'
  end.

Definition toAlphabet (alphabet : string) (n : Z) : string :=
  toAlphabetFrom (Z.to_nat (Z.log2 n)) alphabet n "".

Fixpoint padLeft (c : ascii) (n : nat) (s : string) : string :=
  match n with
  | O => s
  | S n' => String c (padLeft c n' s)
  end.

(** Least [n] with [base ^ n >= 2 ^ 128], the length the library pads to. *)
Fixpoint padLengthFrom (fuel n : nat) (base : Z) : nat :=
  match fuel with
  | O => n
  | S f => if 2 ^ 128 <=? base ^ Z.of_nat n then n else padLengthFrom f (S n) base
  end.

Definition padLength (alphabet : string) : nat :=
  padLengthFrom 128 0 (Z.of_nat (String.length alphabet)).

Definition shortUuid (env : Env) (alphabet : string) (uuid : Z) : string :=
  let s := toAlphabet alphabet uuid in
  if consistentLength env
  then padLeft (alphabetDigit alphabet 0) (padLength alphabet - String.length s) s
  else s.

(** [require('short-uuid')('123456789')]. *)
Definition etagAlphabet : string := "123456789".

(** [short()]: the default alphabet of the library (flickrBase58). *)
Definition flickrBase58 : string :=
  "123456789abcdefghijkmnopqrstuvwxyzABCDEFGHJKLMNPQRSTUVWXYZ".

(** [generateETag()], for the UUID drawn. *)
Definition generateETag (env : Env) (uuid : Z) : string :=
  shortUuid env etagAlphabet uuid.

(** *** parseEventHeader *)

(** Position of the last [;], counted from the start. *)
Fixpoint splitLast (s : string) : option (string * string) :=
  match s with
  | EmptyString => None
  | String c r =>
      match splitLast r with
      | Some (a, b) => Some (String c a, b)
      | None => if Ascii.eqb c ";" then Some (EmptyString, r) else None
      end
  end.

(** First occurrence of [id=] in [s]: what follows it. *)
Fixpoint afterIdEq (s : string) : option string :=
  match s with
  | EmptyString => None
  | String c r =>
      match s with
      | String "i" (String "d" (String "=" t)) => Some t
      | _ => afterIdEq r
      end
  end.

(** The class [[^//s;]]: any character but [/], [s] and [;]. *)
Definition idChar (c : ascii) : bool :=
  negb (Ascii.eqb c "/" || Ascii.eqb c "s" || Ascii.eqb c ";").

(** [{event, id}]; [id] is [None] when the property is not set. *)
Definition parseEventHeader (event : string) : string * option string :=
  if existsb_str isLineTerminator event then (event, None)
  else
    match splitLast event with
    | None => (event, None)
    | Some (a1, a2) =>
        (trim a1,
         match afterIdEq a2 with
         | Some t => Some (takeWhile idChar t)
         | None => None
         end)
    end.

(** *** getDefaultSubscriptionExpiry *)

Fixpoint findKey (l : list (string * prim)) (k : string) : option prim :=
  match l with
  | [] => None
  | (k', v) :: r => if String.eqb k' k then Some v else findKey r k
  end.

Definition getDefaultSubscriptionExpiry (env : Env) (package : prim) : prim :=
  match config_expire_default env, package with
  | None, _ => PNum 3600
  | Some tbl, PStr name =>
      match findKey tbl name with
      | None => PNum 3600
      | Some expires => expires
      end
  | Some _, _ => PNum 3600
  end.

End Utils.
Export Utils.

(* ================================================================== *)
(** ** The remote store *)
(* ================================================================== *)

Module Redis.

(** One keyspace; a key holds a value of one type and, once [EXPIRE] has
    been applied, a time to live.  A key whose time to live has run out is
    simply absent. *)
Inductive rval :=
  | RHash (h : gmap string string)
  | RSet (s : gset string)
  | RStr (s : string)
  | RZset (z : gmap string Z).

Record entry := mkEntry {
  e_val : rval;
  e_ttl : option Z
}.

Abbreviation Store := (gmap string entry).

(** The writing commands the code issues.  [DEL] takes what the code
    passes, which can be [null]. *)
Inductive cmd :=
  | HMSET (key : string) (fields : list (string * string))
  | HSET (key field value : string)
  | EXPIRE (key : string) (seconds : prim)
  | DEL (key : option string)
  | SET (key value : string)
  | SADD (key member : string)
  | SREM (key member : string)
  | ZADD (key : string) (score : prim) (member : string)
  | ZREM (key member : string).

Definition putFields (fields : list (string * string)) (h : gmap string string)
  : gmap string string :=
  fold_left (fun m kv => <[kv.1 := kv.2]> m) fields h.

(** The 64-bit integer the server reads an argument as: [0], or an
    optional minus sign and digits that start with one of 1 to 9. *)
Definition string2ll (s : string) : option Z :=
  if String.eqb s "0" then Some 0
  else
    let '(sign, ds) :=
      match s with
      | String "-" r => (-1, r)
      | _ => (1, s)
      end in
    match ds with
    | EmptyString => None
    | String c _ =>
        if forallb_str isDigit ds && negb (Ascii.eqb c "0") then
          let v := sign * decimalValue 0 ds in
          if (- 2 ^ 63 <=? v) && (v <? 2 ^ 63) then Some v else None
        else None
    end.

(** The seconds of an [EXPIRE], if the server reads them as an integer.
    The client sends a string as it is and a number as its digits, which
    the server reads back when they fit 64 bits (from 1e21 on, where the
    client writes an exponent, they do not); what it sends for
    [undefined], a boolean or NaN is no integer. *)
Definition secondsOf (seconds : prim) : option Z :=
  match seconds with
  | PNum n => if (- 2 ^ 63 <=? n) && (n <? 2 ^ 63) then Some n else None
  | PStr s => string2ll s
  | _ => None
  end.

(** [EXPIRE] refuses seconds that do not fit 64 bits as milliseconds.  The
    server counts them from its clock, which lowers the upper bound by the
    milliseconds since 1970; the clock is not part of the model, and the
    properties that state a time to live take the seconds below [2^53]. *)
Definition EXPIRE_MAX : Z := (2 ^ 63 - 1) / 1000.

Definition expireInRange (n : Z) : bool :=
  (- EXPIRE_MAX <=? n) && (n <=? EXPIRE_MAX).

(** Effect of one command; [None] is an error reply, which leaves the store
    as it was. *)
Definition apply (c : cmd) (s : Store) : option Store :=
  match c with
  | HMSET key fields =>
      match fields, s !! key with
      | [], _ => None
      | _, None => Some (<[key := mkEntry (RHash (putFields fields ∅)) None]> s)
      | _, Some (mkEntry (RHash h) t) =>
          Some (<[key := mkEntry (RHash (putFields fields h)) t]> s)
      | _, Some _ => None
      end
  | HSET key field value =>
      match s !! key with
      | None => Some (<[key := mkEntry (RHash {[field := value]}) None]> s)
      | Some (mkEntry (RHash h) t) =>
          Some (<[key := mkEntry (RHash (<[field := value]> h)) t]> s)
      | Some _ => None
      end
  | EXPIRE key seconds =>
      match secondsOf seconds with
      | Some n =>
          if expireInRange n then
            match s !! key with
            | None => Some s
            | Some (mkEntry v _) =>
                if n <=? 0 then Some (delete key s)
                else Some (<[key := mkEntry v (Some n)]> s)
            end
          else None
      | None => None
      end
  | DEL key => Some (delete (default "null" key) s)
  | SET key value => Some (<[key := mkEntry (RStr value) None]> s)
  | SADD key member =>
      match s !! key with
      | None => Some (<[key := mkEntry (RSet {[member]}) None]> s)
      | Some (mkEntry (RSet ms) t) =>
          Some (<[key := mkEntry (RSet ({[member]} ∪ ms)) t]> s)
      | Some _ => None
      end
  | SREM key member =>
      match s !! key with
      | None => Some s
      | Some (mkEntry (RSet ms) t) =>
          let ms' := ms ∖ {[member]} in
          if decide (ms' = ∅) then Some (delete key s)
          else Some (<[key := mkEntry (RSet ms') t]> s)
      | Some _ => None
      end
  | ZADD key score member =>
      match score, s !! key with
      | PNum n, None => Some (<[key := mkEntry (RZset {[member := n]}) None]> s)
      | PNum n, Some (mkEntry (RZset z) t) =>
          Some (<[key := mkEntry (RZset (<[member := n]> z)) t]> s)
      | _, _ => None
      end
  | ZREM key member =>
      match s !! key with
      | None => Some s
      | Some (mkEntry (RZset z) t) =>
          let z' := delete member z in
          if decide (z' = ∅) then Some (delete key s)
          else Some (<[key := mkEntry (RZset z') t]> s)
      | Some _ => None
      end
  end.

(** A command that carries [null] or [undefined] as an argument. *)
Definition hasNullArg (c : cmd) : bool :=
  match c with
  | DEL None => true
  | EXPIRE _ PUndef => true
  | _ => false
  end.

(** [MULTI ... EXEC]: the commands in order; one that is answered with an
    error does not stop the others. *)
Definition applyAll (cs : list cmd) (s : Store) : Store :=
  fold_left (fun st c => default st (apply c st)) cs s.

(** [HGETALL]: [Ok None] is the [null] the client returns for a key that
    does not exist. *)
Definition hgetall (s : Store) (key : string)
  : result (option (gmap string string)) :=
  match s !! key with
  | None => Ok None
  | Some (mkEntry (RHash h) _) => Ok (Some h)
  | Some _ => Throw (RedisError "WRONGTYPE")
  end.

Definition smembers (s : Store) (key : string) : result (list string) :=
  match s !! key with
  | None => Ok []
  | Some (mkEntry (RSet ms) _) => Ok (elements ms)
  | Some _ => Throw (RedisError "WRONGTYPE")
  end.

Definition get (s : Store) (key : string) : result (option string) :=
  match s !! key with
  | None => Ok None
  | Some (mkEntry (RStr v) _) => Ok (Some v)
  | Some _ => Throw (RedisError "WRONGTYPE")
  end.

(** Order of a sorted set: by score, then by member. *)
Definition zle (a b : string * Z) : Prop :=
  a.2 < b.2 ∨ (a.2 = b.2 ∧ String.leb a.1 b.1 = true).

#[global] Instance zle_dec a b : Decision (zle a b).
Proof. unfold zle. apply _. Defined.

(** [ZRANGEBYSCORE key -inf +inf]. *)
Definition zrangeAll (s : Store) (key : string) : result (list string) :=
  match s !! key with
  | None => Ok []
  | Some (mkEntry (RZset z) _) => Ok ((merge_sort zle (map_to_list z)).*1)
  | Some _ => Throw (RedisError "WRONGTYPE")
  end.

End Redis.

(* ================================================================== *)
(** ** The process: state, surroundings, sequencing *)
(* ================================================================== *)

Module Runtime.
Import Redis.

(** What the transport answers to a request the code awaits
    ([createUAS], [srf.request]): the promise is rejected, or it resolves
    and a response with a status arrives. *)
Inductive netOutcome :=
  | NetReject
  | NetStatus (status : Z).

(** One [{subscription, timer}] element of a list of the timer map. *)
Record binding := mkBinding {
  b_subscription : jsval;
  b_timer : nat
}.

(** An armed timer: the arguments bound to [_expireSubscription] and the
    delay given to [setTimeout]. *)
Record timerCb := mkTimerCb {
  t_logger : jsval;
  t_db : jsval;
  t_dlg : jsval;
  t_subscription : jsval;
  t_delay : prim
}.

(** What leaves the process, in order. *)
Inductive output :=
  | Sent (status : Z) (headers : list (string * prim))
      (* res.send(status, {headers}) *)
  | Established (d : Dlg) (headers : list (string * prim))
      (* createUAS resolved: the library answered the SUBSCRIBE *)
  | DlgRequest (d : Dlg) (method : string) (headers : list (string * prim))
      (body : prim)
      (* dlg.request({method, headers, body}) *)
  | SrfRequest (stackDialogId : prim) (method : string)
      (headers : list (string * prim)) (body : string) (outcome : netOutcome).
      (* srf.request('sip:placeholder', {...}) and what came of it *)

Record World := mkWorld {
  store : gmap string entry;
  (** for each coming round trip to the store, whether it fails; none fails
      once the list is used up *)
  faults : list bool;
  (** what the client does with a command that has [null] or [undefined]
      as an argument is up to its version, which the repository does not
      fix.  Two of the behaviours are modelled: it sends the argument as
      the string "null" or "undefined", or (with this flag) it throws and
      sends nothing.  The properties below hold for both, or are about
      calls without such an argument. *)
  nullArgThrows : bool;
  (** outcomes of the coming awaited transport calls; success with status
      200 once the list is used up *)
  net : list netOutcome;
  (** the random UUIDs the coming short-uuid calls draw *)
  entropy : list Z;
  (** [const dialogs = new Map()] of lib/subscribe.js *)
  dialogs : gmap prim (list binding);
  (** the listeners [initial] registers on a dialog: the [uas] and [sub]
      they close over *)
  listeners : gmap string (Dlg * jsval);
  timers : gmap nat timerCb;
  nextTimer : nat;
  trace : list output
}.

Definition setStore (f : gmap string entry -> gmap string entry) (w : World) :=
  mkWorld (f (store w)) (faults w) (nullArgThrows w) (net w) (entropy w)
    (dialogs w) (listeners w) (timers w) (nextTimer w) (trace w).
Definition setFaults (fs : list bool) (w : World) :=
  mkWorld (store w) fs (nullArgThrows w) (net w) (entropy w)
    (dialogs w) (listeners w) (timers w) (nextTimer w) (trace w).
Definition setNet (n : list netOutcome) (w : World) :=
  mkWorld (store w) (faults w) (nullArgThrows w) n (entropy w)
    (dialogs w) (listeners w) (timers w) (nextTimer w) (trace w).
Definition setEntropy (e : list Z) (w : World) :=
  mkWorld (store w) (faults w) (nullArgThrows w) (net w) e
    (dialogs w) (listeners w) (timers w) (nextTimer w) (trace w).
Definition setDialogs
    (f : gmap prim (list binding) -> gmap prim (list binding)) (w : World) :=
  mkWorld (store w) (faults w) (nullArgThrows w) (net w) (entropy w)
    (f (dialogs w)) (listeners w) (timers w) (nextTimer w) (trace w).
Definition setListeners
    (f : gmap string (Dlg * jsval) -> gmap string (Dlg * jsval)) (w : World) :=
  mkWorld (store w) (faults w) (nullArgThrows w) (net w) (entropy w)
    (dialogs w) (f (listeners w)) (timers w) (nextTimer w) (trace w).
Definition setTimers (f : gmap nat timerCb -> gmap nat timerCb) (n : nat)
    (w : World) :=
  mkWorld (store w) (faults w) (nullArgThrows w) (net w) (entropy w)
    (dialogs w) (listeners w) (f (timers w)) n (trace w).
Definition emit (o : output) (w : World) :=
  mkWorld (store w) (faults w) (nullArgThrows w) (net w) (entropy w)
    (dialogs w) (listeners w) (timers w) (nextTimer w) (trace w ++ [o]).

(** Code that runs against the process state and returns or throws.  An
    [await]ed call is sequenced with [bind]; the interleaving of other
    handlers at an [await] is not part of the model. *)
Definition M (A : Type) : Type := World -> result A * World.

Definition ret {A} (a : A) : M A := fun w => (Ok a, w).
Definition throw {A} (e : exn) : M A := fun w => (Throw e, w).
Definition bind {A B} (m : M A) (k : A -> M B) : M B :=
  fun w =>
    match m w with
    | (Ok a, w') => k a w'
    | (Throw e, w') => (Throw e, w')
    end.

(** [try { m } catch (err) { h err }]. *)
Definition tryCatch {A} (m : M A) (h : exn -> M A) : M A :=
  fun w =>
    match m w with
    | (Ok a, w') => (Ok a, w')
    | (Throw e, w') => h e w'
    end.

(** A promise nobody awaits, or one whose [.catch] only logs: the call
    runs, and what it throws is lost. *)
Definition detached {A} (m : M A) : M unit :=
  fun w => (Ok tt, (m w).2).

(** A value that may throw, used in a statement. *)
Definition lift {A} (r : result A) : M A := fun w => (r, w).

Definition getWorld : M World := fun w => (Ok w, w).
Definition modify (f : World -> World) : M unit := fun w => (Ok tt, f w).

End Runtime.
Export Runtime.

Declare Scope js_scope.
Delimit Scope js_scope with js.
Notation "x <- m ;; k" := (bind m (fun x => k))
  (at level 100, m at next level, right associativity) : js_scope.
Notation "m ;;; k" := (bind m (fun _ => k))
  (at level 100, right associativity) : js_scope.
Open Scope js_scope.

Module Client.
Import Redis.

(** One round trip to the store: it fails when the surroundings say so. *)
Definition roundTrip {A} (f : World -> result A * World) : M A :=
  fun w =>
    match faults w with
    | true :: fs => (Throw (RedisError "connection"), setFaults fs w)
    | false :: fs => f (setFaults fs w)
    | [] => f w
    end.

(** [client.<write command>Async(...)].  A [null] or [undefined] argument
    is treated as the flag [nullArgThrows] of the world says. *)
Definition command (c : cmd) : M unit :=
  roundTrip (fun w =>
    if hasNullArg c && nullArgThrows w then (Throw (TypeError "null"), w)
    else
      match apply c (store w) with
      | Some s' => (Ok tt, setStore (fun _ => s') w)
      | None => (Throw (RedisError "reply"), w)
      end).

(** [client.multi().c1.c2....execAsync()].  With the flag [nullArgThrows],
    a [null] or [undefined] argument in one of the commands makes the call
    throw with nothing sent, one of the behaviours a client can have. *)
Definition multiExec (cs : list cmd) : M unit :=
  roundTrip (fun w =>
    if existsb hasNullArg cs && nullArgThrows w
    then (Throw (TypeError "null"), w)
    else (Ok tt, setStore (applyAll cs) w)).

Definition hgetallAsync (key : string) : M (option (gmap string string)) :=
  roundTrip (fun w => (hgetall (store w) key, w)).
Definition smembersAsync (key : string) : M (list string) :=
  roundTrip (fun w => (smembers (store w) key, w)).
Definition getAsync (key : string) : M (option string) :=
  roundTrip (fun w => (get (store w) key, w)).
Definition zrangebyscoreAllAsync (key : string) : M (list string) :=
  roundTrip (fun w => (zrangeAll (store w) key, w)).

(** The next UUID of the random source. *)
Definition nextUuid : M Z :=
  fun w =>
    match entropy w with
    | u :: r => (Ok u, setEntropy r w)
    | [] => (Ok 0, w)
    end.

(** The next outcome of an awaited transport call. *)
Definition nextNet : M netOutcome :=
  fun w =>
    match net w with
    | o :: r => (Ok o, setNet r w)
    | [] => (Ok (NetStatus 200), w)
    end.

End Client.

(* ================================================================== *)
(** ** lib/events/packages/dialog.js *)
(* ================================================================== *)

Module Dialog.
Import Redis Client.

Definition MAX_CALL_LENGTH : Z := 60 * 60 * 3.

Definition makeDialogInfoKey (aor : string) : string := "dlg-info:$" +:+ aor.
Definition makeSubscriptionName (subscriber resource : string) : string :=
  "dlg-sub:" +:+ subscriber +:+ "-" +:+ resource.
Definition makeSubscribedResourceKey (resource : string) : string :=
  "watched-aor:" +:+ resource.

(** The double-quote character and the line feed of the XML templates. *)
Definition q : string := String (ascii_of_nat 34) EmptyString.
Definition nl : string := String (ascii_of_nat 10) EmptyString.

(** [Number(s)] for the strings the counter can hold: blank is 0, an
    optionally signed run of decimal digits is its value, anything else is
    not a number.  (A string that writes a number in another way, with a
    fraction, an exponent, a radix prefix or as [Infinity], is outside the
    model; the counter is only ever written as 0, and the properties that
    state the delay of a timer take a number for the expiry.) *)
Definition stringToNumber (s : string) : prim :=
  let t := trim s in
  if String.eqb t "" then PNum 0
  else
    let '(sign, ds) :=
      match t with
      | String "-" r => (-1, r)
      | String "+" r => (1, r)
      | _ => (1, t)
      end in
    if negb (String.eqb ds "") && forallb_str isDigit ds
    then PNum (sign * toDouble (decimalValue 0 ds))
    else PNaN.

Definition toNumeric (p : prim) : prim :=
  match p with
  | PUndef => PNaN
  | PBool b => PNum (if b then 1 else 0)
  | PNum z => PNum z
  | PNaN => PNaN
  | PStr s => stringToNumber s
  end.

Definition prop (o : jsobj) (k : string) : prim := default PUndef (o !! k).

Definition attr (name : string) (v : prim) : string :=
  " " +:+ name +:+ "=" +:+ q +:+ toString v +:+ q.

(** [makeXmlContent(subscriptionData, dialogInfo)]; a [null] [dialogInfo]
    is the empty object. *)
Definition makeXmlContent (subscriptionData dialogInfo : jsobj) : string :=
  let aor := prop dialogInfo "aor" in
  let id := prop dialogInfo "id" in
  let callId := prop dialogInfo "callId" in
  let localTag := prop dialogInfo "localTag" in
  let remoteTag := prop dialogInfo "remoteTag" in
  let direction := prop dialogInfo "direction" in
  let state := prop dialogInfo "state" in
  let entity := por aor (prop subscriptionData "aor") in
  let tail :=
    attr "direction" direction +:+ "><state>" +:+ toString state
      +:+ "</state></dialog>" in
  let dialog :=
    if truthy id then
      if truthy remoteTag && truthy localTag then
        "<dialog" +:+ attr "id" id +:+ attr "call-id" callId
          +:+ attr "local-tag" localTag +:+ attr "remote-tag" remoteTag +:+ tail
      else if truthy remoteTag then
        "<dialog" +:+ attr "id" id +:+ attr "call-id" callId
          +:+ attr "remote-tag" remoteTag +:+ tail
      else if truthy localTag then
        "<dialog" +:+ attr "id" id +:+ attr "call-id" callId
          +:+ attr "local-tag" localTag +:+ tail
      else
        "<dialog" +:+ attr "id" id +:+ attr "call-id" callId +:+ tail
    else "" in
  "<?xml version=" +:+ q +:+ "1.0" +:+ q +:+ "?>" +:+ nl
  +:+ "<dialog-info xmlns=" +:+ q +:+ "urn:ietf:params:xml:ns:dialog-info"
  +:+ q +:+ " " +:+ nl
  +:+ "   version=" +:+ q +:+ toString (toNumeric (prop subscriptionData "count"))
  +:+ q +:+ " " +:+ nl
  +:+ "   state=" +:+ q +:+ "full" +:+ q +:+ " " +:+ nl
  +:+ "   entity=" +:+ q +:+ toString entity +:+ q +:+ ">" +:+ nl
  +:+ "   " +:+ dialog +:+ nl
  +:+ "</dialog-info>" +:+ nl +:+ nl.

(** The object [hgetall] resolves to: every field a string. *)
Definition ofHash (h : gmap string string) : jsobj := PStr <$> h.

(** The fields [hmset] writes for an object. *)
Definition toFields (o : list (string * prim)) : list (string * string) :=
  (fun kv => (kv.1, toString kv.2)) <$> o.

Section WithEnv.
Variable env : Env.

Definition dialogGetEventState (subscriber resource : prim) : M (option jsobj) :=
  let key := makeDialogInfoKey (toString resource) in
  let subKey := makeSubscriptionName (toString subscriber) (toString resource) in
  tryCatch
    (dialogInfo <- hgetallAsync key ;;
     subscriptionData <- hgetallAsync subKey ;;
     match subscriptionData with
     | None => ret None
     | Some sd =>
         let content :=
           makeXmlContent (ofHash sd) (ofHash (default ∅ dialogInfo)) in
         ret (Some (mkObj [("aor", resource);
                           ("etag", prop (ofHash sd) "etag");
                           ("eventType", PStr "dialog");
                           ("contentType", PStr "application/dialog-info+xml");
                           ("content", PStr content)]))
     end)
    (fun _ => ret None).

Definition dialogAddSubscription (dlg : Dlg) (obj : jsval) (expiry : prim)
  : M jsval :=
  subscriber <- lift (getProp obj "subscriber") ;;
  resource <- lift (getProp obj "resource") ;;
  let subscriptionName :=
    makeSubscriptionName (toString subscriber) (toString resource) in
  let key := makeSubscribedResourceKey (toString resource) in
  tryCatch
    (detached (command (SADD key subscriptionName)) ;;;
     etagUuid <- nextUuid ;;
     idUuid <- nextUuid ;;
     let subscriptionData :=
       [("aor", resource);
        ("dialogId",
         PStr (sip_callId dlg +:+ ";from-tag=" +:+ sip_remoteTag dlg));
        ("count", PNum 0);
        ("etag", PStr (generateETag env etagUuid));
        ("id", PStr (shortUuid env flickrBase58 idUuid));
        ("notifyType", PStr "sip")] in
     multiExec [HMSET subscriptionName (toFields subscriptionData);
                EXPIRE subscriptionName expiry] ;;;
     ret (VObj (mkObj subscriptionData)))
    (fun _ => ret VUndef).

Definition dialogRemoveSubscription (obj : jsval) : M unit :=
  subscriber <- lift (getProp obj "subscriber") ;;
  resource <- lift (getProp obj "resource") ;;
  let subscriptionName :=
    makeSubscriptionName (toString subscriber) (toString resource) in
  let key := makeSubscribedResourceKey (toString resource) in
  tryCatch
    (command (SREM key subscriptionName) ;;;
     command (DEL (Some subscriptionName)))
    (fun _ => ret tt).

(** *** The channel listener *)

(** [msg.split(' ')]: the pieces between single spaces. *)
Fixpoint splitSpaces (cur : string) (s : string) : list string :=
  match s with
  | EmptyString => [rev_str cur]
  | String c r =>
      if Ascii.eqb c " " then rev_str cur :: splitSpaces "" r
      else splitSpaces (String c cur) r
  end.

(** The n-th destructured element: [undefined] past the end. *)
Definition item (l : list string) (n : nat) : prim :=
  match l !! n with
  | Some s => PStr s
  | None => PUndef
  end.

Definition undefToUndefined (tag : prim) : prim :=
  if decide (tag = PStr "undef") then PUndef else tag.

Definition isTerminal (state : prim) : bool :=
  bool_decide (state ∈ [PStr "terminated"; PStr "rejected"; PStr "cancelled"]).

(** [await srf.request('sip:placeholder', {...})] and the listener for its
    response, which only logs. *)
Definition srfRequest (stackDialogId : prim) (method : string)
    (headers : list (string * prim)) (body : string) : M unit :=
  o <- nextNet ;;
  modify (emit (SrfRequest stackDialogId method headers body o)) ;;;
  match o with
  | NetReject => throw TransportError
  | NetStatus _ => ret tt
  end.

(** The body of the [for] loop of [onMessage], for one set member. *)
Definition notifyWatcher (key : string) (info : jsobj) (subscription : string)
  : M unit :=
  tryCatch
    (subscriptionData <- hgetallAsync subscription ;;
     match subscriptionData with
     | None => detached (command (SREM key subscription))
     | Some sd =>
         let dialogId := prop (ofHash sd) "dialogId" in
         let body := makeXmlContent (ofHash sd) info in
         srfRequest dialogId "NOTIFY"
           [("Subscription-State", PStr "active");
            ("Content-Type", PStr "application/dialog-info+xml")]
           body
     end)
    (fun _ => ret tt).

Fixpoint forEach {A} (f : A -> M unit) (l : list A) : M unit :=
  match l with
  | [] => ret tt
  | x :: r => f x ;;; forEach f r
  end.

Definition onMessage (msg : string) : M unit :=
  let parts := splitSpaces "" msg in
  let aor := item parts 0 in
  let id := item parts 1 in
  let callId := item parts 2 in
  let lTag := item parts 3 in
  let rTag := item parts 4 in
  let direction := item parts 5 in
  let state := item parts 6 in
  let localTag := undefToUndefined lTag in
  let remoteTag := undefToUndefined rTag in
  let key := makeDialogInfoKey (toString aor) in
  (if isTerminal state then detached (command (DEL (Some key)))
   else
     let dialogInfo :=
       ([("id", id); ("direction", direction); ("state", state);
        ("callId", callId)]
       ++ (if truthy localTag then [("localTag", localTag)] else [])
       ++ (if truthy remoteTag then [("remoteTag", remoteTag)] else []))%list in
     detached (multiExec [HMSET key (toFields dialogInfo);
                          EXPIRE key (PNum MAX_CALL_LENGTH)])) ;;;
  tryCatch
    (let key := makeSubscribedResourceKey (toString aor) in
     subscriptions <- smembersAsync key ;;
     forEach
       (notifyWatcher key
          (mkObj [("aor", aor); ("id", id); ("callId", callId);
                  ("localTag", localTag); ("remoteTag", remoteTag);
                  ("direction", direction); ("state", state)]))
       subscriptions)
    (fun _ => ret tt).

End WithEnv.
End Dialog.

(* ================================================================== *)
(** ** lib/redisdb.js *)
(* ================================================================== *)

Module RedisDb.
Import Redis Client Dialog.

Definition ZSET : string := "event_zset".

Definition makeRegKey (aor : string) : string := "reg:" +:+ aor.
Definition makeEventStateKey (aor event : string) : string :=
  "es:" +:+ aor +:+ ":" +:+ event.
Definition makeSubStateKey (opaque : string) : string := "sub:" +:+ opaque.
Definition makeSubStateKeyId (subscriber resource event id : string) : string :=
  "subkeyid:" +:+ resource +:+ ":" +:+ event +:+ ":" +:+ subscriber
    +:+ ":" +:+ id.
Definition makeSubStateKeyDialog (subscriber resource event callid : string)
  : string :=
  "subkeydlg:" +:+ resource +:+ ":" +:+ event +:+ ":" +:+ subscriber
    +:+ ":" +:+ callid.
Definition makeSubStateKeyWildCard (resource event : string) : string :=
  "subkeydlg:" +:+ resource +:+ ":" +:+ event +:+ ":*".

Section WithEnv.
Variable env : Env.

(** [this.eventPackages[eventType]] is defined. *)
Definition hasPackage (eventType : prim) : bool :=
  dialogPackage env && bool_decide (eventType = PStr "dialog").

Definition addEventState (aor : string) (expiry : prim)
    (eventType contentType content : string) : M jsobj :=
  uuid <- nextUuid ;;
  let etag := generateETag env uuid in
  let key := makeEventStateKey aor eventType in
  let data :=
    [("aor", PStr aor); ("eventType", PStr eventType); ("etag", PStr etag);
     ("contentType", PStr contentType); ("content", PStr content)] in
  multiExec [HMSET key (toFields data);
             EXPIRE key expiry;
             ZADD ZSET (parseInt etag) key] ;;;
  ret (mkObj data).

Definition getEventState (subscriber aor eventType : prim) : M (option jsobj) :=
  if hasPackage eventType then dialogGetEventState subscriber aor
  else
    let key := makeEventStateKey (toString aor) (toString eventType) in
    obj <- hgetallAsync key ;;
    ret (ofHash <$> obj).

(** The body of the [for] loop of [purgeExpired]: the count so far, and
    the count after the element. *)
Definition purgeOne (nExpired : Z) (aor : string) : M Z :=
  tryCatch
    (obj <- hgetallAsync aor ;;
     match obj with
     | None =>
         detached (command (ZREM ZSET aor)) ;;;
         ret (nExpired + 1)
     | Some _ => ret nExpired
     end)
    (fun _ => ret nExpired).

Fixpoint purgeLoop (nExpired : Z) (arr : list string) : M Z :=
  match arr with
  | [] => ret nExpired
  | aor :: r => n <- purgeOne nExpired aor ;; purgeLoop n r
  end.

Definition purgeExpired : M Z :=
  arr <- zrangebyscoreAllAsync ZSET ;;
  purgeLoop 0 arr.

(** The properties of an object, for [hmset]. *)
Definition objFields (o : jsobj) : list (string * string) :=
  (fun kv => (kv.1, toString kv.2)) <$> map_to_list o.

Definition addSubscription (dlg : Dlg) (obj : jsval) (expiry : prim) : M jsval :=
  eventType <- lift (getProp obj "eventType") ;;
  if hasPackage eventType then
    (* obj.override = true, a flag that nothing reads *)
    dialogAddSubscription env dlg obj expiry
  else
    opaque <- nextUuid ;;
    let key := makeSubStateKey (shortUuid env flickrBase58 opaque) in
    subscriber <- lift (getProp obj "subscriber") ;;
    resource <- lift (getProp obj "resource") ;;
    callId <- lift (getProp obj "callId") ;;
    id <- lift (getProp obj "id") ;;
    let keyDialog :=
      makeSubStateKeyDialog (toString subscriber) (toString resource)
        (toString eventType) (toString callId) in
    let fields := match obj with VObj o => objFields o | _ => [] end in
    let keyId :=
      makeSubStateKeyId (toString subscriber) (toString resource)
        (toString eventType) (toString id) in
    multiExec
      ([HMSET key fields; SET keyDialog key; EXPIRE key expiry;
        EXPIRE keyDialog expiry]
       ++ (if truthy id then [SET keyId key; EXPIRE keyId expiry] else []))%list ;;;
    ret obj.

Definition removeSubscription (obj : jsval) : M unit :=
  eventType <- lift (getProp obj "eventType") ;;
  if hasPackage eventType then
    dialogRemoveSubscription obj
  else
    subscriber <- lift (getProp obj "subscriber") ;;
    resource <- lift (getProp obj "resource") ;;
    callId <- lift (getProp obj "callId") ;;
    id <- lift (getProp obj "id") ;;
    let keyDialog :=
      makeSubStateKeyDialog (toString subscriber) (toString resource)
        (toString eventType) (toString callId) in
    value <- getAsync keyDialog ;;
    let keyId :=
      makeSubStateKeyId (toString subscriber) (toString resource)
        (toString eventType) (toString id) in
    multiExec
      ([DEL (Some keyDialog); DEL value]
       ++ (if truthy id then [DEL (Some keyId)] else []))%list.

End WithEnv.
End RedisDb.

(* ================================================================== *)
(** ** lib/subscribe.js *)
(* ================================================================== *)

Module Subscribe.
Import Redis Client Dialog RedisDb.

(** An incoming SUBSCRIBE as the code reads it: its headers ([req.has],
    [req.get]), the URIs of its parsed To and From headers, the dialog the
    transport creates for it (or has for it), and the two properties
    [validate] hangs on it, [undefined] on a request that [validate] has
    not seen. *)
Record Req := mkReq {
  headers : list (string * string);
  to_uri : string;
  from_uri : string;
  req_dialog : Dlg;
  req_event : jsval;
  req_expiry : prim
}.

Fixpoint header (hs : list (string * string)) (name : string) : option string :=
  match hs with
  | [] => None
  | (n, v) :: r => if String.eqb n name then Some v else header r name
  end.

Definition has (req : Req) (name : string) : bool :=
  bool_decide (is_Some (header (headers req) name)).

Definition getHeader (req : Req) (name : string) : prim :=
  match header (headers req) name with
  | Some v => PStr v
  | None => PUndef
  end.

(** [res.send(status, {headers})]. *)
Definition send (status : Z) (hs : list (string * prim)) : M unit :=
  modify (emit (Sent status hs)).

(** [logger.info(...)]: the value in the logger's place has to be one. *)
Definition logInfo (logger : jsval) : M unit :=
  match logger with
  | VLogger => ret tt
  | VPrim PUndef => throw (TypeError "info")
  | _ => throw (TypeError "logger.info is not a function")
  end.

(** [a === b] on primitives. *)
Definition strictEq (a b : prim) : bool :=
  match a, b with
  | PNaN, _ | _, PNaN => false
  | _, _ => bool_decide (a = b)
  end.

(** [x * 1000]: the operand is converted to a number and the product is
    rounded to a double.  (The conversion of a string is [stringToNumber],
    with its limits.) *)
Definition times1000 (x : prim) : prim :=
  match toNumeric x with
  | PNum z => PNum (Z.sgn z * toDouble (Z.abs z * 1000))
  | _ => PNaN
  end.

Section WithEnv.
Variable env : Env.

(** [await req.srf.createUAS(req, res, {headers})]. *)
Definition createUAS (req : Req) (hs : list (string * prim)) : M Dlg :=
  o <- nextNet ;;
  match o with
  | NetReject => throw TransportError
  | NetStatus _ =>
      modify (emit (Established (req_dialog req) hs)) ;;;
      ret (req_dialog req)
  end.

Definition notify (logger db sub dlg : jsval) (subscriptionState : string)
  : M unit :=
  subscriber <- lift (getProp sub "subscriber") ;;
  resource <- lift (getProp sub "resource") ;;
  eventType <- lift (getProp sub "eventType") ;;
  state <-
    match db with
    | VDb => getEventState env subscriber resource eventType
    | _ => throw (TypeError "db.getEventState is not a function")
    end ;;
  callId <- lift (getProp sub "callId") ;;
  let hs :=
    [("Call-ID", callId);
     ("Subscription-State", PStr subscriptionState);
     ("Event", eventType)] in
  let '(hs, body) :=
    match state with
    | Some st =>
        if negb (String.eqb subscriptionState "terminated")
        then ((hs ++ [("Content-Type", prop st "contentType")])%list,
              prop st "content")
        else (hs, PUndef)
    | None => (hs, PUndef)
    end in
  match dlg with
  | VDlg d => modify (emit (DlgRequest d "NOTIFY" hs body))
  | _ => throw (TypeError "dlg.request is not a function")
  end.

Definition validate (logger : jsval) (req : Req) : M (bool * Req) :=
  if negb (has req "Event") then
    logInfo logger ;;;
    send 400 [] ;;;
    ret (false, req)
  else
    let '(event, id) :=
      parseEventHeader (default "" (header (headers req) "Event")) in
    if negb (bool_decide (event ∈ supportedEvents env)) then
      logInfo logger ;;;
      send 489 [] ;;;
      ret (false, req)
    else
      subscriber <- lift (parseAor env (from_uri req)) ;;
      resource <- lift (parseAor env (to_uri req)) ;;
      let ev :=
        omitNil (mkObj [("subscriber", PStr subscriber);
                        ("resource", PStr resource);
                        ("eventType", PStr event);
                        ("id", from_option PStr PUndef id);
                        ("accept", getHeader req "Accept");
                        ("callId", getHeader req "Call-ID")]) in
      let expiry :=
        if has req "Expires"
        then parseInt (default "" (header (headers req) "Expires"))
        else getDefaultSubscriptionExpiry env (PStr event) in
      let req' :=
        mkReq (headers req) (to_uri req) (from_uri req) (req_dialog req)
          (VObj ev) expiry in
      logInfo logger ;;;
      if strictEq (PNum 0) expiry then
        logInfo logger ;;;
        send 200 [] ;;;
        ret (false, req')
      else ret (true, req').

Definition startSubscriptionTimer (logger db dlg subscription : jsval)
    (expiry : prim) : M unit :=
  w <- getWorld ;;
  let timer := nextTimer w in
  modify (setTimers
            (insert timer
               (mkTimerCb logger db dlg subscription (times1000 expiry)))
            (S timer)) ;;;
  id <- lift (getProp dlg "id") ;;
  w <- getWorld ;;
  let subs := default [] (dialogs w !! id) in
  modify (setDialogs (insert id (subs ++ [mkBinding subscription timer])%list)).

(** The iteratee of [_.remove] in [clearSubscriptionTimer]. *)
Definition sameEventType (subscription : jsval) (s : binding) : result bool :=
  match getProp (b_subscription s) "eventType" with
  | Throw e => Throw e
  | Ok a =>
      match getProp subscription "eventType" with
      | Throw e => Throw e
      | Ok b => Ok (strictEq a b)
      end
  end.

(** [_.remove(array, predicate)] on a non-empty array: the predicate is
    run on every element, then the elements it holds for are pulled out.
    The removed elements and the ones that stay. *)
Fixpoint partitionM {A} (p : A -> result bool) (l : list A)
  : result (list A * list A) :=
  match l with
  | [] => Ok ([], [])
  | x :: r =>
      match p x with
      | Throw e => Throw e
      | Ok b =>
          match partitionM p r with
          | Throw e => Throw e
          | Ok (yes, no) => Ok (if b then (x :: yes, no) else (yes, x :: no))
          end
      end
  end.

Definition clearSubscriptionTimer (logger db dlg subscription andCancel : jsval)
  : M unit :=
  id <- lift (getProp dlg "id") ;;
  w <- getWorld ;;
  let subs := dialogs w !! id in
  (* _.remove mutates the array that the map holds *)
  arr <-
    match subs with
    | None | Some [] => ret []
    | Some l =>
        bind (lift (partitionM (sameEventType subscription) l))
          (fun '(removed, kept) =>
             modify (setDialogs (insert id kept)) ;;;
             ret removed)
    end ;;
  match arr with
  | [one] =>
      (if match andCancel with VPrim p => truthy p | _ => true end
       then modify (fun w => setTimers (delete (b_timer one)) (nextTimer w) w)
       else ret tt) ;;;
      w <- getWorld ;;
      match dialogs w !! id with
      | Some [] => modify (setDialogs (delete id))
      | _ => ret tt
      end
  | _ => throw AssertionError
  end.

(** The call of [notify] is not awaited: it stops at its first [await],
    the read of the event state, and goes on only once the callback of the
    timer has returned.  So the rest of the body runs first, and what it
    throws leaves the callback before [notify] has sent anything. *)
Definition _expireSubscription (logger db dlg subscription : jsval) : M unit :=
  (match dlg with
   | VDlg _ => logInfo logger
   | _ => throw (TypeError "callId")
   end) ;;;
  clearSubscriptionTimer logger dlg subscription VUndef VUndef ;;;
  detached (notify logger db subscription dlg "terminated").

Definition remove (logger db : jsval) (req : Req) (dlg : Dlg)
    (subscription : jsval) : M unit :=
  logInfo logger ;;;
  notify logger db subscription (VDlg dlg) "terminated" ;;;
  (match db with
   | VDb => removeSubscription env subscription
   | _ => throw (TypeError "db.removeSubscription is not a function")
   end) ;;;
  clearSubscriptionTimer (VDlg dlg) db subscription (VPrim (PBool true)) VUndef.

(** The [expiry] that [refresh] computes. *)
Definition refreshExpiry (req : Req) : prim :=
  let event := getHeader req "Event" in
  por (if has req "Expires"
       then parseInt (default "" (header (headers req) "Expires"))
       else getDefaultSubscriptionExpiry env event)
      (PNum 3600).

Definition refresh (logger db : jsval) (req : Req) (dlg : Dlg)
    (subscription : jsval) : M unit :=
  let expiry := refreshExpiry req in
  logInfo logger ;;;
  tryCatch
    (clearSubscriptionTimer logger db (VDlg dlg) subscription
       (VPrim (PBool true)) ;;;
     (match db with
      | VDb => removeSubscription env subscription
      | _ => throw (TypeError "db.removeSubscription is not a function")
      end) ;;;
     subscription <-
       match db with
       | VDb => addSubscription env dlg (req_event req) (req_expiry req)
       | _ => throw (TypeError "db.addSubscription is not a function")
       end ;;
     startSubscriptionTimer (VDlg dlg) db (VDlg dlg) subscription expiry ;;;
     send 202 [("Expires", expiry)] ;;;
     notify logger db subscription (VDlg dlg) "active")
    (fun _ =>
       logInfo logger ;;;
       send 480 []).

Definition initial (logger : jsval) (req : Req) : M unit :=
  logInfo logger ;;;
  tryCatch
    (uas <- createUAS req [("Expires", req_expiry req)] ;;
     sub <- addSubscription env uas (req_event req) (req_expiry req) ;;
     modify (setListeners (insert (dlg_id uas) (uas, sub))) ;;;
     startSubscriptionTimer logger VDb (VDlg uas) sub (req_expiry req) ;;;
     detached (notify logger VDb (req_event req) (VDlg uas) "active"))
    (fun _ =>
       logInfo logger ;;;
       send 480 []).

(** *** What the surroundings call *)

(** The handler given to [srf.subscribe]: a SUBSCRIBE outside a dialog. *)
Definition onSubscribe (req : Req) : M unit :=
  bind (validate VLogger req)
    (fun '(ok, req') => if ok : bool then initial VLogger req' else ret tt).

(** [uas.on('subscribe', ...)]: a SUBSCRIBE inside the dialog. *)
Definition onDialogSubscribe (req : Req) : M unit :=
  w <- getWorld ;;
  match listeners w !! dlg_id (req_dialog req) with
  | Some (uas, sub) => refresh VLogger VDb req uas sub
  | None => ret tt
  end.

(** [uas.on('unsubscribe', ...)]: an unsubscribe inside the dialog. *)
Definition onDialogUnsubscribe (req : Req) : M unit :=
  w <- getWorld ;;
  match listeners w !! dlg_id (req_dialog req) with
  | Some (uas, sub) => remove VLogger VDb req uas sub
  | None => ret tt
  end.

(** An armed timer runs out. *)
Definition onTimeout (timer : nat) : M unit :=
  w <- getWorld ;;
  match timers w !! timer with
  | Some cb =>
      modify (fun w => setTimers (delete timer) (nextTimer w) w) ;;;
      _expireSubscription (t_logger cb) (t_db cb) (t_dlg cb) (t_subscription cb)
  | None => ret tt
  end.

End WithEnv.
End Subscribe.

(* ================================================================== *)
(** ** lib/redisdb.js: registrations and the upkeep of event state *)
(* ================================================================== *)

Module Upkeep.
Import Redis Client Dialog RedisDb.

(** The replies of [MULTI ... EXEC]: for each command in order whether it
    was answered without an error, each command running on the store the
    ones before it have left. *)
Fixpoint replies (cs : list cmd) (s : Store) : list bool :=
  match cs with
  | [] => []
  | c :: r =>
      bool_decide (is_Some (apply c s)) :: replies r (default s (apply c s))
  end.

(** [client.multi().c1.c2....execAsync()], with what it resolves to. *)
Definition multiExecReplies (cs : list cmd) : M (list bool) :=
  roundTrip (fun w =>
    if existsb hasNullArg cs && nullArgThrows w
    then (Throw (TypeError "null"), w)
    else (Ok (replies cs (store w)), setStore (applyAll cs) w)).

(** [client.delAsync(key)]: the number of keys removed. *)
Definition delAsync (key : string) : M Z :=
  roundTrip (fun w =>
    (Ok (if bool_decide (is_Some (store w !! key)) then 1 else 0),
     setStore (delete key) w)).

(** [addRegistration(aor, obj, expires)].  A transaction with a command
    that the server refuses when it is queued, as [HMSET] without fields
    is, is aborted as a whole and the promise rejected. *)
Definition addRegistration (aor : string) (obj : jsobj) (expires : prim)
  : M bool :=
  let key := makeRegKey aor in
  tryCatch
    (result <-
       (if bool_decide (obj = ∅) then throw (RedisError "EXECABORT")
        else multiExecReplies [HMSET key (objFields obj); EXPIRE key expires]) ;;
     ret (bool_decide (head result = Some true)))
    (fun _ => ret false).

Definition queryRegistration (aor : string) : M (option (gmap string string)) :=
  let key := makeRegKey aor in
  hgetallAsync key.

Definition removeRegistration (aor : string) : M bool :=
  let key := makeRegKey aor in
  tryCatch
    (result <- delAsync key ;;
     ret (bool_decide (result = 1)))
    (fun _ => ret false).

Section WithEnv.
Variable env : Env.

Definition refreshEventState (aor eventType : string) (expiry : prim)
  : M string :=
  uuid <- nextUuid ;;
  let etag := generateETag env uuid in
  let key := makeEventStateKey aor eventType in
  multiExec [HSET key "etag" etag;
             EXPIRE key expiry;
             ZREM ZSET key;
             ZADD ZSET (parseInt etag) key] ;;;
  ret etag.

(** [modifyEventState(data, expiry, contentType, content)] for an object
    [data]: the tag it returns and the object as the call leaves it. *)
Definition modifyEventState (data : jsobj) (expiry : prim)
    (contentType content : prim) : M (string * jsobj) :=
  let key :=
    makeEventStateKey (toString (prop data "aor"))
      (toString (prop data "eventType")) in
  uuid <- nextUuid ;;
  let etag := generateETag env uuid in
  let data := <["content" := content]> (<["etag" := PStr etag]> data) in
  multiExec [HMSET key (objFields data);
             EXPIRE key expiry;
             ZREM ZSET key;
             ZADD ZSET (parseInt etag) key] ;;;
  ret (etag, data).

End WithEnv.
End Upkeep.

(* ================================================================== *)
(** ** Vocabulary of the properties *)
(* ================================================================== *)

Import Redis Client Dialog RedisDb Subscribe.

(** *** Addresses of record *)

(** One to three decimal digits. *)
Definition octet (s : string) : Prop :=
  (1 <= String.length s <= 3)%nat ∧ forallb_str isDigit s = true.

(** [n + 1] octets separated by dots. *)
Fixpoint dotted (n : nat) (s : string) : Prop :=
  match n with
  | O => octet s
  | S n' => ∃ a r, octet a ∧ s = a +:+ "." +:+ r ∧ dotted n' r
  end.

(** A literal IPv4 address, as the code recognises one. *)
Definition dottedQuad (host : string) : Prop :=
  ∃ a b c d, octet a ∧ octet b ∧ octet c ∧ octet d ∧
    host = a +:+ "." +:+ b +:+ "." +:+ c +:+ "." +:+ d.

(** *** Expiry *)

(** The configuration holds the value [d] as the default expiry of the
    event type. *)
Definition configuredFor (env : Env) (event : string) (d : prim) : Prop :=
  ∃ tbl, config_expire_default env = Some tbl ∧ (event, d) ∈ tbl.

(** The configuration holds no default expiry for the event type. *)
Definition notConfigured (env : Env) (event : string) : Prop :=
  ∀ tbl, config_expire_default env = Some tbl → event ∉ tbl.*1.

(** The defaults of the configuration are the properties of one object:
    no event type has two. *)
Definition configIsObject (env : Env) : Prop :=
  ∀ tbl, config_expire_default env = Some tbl → NoDup tbl.*1.

(** *** Version tags *)

(** A character among [1] .. [9]. *)
Definition isDigit19 (c : ascii) : bool :=
  let n := N_of_ascii c in ((49 <=? n) && (n <=? 57))%N.

(** *** What was sent *)

(** The value of a header in a header list. *)
Fixpoint headerOf (hs : list (string * prim)) (name : string) : prim :=
  match hs with
  | [] => PUndef
  | (n, v) :: r => if String.eqb n name then v else headerOf r name
  end.

(** The NOTIFY requests sent inside a dialog with a given
    Subscription-State. *)
Definition isNotify (state : string) (o : output) : bool :=
  match o with
  | DlgRequest _ m hs _ =>
      String.eqb m "NOTIFY" &&
      bool_decide (headerOf hs "Subscription-State" = PStr state)
  | _ => false
  end.

Definition notifies (state : string) (tr : list output) : list output :=
  List.filter (isNotify state) tr.

(** The statuses of the responses sent with [res.send]. *)
Definition statuses (tr : list output) : list Z :=
  omap (fun o => match o with Sent s _ => Some s | _ => None end) tr.

(** *** The store *)

(** The time to live of a key. *)
Definition ttlOf (s : gmap string entry) (key : string) : option Z :=
  e ← s !! key; e_ttl e.

(** The members of the set at a key. *)
Definition setAt (s : gmap string entry) (key : string) : gset string :=
  match s !! key with
  | Some (mkEntry (RSet ms) _) => ms
  | _ => ∅
  end.

(** The sorted index: member to score.  [None] when the key holds
    something else. *)
Definition indexAt (s : gmap string entry) : option (gmap string Z) :=
  match s !! ZSET with
  | None => Some ∅
  | Some (mkEntry (RZset z) _) => Some z
  | Some _ => None
  end.

(** *** The timer map *)

Definition eventTypeOf (b : binding) : result prim :=
  getProp (b_subscription b) "eventType".

(** No list of the map is empty, and no list holds two pairs of one event
    type. *)
Definition timerMapOk (d : gmap prim (list binding)) : Prop :=
  map_Forall (λ _ l, l ≠ [] ∧ NoDup (eventTypeOf <$> l)) d.

#[global] Instance exn_eq_dec : EqDecision exn.
Proof. solve_decision. Defined.

#[global] Instance result_eq_dec {A} `{EqDecision A} : EqDecision (result A).
Proof. solve_decision. Defined.

#[global] Instance timerMapOk_dec d : Decision (timerMapOk d).
Proof. unfold timerMapOk. apply _. Defined.

(** *** A deployment for the examples *)

Fixpoint splitAtChar (c : ascii) (s : string) : option (string * string) :=
  match s with
  | EmptyString => None
  | String x r =>
      if Ascii.eqb x c then Some (EmptyString, r)
      else match splitAtChar c r with
           | Some (a, b) => Some (String x a, b)
           | None => None
           end
  end.

(** A stand-in for the URI parser of the transport library, enough for
    [sip:user@host] and [sip:host]. *)
Definition exampleParseUri (u : string) : option Uri :=
  match u with
  | String "s" (String "i" (String "p" (String ":" r))) =>
      match splitAtChar "@" r with
      | Some (usr, h) => Some (mkUri (Some usr) h)
      | None => Some (mkUri None r)
      end
  | _ => None
  end.

(** [SUPPORTED_EVENTS=dialog], the package [dialog] registered, no
    [config] entries. *)
Definition exampleEnv (pad : bool) : Env :=
  mkEnv exampleParseUri None None ["dialog"] true pad.

(** A fresh process: empty store, nothing armed; the random source will
    draw the UUIDs f47ac10b-58cc-4372-a567-0e02b2c3d479 and
    9b2e4c1a-7d3f-4e5b-8a6c-0d1e2f3a4b5c. *)
Definition freshWorld (nullThrows : bool) : World :=
  mkWorld ∅ [] nullThrows []
    [324969006592305634633390616021200786553;
     206270728563978823856345086064349301596] ∅ ∅ ∅ 0 [].

Definition exampleDialog : Dlg := mkDlg "call1;from-tag=ft1" "call1" "ft1".

Definition exampleRequest (expires : string) : Req :=
  mkReq [("Event", "dialog"); ("Expires", expires); ("Call-ID", "call1")]
    "sip:bob@example.com" "sip:alice@example.com" exampleDialog VUndef PUndef.

(** A deployment that supports the package [dialog] with a default expiry
    of zero, and has a default for [presence] too. *)
Definition configuredEnv : Env :=
  mkEnv exampleParseUri None
    (Some [("presence", PNum 1800); ("dialog", PNum 0)]) ["dialog"] true false.

(** A SUBSCRIBE for [dialog] without an Expires header. *)
Definition bareRequest : Req :=
  mkReq [("Event", "dialog"); ("Call-ID", "call1")]
    "sip:bob@example.com" "sip:alice@example.com" exampleDialog VUndef PUndef.

(** The process after the initial SUBSCRIBE with [Expires: 3600]. *)
Definition subscribedWorld (pad nullThrows : bool) : World :=
  (onSubscribe (exampleEnv pad) (exampleRequest "3600") (freshWorld nullThrows)).2.

(** *** The fan-out of a dialog event *)






(** The record of a watcher, when its key holds one. *)
Definition liveData (s : gmap string entry) (m : string)
  : option (gmap string string) :=
  match s !! m with
  | Some (mkEntry (RHash h) _) => Some h
  | _ => None
  end.

(** The object [onMessage] renders the bodies from. *)
Definition messageInfo (msg : string) : jsobj :=
  let parts := splitSpaces "" msg in
  mkObj [("aor", item parts 0); ("id", item parts 1); ("callId", item parts 2);
         ("localTag", undefToUndefined (item parts 3));
         ("remoteTag", undefToUndefined (item parts 4));
         ("direction", item parts 5); ("state", item parts 6)].

(** The NOTIFY sent to the watcher with record [h], and what the transport
    made of it. *)
Definition notification (info : jsobj) (h : gmap string string)
    (o : netOutcome) : output :=
  SrfRequest (prop (ofHash h) "dialogId") "NOTIFY"
    [("Subscription-State", PStr "active");
     ("Content-Type", PStr "application/dialog-info+xml")]
    (makeXmlContent (ofHash h) info) o.

(** One NOTIFY for each record, in order, with the outcomes the transport
    has in store. *)
Fixpoint notifications (info : jsobj) (outcomes : list netOutcome)
    (hs : list (gmap string string)) : list output :=
  match hs with
  | [] => []
  | h :: r =>
      notification info h (hd (NetStatus 200) outcomes)
      :: notifications info (tl outcomes) r
  end.
(** An event for a resource with three watchers, one of them expired,
    while the transport rejects the first NOTIFY and answers 481 to the
    second. *)
Definition fanoutWorld : World :=
  setNet [NetReject; NetStatus 481]
    (setStore
       (λ _, {[ "watched-aor:bob@example.com" :=
                  mkEntry
                    (RSet {[ "dlg-sub:alice@example.com-bob@example.com";
                             "dlg-sub:carol@example.com-bob@example.com";
                             "dlg-sub:dave@example.com-bob@example.com" ]})
                    None;
                "dlg-sub:alice@example.com-bob@example.com" :=
                  mkEntry (RHash {[ "dialogId" := "call1;from-tag=ft1";
                                    "count" := "0";
                                    "aor" := "bob@example.com" ]}) (Some 3600);
                "dlg-sub:dave@example.com-bob@example.com" :=
                  mkEntry (RHash {[ "dialogId" := "call3;from-tag=ft3";
                                    "count" := "0";
                                    "aor" := "bob@example.com" ]}) (Some 3600);
                "dlg-info:$bob@example.com" :=
                  mkEntry (RHash {[ "state" := "confirmed" ]}) (Some 10800) ]})
       (freshWorld false)).

Definition fanoutMessage : string :=
  "bob@example.com d1 call9 lt rt initiator terminated".


(** A sorted index with three members, of which one has its record. *)
Definition purgeIndex : gmap string Z :=
  {[ "es:a@x:dialog" := 11; "es:b@x:dialog" := 12; "es:c@x:dialog" := 13 ]}.

Definition purgeWorld : World :=
  setStore
    (λ _, {[ ZSET := mkEntry (RZset purgeIndex) None;
             "es:b@x:dialog" := mkEntry (RHash {[ "aor" := "b@x" ]}) (Some 60) ]})
    (freshWorld false).


(** *** The loops, as functions of the store *)

(** What one turn of the loop of [purgeExpired] does to the store. *)
Definition purgeStep (s : gmap string entry) (k : string) : gmap string entry :=
  match s !! k with
  | None => default s (apply (ZREM ZSET k) s)
  | Some _ => s
  end.

Definition purgeCount (s : gmap string entry) (k : string) (n : Z) : Z :=
  match s !! k with
  | None => n + 1
  | Some _ => n
  end.

(** The loop of [purgeExpired]: the count and the store after it. *)
Fixpoint purgePure (s : gmap string entry) (l : list string) (n : Z)
  : Z * gmap string entry :=
  match l with
  | [] => (n, s)
  | k :: r => purgePure (purgeStep s k) r (purgeCount s k n)
  end.

(** What one turn of the loop of [onMessage] does. *)
Definition watcherStep (key : string) (info : jsobj) (w : World) (m : string)
  : World :=
  match store w !! m with
  | Some (mkEntry (RHash h) _) =>
      emit (notification info h (hd (NetStatus 200) (net w)))
        (setNet (tl (net w)) w)
  | None => setStore (λ s, default s (apply (SREM key m) s)) w
  | Some _ => w
  end.

(** *** The functions of the upkeep *)

Import Upkeep.

(** *** Code that only talks to the store *)

(** [w'] differs from [w] at most in the store and in what is left of the
    surroundings. *)
Definition sameProcess (w w' : World) : Prop :=
  trace w' = trace w ∧ dialogs w' = dialogs w ∧ timers w' = timers w
  ∧ nextTimer w' = nextTimer w ∧ listeners w' = listeners w.

Definition StoreOnly {A} (m : M A) : Prop := ∀ w, sameProcess w (m w).2.

(** *** The dialog package on the store *)

(** The record [dialogAddSubscription] writes for a descriptor, with the
    UUIDs drawn for its tag and its id. *)
Definition subscriptionDataOf (env : Env) (dlg : Dlg) (o : jsobj)
    (etagUuid idUuid : Z) : list (string * prim) :=
  [("aor", prop o "resource");
   ("dialogId", PStr (sip_callId dlg +:+ ";from-tag=" +:+ sip_remoteTag dlg));
   ("count", PNum 0);
   ("etag", PStr (generateETag env etagUuid));
   ("id", PStr (shortUuid env flickrBase58 idUuid));
   ("notifyType", PStr "sip")].

(** The name of the subscription record and the key of the
    watched-resource set of a descriptor. *)
Definition nameOf (o : jsobj) : string :=
  makeSubscriptionName (toString (prop o "subscriber"))
    (toString (prop o "resource")).

Definition watchedKeyOf (o : jsobj) : string :=
  makeSubscribedResourceKey (toString (prop o "resource")).

(** The event state [dialogGetEventState] returns for a subscription
    record [sd] of a resource whose dialog information is [info]. *)
Definition dialogStateOf (resource : prim) (sd : jsobj) (info : jsobj) : jsobj :=
  mkObj [("aor", resource);
         ("etag", prop sd "etag");
         ("eventType", PStr "dialog");
         ("contentType", PStr "application/dialog-info+xml");
         ("content", PStr (makeXmlContent sd info))].

(** The dialog information of a resource, as an object; empty when the key
    holds none. *)
Definition dialogInfoOf (s : gmap string entry) (resource : prim) : jsobj :=
  ofHash (default ∅ (liveData s (makeDialogInfoKey (toString resource)))).

(** The fields [onMessage] writes to the dialog-info record for an event
    that does not end the dialog. *)
Definition messageFields (msg : string) : list (string * string) :=
  let parts := splitSpaces "" msg in
  let localTag := undefToUndefined (item parts 3) in
  let remoteTag := undefToUndefined (item parts 4) in
  toFields
    ([("id", item parts 1); ("direction", item parts 5);
      ("state", item parts 6); ("callId", item parts 2)]
     ++ (if truthy localTag then [("localTag", localTag)] else [])
     ++ (if truthy remoteTag then [("remoteTag", remoteTag)] else []))%list.

(** *** Subscriptions outside the packages *)

(** The three keys of a subscription that no package handles: the record,
    under the random name drawn for it, and the two keys it is found by. *)
Definition subKeyOf (env : Env) (uuid : Z) : string :=
  makeSubStateKey (shortUuid env flickrBase58 uuid).

Definition keyDialogOf (o : jsobj) : string :=
  makeSubStateKeyDialog (toString (prop o "subscriber"))
    (toString (prop o "resource")) (toString (prop o "eventType"))
    (toString (prop o "callId")).

Definition keyIdOf (o : jsobj) : string :=
  makeSubStateKeyId (toString (prop o "subscriber"))
    (toString (prop o "resource")) (toString (prop o "eventType"))
    (toString (prop o "id")).

(** The keys [addSubscription] writes for a descriptor. *)
Definition subscriptionKeys (env : Env) (uuid : Z) (o : jsobj) : list string :=
  [subKeyOf env uuid; keyDialogOf o]
  ++ (if truthy (prop o "id") then [keyIdOf o] else []).

(** *** The Event header *)

(** Any character but the semicolon. *)
Definition notSemi (c : ascii) : bool := negb (Ascii.eqb c ";").

(** *** Descriptors *)

(** An object whose properties all hold strings, as the descriptor that
    [validate] builds from the headers of a request does. *)
Definition stringValued (o : jsobj) : Prop :=
  map_Forall (λ _ v, ∃ s, v = PStr s) o.

(** *** Times to live *)

(** The time to live of a key after [EXPIRE] with a positive number of
    seconds: the seconds when the server takes them, else what it was. *)
Definition ttlAfterExpire (n : Z) (old : option Z) : option Z :=
  match secondsOf (PNum n) with
  | Some m => if expireInRange m then Some m else old
  | None => old
  end.


(* ================================================================== *)
(** ** Properties *)
(* ================================================================== *)

(** *** Strings *)

Lemma append_cons c (a b : string) : String c a +:+ b = String c (a +:+ b).
Proof. reflexivity. Qed.


Lemma append_empty_r (s : string) : s +:+ "" = s.
Proof. induction s as [|c r IH]; [done | by rewrite append_cons, IH]. Qed.

Lemma length_append (a b : string) :
  String.length (a +:+ b) = (String.length a + String.length b)%nat.
Proof.
  induction a as [|c r IH]; [done|].
  rewrite append_cons. simpl. by rewrite IH.
Qed.

Lemma span_takeWhile_dropWhile p s : s = takeWhile p s +:+ dropWhile p s.
Proof.
  induction s as [|c r IH]; simpl; [done|].
  destruct (p c); [by rewrite append_cons, <- IH | done].
Qed.

Lemma forallb_takeWhile p s : forallb_str p (takeWhile p s) = true.
Proof.
  induction s as [|c r IH]; simpl; [done|].
  destruct (p c) eqn:E; simpl; [by rewrite E | done].
Qed.

Lemma takeWhile_all p a : forallb_str p a = true → takeWhile p a = a.
Proof.
  induction a as [|c r IH]; simpl; [done|].
  intros [-> H]%andb_prop. by rewrite IH.
Qed.

Lemma takeWhile_app_stop p a c r :
  forallb_str p a = true → p c = false →
  takeWhile p (a +:+ String c r) = a.
Proof.
  induction a as [|x a IH].
  - intros _ Hc. change (takeWhile p (String c r) = ""). simpl. by rewrite Hc.
  - intros [Hx H]%andb_prop Hc. rewrite append_cons. simpl.
    by rewrite Hx, IH.
Qed.

Lemma dropWhile_app_stop p a c r :
  forallb_str p a = true → p c = false →
  dropWhile p (a +:+ String c r) = String c r.
Proof.
  induction a as [|x a IH].
  - intros _ Hc. change (dropWhile p (String c r) = String c r). simpl. by rewrite Hc.
  - intros [Hx H]%andb_prop Hc. rewrite append_cons. simpl.
    by rewrite Hx, IH.
Qed.

Lemma dropWhile_all p a : forallb_str p a = true → dropWhile p a = "".
Proof.
  induction a as [|c r IH]; simpl; [done|].
  intros [-> H]%andb_prop. by rewrite IH.
Qed.

(** *** parseAor *)

Lemma matchOctets_dotted n s : matchOctets n s = true ↔ dotted n s.
Proof.
  revert s. induction n as [|n IH]; intros s; cbn -[Nat.leb String.length];
    unfold spanDigits.
  - split.
    + intros [[H1 H2]%andb_prop H%String.eqb_eq]%andb_prop.
      rewrite (span_takeWhile_dropWhile isDigit s), H, append_empty_r.
      split; [|apply forallb_takeWhile].
      apply Nat.leb_le in H1, H2. lia.
    + intros [Hl Hd].
      rewrite takeWhile_all, dropWhile_all by done.
      apply andb_true_intro; split; [|done].
      apply andb_true_intro; split; apply Nat.leb_le; lia.
  - split.
    + intros [[H1 H2]%andb_prop H3]%andb_prop.
      destruct (dropWhile isDigit s) as [|c r] eqn:E; [done|].
      destruct (Ascii.eqb_spec c ".") as [->|Hne].
      2:{ destruct c as [[] [] [] [] [] [] [] []]; done. }
      exists (takeWhile isDigit s), r. split; [|split].
      * split; [|apply forallb_takeWhile]. apply Nat.leb_le in H1, H2. lia.
      * rewrite (span_takeWhile_dropWhile isDigit s) at 1. by rewrite E.
      * by apply IH.
    + intros (a & r & [Hl Hd] & -> & Hr).
      change (a +:+ "." +:+ r) with (a +:+ String "." r).
      rewrite takeWhile_app_stop, dropWhile_app_stop by done.
      apply andb_true_intro; split.
      * apply andb_true_intro; split; apply Nat.leb_le; lia.
      * by apply IH.
Qed.

Lemma isIPv4Literal_dottedQuad host : isIPv4Literal host = true ↔ dottedQuad host.
Proof.
  unfold isIPv4Literal. rewrite matchOctets_dotted. simpl. unfold dottedQuad.
  split.
  - intros (a & r1 & Ha & -> & b & r2 & Hb & -> & c & d & Hc & -> & Hd).
    by exists a, b, c, d.
  - intros (a & b & c & d & Ha & Hb & Hc & Hd & ->).
    exists a, (b +:+ "." +:+ c +:+ "." +:+ d). split; [done|]. split; [done|].
    exists b, (c +:+ "." +:+ d). split; [done|]. split; [done|].
    by exists c, d.
Qed.

(** C10: for a URI without a user part, [parseAor] returns
    [undefined@] followed by the configured domain when the host is a
    literal IPv4 address and a domain is configured, and by the host
    otherwise; it does not throw. *)
Theorem parseAor_absent_user (env : Env) (u : string) (uri : Uri) :
  parseUri env u = Some uri →
  uri_user uri = None →
  (∀ d, config_domain env = Some d → dottedQuad (uri_host uri) →
        parseAor env u = Ok ("undefined@" +:+ d)) ∧
  (config_domain env = None ∨ ¬ dottedQuad (uri_host uri) →
        parseAor env u = Ok ("undefined@" +:+ uri_host uri)).
Proof.
  intros Hp Hu. unfold parseAor. rewrite Hp, Hu. split.
  - intros d Hd Hq. apply isIPv4Literal_dottedQuad in Hq. by rewrite Hq, Hd.
  - intros [Hd | Hq].
    + rewrite Hd. by destruct (isIPv4Literal (uri_host uri)).
    + destruct (isIPv4Literal (uri_host uri)) eqn:E; [|done].
      by apply isIPv4Literal_dottedQuad in E.
Qed.

Lemma parseAor_absent_user_witness :
  parseAor (mkEnv exampleParseUri (Some "example.com") None ["dialog"] true false)
    "sip:10.0.0.1" = Ok "undefined@example.com"
  ∧ parseAor (exampleEnv false) "sip:10.0.0.1" = Ok "undefined@10.0.0.1".
Proof.
  split.
  - apply (proj1 (parseAor_absent_user
                    (mkEnv exampleParseUri (Some "example.com") None
                       ["dialog"] true false)
                    "sip:10.0.0.1" (mkUri None "10.0.0.1") eq_refl eq_refl)
             "example.com" eq_refl).
    exists "10", "0", "0", "1". repeat split; simpl; lia.
  - apply (proj2 (parseAor_absent_user (exampleEnv false)
                    "sip:10.0.0.1" (mkUri None "10.0.0.1") eq_refl eq_refl)).
    by left.
Defined.

(** *** Store keys *)

(** C4: the key of the dialog-info record is [dlg-info:$] followed by the
    AOR, with a dollar sign that the naming convention does not have; the
    keys of the watched-resource set, of a registration and of an event
    state, and the name of the sorted index, are as the convention says.
    A dialog event for bob@example.com is stored under
    [dlg-info:$bob@example.com]. *)
Theorem dialog_info_key_has_dollar :
  (∀ aor, makeDialogInfoKey aor = "dlg-info:$" +:+ aor
          ∧ makeDialogInfoKey aor ≠ "dlg-info:" +:+ aor)
  ∧ (∀ aor event,
       makeSubscribedResourceKey aor = "watched-aor:" +:+ aor
       ∧ makeRegKey aor = "reg:" +:+ aor
       ∧ makeEventStateKey aor event = "es:" +:+ aor +:+ ":" +:+ event
       ∧ ZSET = "event_zset")
  ∧ (let w :=
       (onMessage "bob@example.com d1 call1 lt rt initiator confirmed"
          (freshWorld false)).2 in
     dom (store w) = {["dlg-info:$bob@example.com"]}
     ∧ store w !! "dlg-info:bob@example.com" = None).
Proof.
  split; [|split].
  - intros aor. split; [done|].
    unfold makeDialogInfoKey. intros H.
    apply (f_equal String.length) in H.
    rewrite !length_append in H. simpl in H. lia.
  - done.
  - split; vm_compute; reflexivity.
Qed.

(** *** Version tags *)

Lemma alphabetDigit_19 d :
  0 <= d < 9 → isDigit19 (alphabetDigit etagAlphabet d) = true.
Proof.
  intros Hd.
  assert (d = 0 ∨ d = 1 ∨ d = 2 ∨ d = 3 ∨ d = 4 ∨ d = 5 ∨ d = 6 ∨ d = 7 ∨ d = 8)
    as H by lia.
  repeat (destruct H as [-> | H]; [reflexivity|]). by subst.
Qed.

Lemma toAlphabetFrom_19 fuel n acc :
  forallb_str isDigit19 acc = true →
  forallb_str isDigit19 (toAlphabetFrom fuel etagAlphabet n acc) = true.
Proof.
  revert n acc. induction fuel as [|f IH]; intros n acc Hacc;
    cbn [toAlphabetFrom].
  - simpl. rewrite alphabetDigit_19; [done|]. apply Z.mod_pos_bound. done.
  - assert (forallb_str isDigit19
              (String (alphabetDigit etagAlphabet
                         (n `mod` Z.of_nat (String.length etagAlphabet))) acc)
            = true) as H.
    { simpl. rewrite alphabetDigit_19; [done|]. apply Z.mod_pos_bound. done. }
    destruct (_ =? 0); [done|]. by apply IH.
Qed.

Lemma toAlphabetFrom_nonempty fuel alphabet n acc :
  toAlphabetFrom fuel alphabet n acc ≠ "".
Proof.
  revert n acc. induction fuel as [|f IH]; intros n acc; cbn [toAlphabetFrom].
  - done.
  - destruct (_ =? 0); [done|]. apply IH.
Qed.

Lemma padLeft_19 c n s :
  isDigit19 c = true → forallb_str isDigit19 s = true →
  forallb_str isDigit19 (padLeft c n s) = true.
Proof. intros Hc Hs. induction n as [|n IH]; simpl; [done | by rewrite Hc]. Qed.

Lemma padLeft_nonempty c n s : s ≠ "" → padLeft c n s ≠ "".
Proof. by destruct n. Qed.

Lemma generateETag_19 env uuid :
  generateETag env uuid ≠ "" ∧
  forallb_str isDigit19 (generateETag env uuid) = true.
Proof.
  unfold generateETag, shortUuid, toAlphabet.
  destruct (consistentLength env).
  - split.
    + apply padLeft_nonempty, toAlphabetFrom_nonempty.
    + apply padLeft_19; [done|]. by apply toAlphabetFrom_19.
  - split; [apply toAlphabetFrom_nonempty | by apply toAlphabetFrom_19].
Qed.

Lemma isDigit19_isDigit c : isDigit19 c = true → isDigit c = true.
Proof.
  unfold isDigit19, isDigit. intros [H1 H2]%andb_prop.
  apply andb_true_intro. split; [|done].
  apply N.leb_le. apply N.leb_le in H1. lia.
Qed.

Lemma forallb_19_digit s :
  forallb_str isDigit19 s = true → forallb_str isDigit s = true.
Proof.
  induction s as [|c r IH]; simpl; [done|].
  intros [Hc Hr]%andb_prop. by rewrite (isDigit19_isDigit c Hc), IH.
Qed.

Lemma parseIntDigits_19 s :
  s ≠ "" → forallb_str isDigit19 s = true →
  parseIntDigits s = Some (s, decimalValue 0 s).
Proof.
  intros Hne H19. destruct s as [|c r]; [done|].
  pose proof (forallb_19_digit _ H19) as Hd.
  simpl in H19. apply andb_prop in H19 as [Hc Hr].
  assert (takeWhile isDigit (String c r) = String c r) as Ht
    by (by apply takeWhile_all).
  unfold parseIntDigits.
  assert (dropWhile isSpace (String c r) = String c r) as ->.
  { simpl. destruct c as [[] [] [] [] [] [] [] []]; done. }
  destruct c as [[] [] [] [] [] [] [] []]; try done;
    rewrite Ht; cbn [String.eqb]; by rewrite Z.mul_1_l.
Qed.

Lemma decimalValue_nonneg acc s :
  0 <= acc → forallb_str isDigit s = true → 0 <= decimalValue acc s.
Proof.
  revert acc. induction s as [|c r IH]; intros acc Hacc; simpl; [done|].
  intros [Hc Hr]%andb_prop. apply IH; [|done].
  unfold isDigit in Hc. apply andb_prop in Hc as [H1%N.leb_le H2].
  unfold digitVal. lia.
Qed.

Lemma toDouble_small v : v < 2 ^ 53 → toDouble v = v.
Proof.
  intros Hv. unfold toDouble.
  destruct (Z.leb_spec (Z.log2 v - 52) 0) as [|Hlt]; [done|].
  exfalso. destruct (Z.le_gt_cases v 0) as [Hle|Hpos].
  - rewrite Z.log2_nonpos in Hlt by done. lia.
  - assert (Z.log2 v < 53) by (apply Z.log2_lt_pow2; lia). lia.
Qed.

(** C9, as the code has it: every tag [generateETag] returns is a
    non-empty string of the digits 1 to 9; [parseInt] reads all of it,
    never yields NaN, and returns the double nearest to its decimal
    value, which is that value itself when it is below [2^53]. *)
Theorem etag_digits_and_score (env : Env) (uuid : Z) :
  let tag := generateETag env uuid in
  tag ≠ ""
  ∧ forallb_str isDigit19 tag = true
  ∧ parseIntDigits tag = Some (tag, decimalValue 0 tag)
  ∧ parseInt tag = PNum (toDouble (decimalValue 0 tag))
  ∧ (decimalValue 0 tag < 2 ^ 53 → parseInt tag = PNum (decimalValue 0 tag)).
Proof.
  intros tag. destruct (generateETag_19 env uuid) as [Hne H19]. fold tag in Hne, H19.
  assert (parseIntDigits tag = Some (tag, decimalValue 0 tag)) as Hp
    by (by apply parseIntDigits_19).
  assert (0 <= decimalValue 0 tag) as Hv
    by (apply decimalValue_nonneg; [done | by apply forallb_19_digit]).
  assert (parseInt tag = PNum (toDouble (decimalValue 0 tag))) as Hi.
  { unfold parseInt. rewrite Hp. f_equal.
    rewrite Z.abs_eq by done.
    destruct (decide (decimalValue 0 tag = 0)) as [->|Hnz]; [done|].
    rewrite Z.sgn_pos by lia. lia. }
  repeat split; try done.
  intros Hsmall. by rewrite Hi, toDouble_small.
Qed.

(** C9, as stated, fails: the tag of the UUID
    f47ac10b-58cc-4372-a567-0e02b2c3d479 has 41 digits, and [parseInt]
    of it is not its decimal value. *)
Lemma etag_score_inexact :
  let tag := generateETag (exampleEnv false) 324969006592305634633390616021200786553 in
  tag = "32817876866659187823522268944797661453179"
  ∧ generateETag (exampleEnv true) 324969006592305634633390616021200786553 = tag
  ∧ parseInt tag ≠ PNum (decimalValue 0 tag).
Proof. vm_compute. repeat split; congruence. Qed.

(** *** validate *)

Lemma has_Some req name v : header (headers req) name = Some v → has req name = true.
Proof. intros H. unfold has. rewrite H. by apply bool_decide_eq_true. Qed.

Lemma has_None req name : header (headers req) name = None → has req name = false.
Proof.
  intros H. unfold has. rewrite H. apply bool_decide_eq_false. by intros [? ?].
Qed.

Lemma digitVal_pretty_N_char m :
  (m < 10)%N → isDigit (pretty_N_char m) = true
  ∧ digitVal (pretty_N_char m) = Z.of_N m.
Proof.
  intros Hm.
  assert (m = 0 ∨ m = 1 ∨ m = 2 ∨ m = 3 ∨ m = 4 ∨ m = 5 ∨ m = 6 ∨ m = 7
          ∨ m = 8 ∨ m = 9)%N as H by lia.
  repeat (destruct H as [->|H]; [by vm_compute|]). subst. by vm_compute.
Qed.

Lemma forallb_str_app p a b :
  forallb_str p (a +:+ b) = forallb_str p a && forallb_str p b.
Proof.
  induction a as [|c r IH]; [done|].
  rewrite append_cons. simpl. by rewrite IH, andb_assoc.
Qed.

Lemma decimalValue_app acc a b :
  decimalValue acc (a +:+ b) = decimalValue (decimalValue acc a) b.
Proof.
  revert acc. induction a as [|c r IH]; intros acc; [done|].
  rewrite append_cons. simpl. by rewrite IH.
Qed.

Lemma append_assoc_str (a b c : string) : (a +:+ b) +:+ c = a +:+ (b +:+ c).
Proof.
  induction a as [|x a IH]; [done|]. by rewrite !append_cons, IH.
Qed.

(** The digits that [pretty] writes for a number denote it. *)
Lemma pretty_N_go_digits x : ∀ s,
  ∃ d, pretty_N_go x s = d +:+ s
       ∧ forallb_str isDigit d = true
       ∧ ((0 < x)%N → d ≠ "")
       ∧ ∀ acc, decimalValue acc d
                = acc * 10 ^ Z.of_nat (String.length d) + Z.of_N x.
Proof.
  induction (N.lt_wf_0 x) as [x _ IH]. intros s.
  destruct (decide (x = 0%N)) as [->|Hx].
  - exists "". rewrite pretty_N_go_0. repeat split; [lia|]. intros acc. simpl. lia.
  - rewrite pretty_N_go_step by lia.
    destruct (IH (x `div` 10)%N) with (s := String (pretty_N_char (x `mod` 10)) s)
      as (d & Hd & Hdig & _ & Hval).
    { apply N.div_lt; lia. }
    destruct (digitVal_pretty_N_char (x `mod` 10)) as [Hc Hv].
    { apply N.mod_lt. lia. }
    exists (d +:+ String (pretty_N_char (x `mod` 10)) "").
    split; [|split; [|split]].
    + rewrite Hd. by rewrite append_assoc_str.
    + rewrite forallb_str_app, Hdig. simpl. by rewrite Hc.
    + intros _. destruct d; done.
    + intros acc. rewrite decimalValue_app, Hval. simpl. rewrite Hv.
      rewrite length_append. simpl.
      rewrite Nat2Z.inj_add, Z.pow_add_r by lia.
      change (Z.of_nat 1) with 1. rewrite Z.pow_1_r.
      pose proof (N.div_mod x 10 ltac:(lia)) as Hdm.
      lia.
Qed.

Lemma pretty_N_digits (n : N) :
  pretty n ≠ "" ∧ forallb_str isDigit (pretty n) = true
  ∧ decimalValue 0 (pretty n) = Z.of_N n.
Proof.
  unfold pretty, pretty_N. destruct (decide (n = 0%N)) as [->|Hn]; [done|].
  destruct (pretty_N_go_digits n "") as (d & Hd & Hdig & Hne & Hval).
  rewrite Hd, append_empty_r. split; [apply Hne; lia|]. split; [done|].
  rewrite Hval. lia.
Qed.

Lemma parseIntDigits_digits s :
  s ≠ "" → forallb_str isDigit s = true →
  parseIntDigits s = Some (s, decimalValue 0 s).
Proof.
  intros Hne Hd. destruct s as [|c r]; [done|].
  assert (takeWhile isDigit (String c r) = String c r) as Ht
    by (by apply takeWhile_all).
  pose proof Hd as Hd'. simpl in Hd'. apply andb_prop in Hd' as [Hc Hr].
  unfold parseIntDigits.
  assert (dropWhile isSpace (String c r) = String c r) as ->.
  { simpl. destruct c as [[] [] [] [] [] [] [] []]; done. }
  destruct c as [[] [] [] [] [] [] [] []]; try done;
    try (rewrite Ht; cbn [String.eqb]; by rewrite Z.mul_1_l).
  destruct r as [|x r].
  - by vm_compute.
  - simpl in Hr. apply andb_prop in Hr as [Hx Hr].
    assert ((Ascii.eqb x "x" || Ascii.eqb x "X")%bool = false) as ->.
    { destruct x as [[] [] [] [] [] [] [] []]; done. }
    rewrite Ht. by rewrite Z.mul_1_l.
Qed.

Lemma parseInt_pretty (n : N) :
  (Z.of_N n < 2 ^ 53) → parseInt (pretty n) = PNum (Z.of_N n).
Proof.
  intros Hn. destruct (pretty_N_digits n) as (Hne & Hd & Hv).
  unfold parseInt. rewrite parseIntDigits_digits, Hv by done.
  f_equal. rewrite Z.abs_eq by lia. rewrite toDouble_small by done.
  destruct n; simpl; lia.
Qed.

Lemma findKey_elem tbl k d :
  NoDup tbl.*1 → (k, d) ∈ tbl → findKey tbl k = Some d.
Proof.
  induction tbl as [|[k' v] r IH]; intros Hnd Hin; [by apply elem_of_nil in Hin|].
  cbn [fmap list_fmap fst] in Hnd. apply NoDup_cons in Hnd as [Hk Hnd].
  apply elem_of_cons in Hin as [[= <- <-]|Hin]; cbn [findKey].
  - by rewrite String.eqb_refl.
  - destruct (String.eqb_spec k' k) as [->|Hne]; [|by apply IH].
    exfalso. apply Hk. by apply (list_elem_of_fmap_2 fst r (k, d)).
Qed.

Lemma findKey_absent tbl k : k ∉ tbl.*1 → findKey tbl k = None.
Proof.
  induction tbl as [|[k' v] r IH]; intros Hk; [done|].
  cbn [fmap list_fmap fst] in Hk. apply not_elem_of_cons in Hk as [Hne Hk].
  cbn [findKey]. destruct (String.eqb_spec k' k) as [->|_]; [done|by apply IH].
Qed.

Lemma getDefault_configuredFor env event d :
  configIsObject env → configuredFor env event d →
  getDefaultSubscriptionExpiry env (PStr event) = d.
Proof.
  intros Hobj (tbl & Ht & Hin). unfold getDefaultSubscriptionExpiry.
  rewrite Ht. by rewrite (findKey_elem tbl event d (Hobj tbl Ht) Hin).
Qed.

Lemma getDefault_notConfigured env event :
  notConfigured env event →
  getDefaultSubscriptionExpiry env (PStr event) = PNum 3600.
Proof.
  intros Hno. unfold getDefaultSubscriptionExpiry.
  unfold notConfigured in Hno.
  destruct (config_expire_default env) as [tbl|]; [|done].
  by rewrite (findKey_absent tbl event (Hno tbl eq_refl)).
Qed.

Lemma splitLast_none s : forallb_str notSemi s = true → splitLast s = None.
Proof.
  induction s as [|c r IH]; [done|]. cbn [forallb_str splitLast].
  intros [Hc Hr]%andb_prop. rewrite (IH Hr).
  unfold notSemi in Hc. by destruct (Ascii.eqb c ";").
Qed.

Lemma parseEventHeader_bare e :
  forallb_str notSemi e = true → parseEventHeader e = (e, None).
Proof.
  intros H. unfold parseEventHeader.
  destruct (existsb_str isLineTerminator e); [done|].
  by rewrite splitLast_none.
Qed.

(** C5, as the code has it: outside a dialog, on a SUBSCRIBE that carries
    a supported Event header, the computed expiry is the value of the
    Expires header when there is one, else the default configured for the
    event type, else 3600; and when it is exactly zero the handler answers
    200 and changes nothing else: no store write, no timer, no entry in
    the timer map.  Inside a dialog, for an Event header without
    parameters, the expiry is computed in the same way, and then replaced
    by 3600 when it is zero or no number. *)
Theorem subscribe_expiry (env : Env) (req : Req) (e : string) :
  header (headers req) "Event" = Some e →
  configIsObject env →
  (∀ w subscriber resource,
     (parseEventHeader e).1 ∈ supportedEvents env →
     parseAor env (from_uri req) = Ok subscriber →
     parseAor env (to_uri req) = Ok resource →
     ∃ ok req',
       (validate env VLogger req w).1 = Ok (ok, req')
       ∧ (∀ v, header (headers req) "Expires" = Some v →
               req_expiry req' = parseInt v)
       ∧ (∀ n : N, header (headers req) "Expires" = Some (pretty n) →
               Z.of_N n < 2 ^ 53 → req_expiry req' = PNum (Z.of_N n))
       ∧ (header (headers req) "Expires" = None →
          ∀ d, configuredFor env (parseEventHeader e).1 d →
               req_expiry req' = d)
       ∧ (header (headers req) "Expires" = None →
          notConfigured env (parseEventHeader e).1 →
          req_expiry req' = PNum 3600)
       ∧ (req_expiry req' = PNum 0 →
          ∃ w', onSubscribe env req w = (Ok tt, w')
                ∧ trace w' = (trace w ++ [Sent 200 []])%list
                ∧ store w' = store w
                ∧ timers w' = timers w
                ∧ dialogs w' = dialogs w))
  ∧ (forallb_str notSemi e = true →
     (parseEventHeader e).1 = e
     ∧ (∀ v, header (headers req) "Expires" = Some v →
             refreshExpiry env req = por (parseInt v) (PNum 3600))
     ∧ (header (headers req) "Expires" = None →
        ∀ d, configuredFor env e d →
             refreshExpiry env req = por d (PNum 3600))
     ∧ (header (headers req) "Expires" = None →
        notConfigured env e → refreshExpiry env req = PNum 3600)).
Proof.
  intros He Hobj. split.
  - intros w subscriber resource Hs Hfrom Hto.
    unfold onSubscribe, validate.
    rewrite (has_Some _ _ _ He), He. change (default "" (Some e)) with e.
    destruct (parseEventHeader e) as [event id] eqn:Ep. simpl in Hs. cbn iota.
    rewrite (bool_decide_eq_true_2 _ Hs). cbn [negb fst].
    remember (if has req "Expires"
              then parseInt (default "" (header (headers req) "Expires"))
              else getDefaultSubscriptionExpiry env (PStr event)) as expiry
      eqn:Ee.
    assert ((∀ v, header (headers req) "Expires" = Some v → expiry = parseInt v)
            ∧ (header (headers req) "Expires" = None →
               ∀ d, configuredFor env event d → expiry = d)
            ∧ (header (headers req) "Expires" = None →
               notConfigured env event → expiry = PNum 3600))
      as (Hx1 & Hx2 & Hx3).
    { subst expiry. split; [|split].
      - intros v Hv. by rewrite (has_Some _ _ _ Hv), Hv.
      - intros Hn d Hd. rewrite (has_None _ _ Hn).
        by apply getDefault_configuredFor.
      - intros Hn Hd. rewrite (has_None _ _ Hn).
        by apply getDefault_notConfigured. }
    clear Ee.
    unfold bind, lift. rewrite Hfrom, Hto. cbn [logInfo ret].
    destruct (strictEq (PNum 0) expiry) eqn:Ez; cbn.
    + eexists false, _. split; [reflexivity|]. cbn.
      split; [exact Hx1|]. split.
      { intros n Hv Hn. rewrite (Hx1 _ Hv). by apply parseInt_pretty. }
      split; [exact Hx2|]. split; [exact Hx3|].
      intros _. eexists. split; [reflexivity|]. done.
    + eexists true, _. split; [reflexivity|]. cbn.
      split; [exact Hx1|]. split.
      { intros n Hv Hn. rewrite (Hx1 _ Hv). by apply parseInt_pretty. }
      split; [exact Hx2|]. split; [exact Hx3|].
      intros Hz. rewrite Hz in Ez. done.
  - intros Hbare. rewrite (parseEventHeader_bare e Hbare).
    split; [done|]. unfold refreshExpiry, getHeader. rewrite He.
    split; [|split].
    + intros v Hv. by rewrite (has_Some _ _ _ Hv), Hv.
    + intros Hn d Hd. rewrite (has_None _ _ Hn).
      by rewrite (getDefault_configuredFor env e d).
    + intros Hn Hd. rewrite (has_None _ _ Hn).
      by rewrite (getDefault_notConfigured env e).
Qed.

Lemma configuredEnv_object : configIsObject configuredEnv.
Proof.
  intros tbl [= <-]. cbn [fmap list_fmap fst].
  apply NoDup_cons. split; [|apply NoDup_singleton].
  intros [=]%list_elem_of_singleton.
Defined.

Lemma configuredEnv_dialog : configuredFor configuredEnv "dialog" (PNum 0).
Proof.
  exists [("presence", PNum 1800); ("dialog", PNum 0)].
  split; [reflexivity|]. apply elem_of_cons. right. apply elem_of_cons. by left.
Defined.

Lemma exampleEnv_notConfigured pad event : notConfigured (exampleEnv pad) event.
Proof. intros tbl [=]. Defined.

Lemma exampleEnv_object pad : configIsObject (exampleEnv pad).
Proof. intros tbl [=]. Defined.

Lemma subscribe_expiry_witness :
  (∃ ok req',
     (validate configuredEnv VLogger bareRequest (freshWorld false)).1
     = Ok (ok, req')
     ∧ req_expiry req' = PNum 0
     ∧ ∃ w', onSubscribe configuredEnv bareRequest (freshWorld false)
             = (Ok tt, w')
             ∧ trace w' = [Sent 200 []]
             ∧ store w' = ∅ ∧ timers w' = ∅ ∧ dialogs w' = ∅)
  ∧ refreshExpiry configuredEnv bareRequest = PNum 3600
  ∧ (∃ ok req',
       (validate (exampleEnv false) VLogger bareRequest (freshWorld false)).1
       = Ok (ok, req')
       ∧ req_expiry req' = PNum 3600)
  ∧ (∃ ok req',
       (validate (exampleEnv false) VLogger (exampleRequest "1800")
          (freshWorld false)).1 = Ok (ok, req')
       ∧ req_expiry req' = PNum 1800).
Proof.
  destruct (subscribe_expiry configuredEnv bareRequest "dialog" eq_refl
              configuredEnv_object) as [Hout Hin].
  destruct (Hout (freshWorld false) "alice@example.com" "bob@example.com")
    as (ok & req' & Hv & _ & _ & Hd & _ & Hz).
  { vm_compute. set_solver. }
  { reflexivity. }
  { reflexivity. }
  destruct (Hin eq_refl) as (_ & _ & Hr & _).
  destruct (subscribe_expiry (exampleEnv false) bareRequest "dialog" eq_refl
              (exampleEnv_object false)) as [Hout1 _].
  destruct (Hout1 (freshWorld false) "alice@example.com" "bob@example.com")
    as (ok1 & req1 & Hv1 & _ & _ & _ & Hn1 & _).
  { vm_compute. set_solver. }
  { reflexivity. }
  { reflexivity. }
  destruct (subscribe_expiry (exampleEnv false) (exampleRequest "1800") "dialog"
              eq_refl (exampleEnv_object false)) as [Hout2 _].
  destruct (Hout2 (freshWorld false) "alice@example.com" "bob@example.com")
    as (ok2 & req2 & Hv2 & _ & Hp2 & _).
  { vm_compute. set_solver. }
  { reflexivity. }
  { reflexivity. }
  split; [|split; [|split]].
  - exists ok, req'. split; [exact Hv|].
    pose proof (Hd eq_refl (PNum 0) configuredEnv_dialog) as He.
    split; [exact He|]. exact (Hz He).
  - exact (Hr eq_refl (PNum 0) configuredEnv_dialog).
  - exists ok1, req1. split; [exact Hv1|].
    exact (Hn1 eq_refl (exampleEnv_notConfigured false "dialog")).
  - exists ok2, req2. split; [exact Hv2|].
    exact (Hp2 1800%N eq_refl eq_refl).
Defined.

(** C5, as stated, fails inside a dialog: on a SUBSCRIBE for [dialog]
    without an Expires header, where the default configured for [dialog]
    is zero, the expiry that [refresh] computes is 3600; and so it is for
    [Expires: 0]. *)
Lemma refresh_expiry_guard :
  header (headers bareRequest) "Expires" = None
  ∧ configuredFor configuredEnv "dialog" (PNum 0)
  ∧ refreshExpiry configuredEnv bareRequest = PNum 3600
  ∧ refreshExpiry configuredEnv bareRequest ≠ PNum 0
  ∧ header (headers (exampleRequest "0")) "Expires" = Some "0"
  ∧ refreshExpiry (exampleEnv false) (exampleRequest "0") = PNum 3600.
Proof.
  split; [reflexivity|]. split; [exact configuredEnv_dialog|].
  repeat apply conj; vm_compute; (reflexivity || discriminate).
Qed.

(** *** The timer map *)

Lemma partitionM_sublist {A} (p : A → result bool) l yes no :
  partitionM p l = Ok (yes, no) →
  no `sublist_of` l ∧ (length yes + length no = length l)%nat.
Proof.
  revert yes no. induction l as [|x r IH]; intros yes no; simpl.
  - intros [= <- <-]. split; [constructor | done].
  - destruct (p x) as [b|]; [|done].
    destruct (partitionM p r) as [[y n]|]; [|done].
    destruct (IH y n eq_refl) as [Hs Hl].
    destruct b; intros [= <- <-]; simpl.
    + split; [by constructor | lia].
    + split; [by constructor | lia].
Qed.

(** What a call of [clearSubscriptionTimer] that returns has done to the
    timer map. *)
Lemma clearSubscriptionTimer_returns logger db dlg subscription andCancel w w' :
  clearSubscriptionTimer logger db dlg subscription andCancel w = (Ok tt, w') →
  ∃ id l one kept,
    getProp dlg "id" = Ok id
    ∧ dialogs w !! id = Some l
    ∧ partitionM (sameEventType subscription) l = Ok ([one], kept)
    ∧ dialogs w' = (if decide (kept = []) then delete id (dialogs w)
                    else <[id := kept]> (dialogs w)).
Proof.
  unfold clearSubscriptionTimer, bind, lift, getWorld, throw, ret, modify.
  destruct (getProp dlg "id") as [id|] eqn:Eid; [|done].
  destruct (dialogs w !! id) as [[|b l]|] eqn:El; cbn -[partitionM]; try done.
  destruct (partitionM (sameEventType subscription) (b :: l))
    as [[removed kept]|] eqn:Ep; [|done].
  cbn -[partitionM]. destruct removed as [|one [|]]; cbn -[partitionM]; try done.
  intros H. exists id, (b :: l), one, kept. repeat split; try done.
  revert H.
  destruct (match andCancel with VPrim p => truthy p | _ => true end);
    cbn -[partitionM];
    rewrite lookup_insert_eq; destruct kept as [|k ks]; cbn -[partitionM];
    intros [= <-]; cbn -[partitionM]; try done; by rewrite delete_insert_eq.
Qed.

Lemma startSubscriptionTimer_returns logger db dlg subscription expiry w w' :
  startSubscriptionTimer logger db dlg subscription expiry w = (Ok tt, w') →
  ∃ id,
    getProp dlg "id" = Ok id
    ∧ dialogs w' =
        <[id := (default [] (dialogs w !! id)
                 ++ [mkBinding subscription (nextTimer w)])%list]> (dialogs w)
    ∧ timers w' = <[nextTimer w :=
                      mkTimerCb logger db dlg subscription (times1000 expiry)]>
                    (timers w).
Proof.
  unfold startSubscriptionTimer, bind, lift, getWorld. cbn.
  destruct (getProp dlg "id") as [id|] eqn:Eid; [|done].
  cbn. intros [= <-]. by exists id.
Qed.

(** What the two functions keep of the timer map: a call of
    [clearSubscriptionTimer] that
    returns keeps every list of the timer map non-empty and with at most
    one pair per event type, and deletes the entry of a dialog whose last
    pair it removes; a call of [startSubscriptionTimer] keeps every list
    non-empty, and keeps at most one pair per event type when the dialog
    holds no pair of the subscription's event type. *)
Lemma timer_map_invariant (logger db dlg subscription andCancel : jsval)
    (expiry : prim) (w w' : World) :
  timerMapOk (dialogs w) →
  (clearSubscriptionTimer logger db dlg subscription andCancel w = (Ok tt, w') →
     timerMapOk (dialogs w')
     ∧ (∀ id b, getProp dlg "id" = Ok id → dialogs w !! id = Some [b] →
                dialogs w' !! id = None))
  ∧ (startSubscriptionTimer logger db dlg subscription expiry w = (Ok tt, w') →
     (∀ id l, dialogs w' !! id = Some l → l ≠ [])
     ∧ ((∀ id l, getProp dlg "id" = Ok id → dialogs w !! id = Some l →
                 getProp subscription "eventType" ∉ eventTypeOf <$> l) →
        timerMapOk (dialogs w'))).
Proof.
  intros Hok. split.
  - intros (id & l & one & kept & Hid & Hl & Hp & Hd)%clearSubscriptionTimer_returns.
    destruct (partitionM_sublist _ _ _ _ Hp) as [Hsub Hlen].
    destruct (Hok id l Hl) as [Hne Hnd].
    split.
    + intros id' l' Hl'. rewrite Hd in Hl'.
      destruct (decide (kept = [])) as [->|Hk].
      * apply lookup_delete_Some in Hl' as [_ Hl']. by apply Hok in Hl'.
      * apply lookup_insert_Some in Hl' as [[<- <-]|[_ Hl']].
        -- split; [done|].
           eapply sublist_NoDup; [exact Hnd | by apply fmap_sublist].
        -- by apply Hok in Hl'.
    + intros id' b Hid' Hb. rewrite Hid in Hid'. injection Hid' as <-.
      rewrite Hl in Hb. injection Hb as ->.
      simpl in Hlen. assert (kept = []) as -> by (destruct kept; simpl in *; [done|lia]).
      rewrite Hd. simpl. apply lookup_delete_eq.
  - intros (id & Hid & Hd & _)%startSubscriptionTimer_returns. split.
    + intros id' l' Hl'. rewrite Hd in Hl'.
      apply lookup_insert_Some in Hl' as [[<- <-]|[_ Hl']].
      * intros H. apply app_eq_nil in H as [_ H]. discriminate.
      * by destruct (Hok _ _ Hl').
    + intros Hfresh id' l' Hl'. rewrite Hd in Hl'.
      apply lookup_insert_Some in Hl' as [[<- <-]|[_ Hl']]; [|by apply Hok in Hl'].
      split; [intros H; apply app_eq_nil in H as [_ H]; discriminate|].
      rewrite fmap_app. simpl.
      destruct (dialogs w !! id) as [l|] eqn:El; simpl.
      * apply NoDup_app. split; [by apply (Hok id l El)|]. split.
        -- intros x Hx [->|[]%elem_of_nil]%elem_of_cons.
           by apply (Hfresh id l Hid El).
        -- apply NoDup_singleton.
      * apply NoDup_singleton.
Qed.

Lemma timerMapOk_empty : timerMapOk ∅.
Proof. intros id l Hl. by rewrite lookup_empty in Hl. Defined.

Lemma timer_map_invariant_witness :
  let sub := VObj (mkObj [("eventType", PStr "dialog")]) in
  let w1 :=
    (startSubscriptionTimer VLogger VDb (VDlg exampleDialog) sub (PNum 3600)
       (freshWorld false)).2 in
  let w2 :=
    (clearSubscriptionTimer VLogger VDb (VDlg exampleDialog) sub
       (VPrim (PBool true)) w1).2 in
  timerMapOk (dialogs w1)
  ∧ timerMapOk (dialogs w2)
  ∧ dialogs w2 !! PStr "call1;from-tag=ft1" = None.
Proof.
  intros sub w1 w2.
  assert (timerMapOk (dialogs (freshWorld false))) as H0
    by exact timerMapOk_empty.
  assert (timerMapOk (dialogs w1)) as H1.
  { apply (proj2 (timer_map_invariant VLogger VDb (VDlg exampleDialog) sub
                    VUndef (PNum 3600) (freshWorld false) w1 H0));
      [reflexivity|].
    intros id l _ Hl. cbn in Hl. by rewrite lookup_empty in Hl. }
  destruct (proj1 (timer_map_invariant VLogger VDb (VDlg exampleDialog) sub
                     (VPrim (PBool true)) (PNum 3600) w1 w2 H1))
    as [H2 Hdel]; [by vm_compute|].
  split; [exact H1|]. split; [exact H2|].
  apply (Hdel (PStr "call1;from-tag=ft1") (mkBinding sub 0)); by vm_compute.
Defined.

(** C8, on the code: [startSubscriptionTimer] enters a pair without
    looking at the list.  After two SUBSCRIBEs outside a dialog with the
    same Call-ID and From tag, which make up the id of the dialog, the
    list of the dialog holds two pairs that [clearSubscriptionTimer] takes
    for one event type.  The next SUBSCRIBE inside the dialog is answered
    480: [clearSubscriptionTimer] pulls both pairs out of the list and
    fails its own assertion, so that the empty list stays in the map and
    both timers stay armed. *)
Theorem repeated_dialog_id_two_pairs (nullThrows : bool) :
  let env := exampleEnv false in
  let id := PStr (dlg_id exampleDialog) in
  let w1 := (onSubscribe env (exampleRequest "3600") (freshWorld nullThrows)).2 in
  let w2 := (onSubscribe env (exampleRequest "3600") w1).2 in
  let r := onDialogSubscribe env (exampleRequest "1800") w2 in
  dlg_id exampleDialog
  = sip_callId exampleDialog +:+ ";from-tag=" +:+ sip_remoteTag exampleDialog
  ∧ timerMapOk (dialogs w1)
  ∧ statuses (trace w2) = []
  ∧ length (notifies "active" (trace w2)) = 2%nat
  ∧ b_timer <$> default [] (dialogs w2 !! id) = [0%nat; 1%nat]
  ∧ eventTypeOf <$> default [] (dialogs w2 !! id) = [Ok PUndef; Ok PUndef]
  ∧ ¬ timerMapOk (dialogs w2)
  ∧ r.1 = Ok tt
  ∧ statuses (trace r.2) = [480]
  ∧ dialogs r.2 !! id = Some []
  ∧ timers r.2 = timers w2
  ∧ size (timers w2) = 2%nat.
Proof.
  intros env id w1 w2 r.
  split; [reflexivity|].
  split.
  { apply (bool_decide_unpack (timerMapOk (dialogs w1))).
    (destruct nullThrows; vm_compute; exact I). }
  split; [(destruct nullThrows; vm_compute; reflexivity)|].
  split; [(destruct nullThrows; vm_compute; reflexivity)|].
  split; [(destruct nullThrows; vm_compute; reflexivity)|].
  split; [(destruct nullThrows; vm_compute; reflexivity)|].
  split.
  { apply (bool_decide_unpack (¬ timerMapOk (dialogs w2))).
    (destruct nullThrows; vm_compute; exact I). }
  (destruct nullThrows; repeat apply conj; vm_compute; reflexivity).
Qed.

(** *** purgeExpired *)

Lemma setStore_id w : setStore (λ _, store w) w = w.
Proof. by destruct w. Qed.

Lemma setStore_setStore f g w :
  setStore f (setStore g w) = setStore (λ s, f (g s)) w.
Proof. by destruct w. Qed.

Lemma purgeOne_run n k w :
  faults w = [] →
  purgeOne n k w
  = (Ok (purgeCount (store w) k n), setStore (λ _, purgeStep (store w) k) w).
Proof.
  intros Hf.
  unfold purgeOne, tryCatch, bind, hgetallAsync, roundTrip, purgeCount, purgeStep.
  rewrite Hf. unfold hgetall.
  destruct (store w !! k) as [[[] t]|] eqn:Ek; cbn -[apply];
    try by rewrite setStore_id.
  unfold detached, command, roundTrip. rewrite Hf. cbn -[apply].
  destruct (apply (ZREM ZSET k) (store w)) as [s'|] eqn:Ea; cbn; [done|].
  by rewrite setStore_id.
Qed.

Lemma purgeLoop_run l : ∀ n w,
  faults w = [] →
  purgeLoop n l w
  = (Ok (purgePure (store w) l n).1,
     setStore (λ _, (purgePure (store w) l n).2) w).
Proof.
  induction l as [|k r IH]; intros n w Hf; simpl.
  - by rewrite setStore_id.
  - unfold bind. rewrite purgeOne_run by done.
    rewrite IH by (by destruct w). cbn.
    by rewrite setStore_setStore.
Qed.

Lemma indexAt_nonempty s z k :
  indexAt s = Some z → is_Some (z !! k) →
  ∃ t, s !! ZSET = Some (mkEntry (RZset z) t).
Proof.
  unfold indexAt. intros Hi [v Hv].
  destruct (s !! ZSET) as [[[] t]|]; try done.
  - injection Hi as ->. by exists t.
  - injection Hi as <-. by rewrite lookup_empty in Hv.
Qed.

Lemma purgeStep_spec s z k :
  indexAt s = Some z → is_Some (z !! k) →
  indexAt (purgeStep s k)
    = Some (if decide (is_Some (s !! k)) then z else delete k z)
  ∧ (∀ j, j ≠ ZSET → purgeStep s k !! j = s !! j).
Proof.
  intros Hi Hk. destruct (indexAt_nonempty _ _ _ Hi Hk) as [t Ht].
  unfold purgeStep. destruct (s !! k) as [e|] eqn:Ek.
  - rewrite decide_True by done. done.
  - rewrite decide_False by (by intros [? ?]).
    unfold apply. rewrite Ht. cbn.
    destruct (decide (delete k z = ∅)) as [He|Hne]; cbn.
    + split.
      * unfold indexAt. by rewrite lookup_delete_eq, He.
      * intros j Hj. by rewrite lookup_delete_ne.
    + split.
      * unfold indexAt. by rewrite lookup_insert_eq.
      * intros j Hj. by rewrite lookup_insert_ne.
Qed.

Lemma purgePure_spec l : ∀ s z n,
  indexAt s = Some z → NoDup l → (∀ k, k ∈ l → is_Some (z !! k)) →
  indexAt (purgePure s l n).2
    = Some (filter (λ kv, kv.1 ∉ l ∨ is_Some (s !! kv.1)) z)
  ∧ (∀ j, j ≠ ZSET → (purgePure s l n).2 !! j = s !! j)
  ∧ (purgePure s l n).1
      + Z.of_nat (size (filter (λ kv : string * Z,
                                  kv.1 ∉ l ∨ is_Some (s !! kv.1)) z))
    = n + Z.of_nat (size z).
Proof.
  induction l as [|k r IH]; intros s z n Hi Hnd Hin; cbn [purgePure].
  - rewrite map_filter_id; [done|].
    intros i x _. left. apply not_elem_of_nil.
  - apply NoDup_cons in Hnd as [Hk Hnd].
    assert (is_Some (z !! k)) as Hzk by (apply Hin; by left).
    destruct (purgeStep_spec s z k Hi Hzk) as [Hi1 Hfr1].
    destruct (indexAt_nonempty _ _ _ Hi Hzk) as [t Ht].
    set (z1 := if decide (is_Some (s !! k)) then z else delete k z) in *.
    assert (∀ j, j ∈ r → is_Some (z1 !! j)) as Hin1.
    { intros j Hj. subst z1. destruct (decide (is_Some (s !! k))).
      - apply Hin. by right.
      - rewrite lookup_delete_ne by (intros ->; done). apply Hin. by right. }
    destruct (IH (purgeStep s k) z1 (purgeCount s k n) Hi1 Hnd Hin1)
      as (Hidx & Hfr & Hcnt).
    assert (∀ j v, z1 !! j = Some v →
              (is_Some (purgeStep s k !! j) ↔ is_Some (s !! j))) as Hlive.
    { intros j v Hj. destruct (decide (j = ZSET)) as [Hje|Hne].
      - destruct (indexAt_nonempty _ _ j Hi1 (mk_is_Some _ _ Hj)) as [t1 Ht1].
        subst j. rewrite Ht1, Ht. split; by eexists.
      - by rewrite Hfr1. }
    assert (filter (λ kv : string * Z,
                      kv.1 ∉ r ∨ is_Some (purgeStep s k !! kv.1)) z1
            = filter (λ kv : string * Z,
                        kv.1 ∉ k :: r ∨ is_Some (s !! kv.1)) z) as Heq.
    { apply map_eq. intros j. apply option_eq. intros v.
      rewrite !map_lookup_filter_Some. simpl. subst z1.
      destruct (decide (is_Some (s !! k))) as [Hs|Hs].
      - split.
        + intros [Hj Hp]. split; [done|].
          destruct Hp as [Hp|Hp].
          * destruct (decide (j = k)) as [->|Hjk]; [by right|].
            left. rewrite not_elem_of_cons. done.
          * right. by apply (Hlive j v).
        + intros [Hj Hp]. split; [done|].
          destruct Hp as [Hp|Hp].
          * left. rewrite not_elem_of_cons in Hp. tauto.
          * right. by apply (Hlive j v).
      - split.
        + intros [Hj Hp]. apply lookup_delete_Some in Hj as Hj'.
          destruct Hj' as [Hjk Hj']. split; [done|].
          destruct Hp as [Hp|Hp].
          * left. rewrite not_elem_of_cons. done.
          * right. by apply (Hlive j v).
        + intros [Hj Hp].
          assert (j ≠ k) as Hjk.
          { intros ->. destruct Hp as [Hp|Hp]; [|done].
            apply Hp. by left. }
          assert (delete k z !! j = Some v) as Hj'
            by (by rewrite lookup_delete_ne).
          split; [done|].
          destruct Hp as [Hp|Hp].
          * left. rewrite not_elem_of_cons in Hp. tauto.
          * right. by apply (Hlive j v). }
    rewrite Heq in Hidx, Hcnt. split; [done|]. split.
    + intros j Hj. by rewrite Hfr, Hfr1.
    + rewrite Hcnt. unfold purgeCount. subst z1.
      destruct (s !! k) as [e|] eqn:Ek.
      * by rewrite decide_True.
      * rewrite decide_False by (by intros [? ?]).
        destruct Hzk as [v Hv].
        rewrite map_size_delete_Some by done.
        assert (size z ≠ 0%nat) as Hsz.
        { intros ->%map_size_empty_inv. by rewrite lookup_empty in Hv. }
        lia.
Qed.

Lemma zrange_members (z : gmap string Z) :
  let l := (merge_sort zle (map_to_list z)).*1 in
  NoDup l ∧ ∀ k, k ∈ l ↔ is_Some (z !! k).
Proof.
  intros l.
  assert (l ≡ₚ (map_to_list z).*1) as Hp
    by (subst l; by rewrite merge_sort_Permutation).
  split.
  - rewrite Hp. apply NoDup_fst_map_to_list.
  - intros k. rewrite Hp, list_elem_of_fmap. split.
    + intros [[k' v] [-> Hin]]. apply elem_of_map_to_list in Hin. by exists v.
    + intros [v Hv]. exists (k, v). split; [done|].
      by apply elem_of_map_to_list.
Qed.

(** C7: whatever the sorted index holds, [purgeExpired] (the store
    answering) removes from it exactly the members whose key is absent
    from the store, leaves every other member with its score, touches no
    other key, and returns the number of members it removed. *)
Theorem purgeExpired_removes_stale (w : World) (z : gmap string Z) :
  faults w = [] →
  indexAt (store w) = Some z →
  ∃ n w',
    purgeExpired w = (Ok n, w')
    ∧ indexAt (store w')
      = Some (filter (λ kv : string * Z, is_Some (store w !! kv.1)) z)
    ∧ (∀ k, k ≠ ZSET → store w' !! k = store w !! k)
    ∧ n = Z.of_nat (size z)
          - Z.of_nat (size (filter (λ kv : string * Z,
                                      is_Some (store w !! kv.1)) z)).
Proof.
  intros Hf Hi.
  assert (∃ l, zrangeAll (store w) ZSET = Ok l ∧ NoDup l
               ∧ ∀ k, k ∈ l ↔ is_Some (z !! k)) as (l & Hl & Hnd & Hin).
  { unfold zrangeAll. unfold indexAt in Hi.
    destruct (store w !! ZSET) as [[[] t]|]; try done.
    - injection Hi as ->. eexists. split; [done|]. apply zrange_members.
    - injection Hi as <-. exists []. split; [done|]. split; [constructor|].
      intros k. rewrite lookup_empty. split; [by intros ?%elem_of_nil|].
      by intros [? ?]. }
  unfold purgeExpired, bind, zrangebyscoreAllAsync, roundTrip.
  rewrite Hf, Hl, purgeLoop_run by done.
  destruct (purgePure_spec l (store w) z 0 Hi Hnd (λ k, proj1 (Hin k)))
    as (Hidx & Hfr & Hcnt).
  assert (filter (λ kv : string * Z, kv.1 ∉ l ∨ is_Some (store w !! kv.1)) z
          = filter (λ kv : string * Z, is_Some (store w !! kv.1)) z) as Heq.
  { apply map_filter_ext. intros k v Hk. simpl. split; [|by right].
    intros [Hn|H]; [|done]. exfalso. apply Hn, Hin. by exists v. }
  rewrite Heq in Hidx, Hcnt.
  eexists _, _. split; [reflexivity|]. cbn.
  split; [done|]. split; [done|]. lia.
Qed.

Lemma purgeExpired_removes_stale_witness :
  ∃ n w',
    purgeExpired purgeWorld = (Ok n, w')
    ∧ indexAt (store w')
      = Some (filter (λ kv : string * Z, is_Some (store purgeWorld !! kv.1))
                purgeIndex)
    ∧ (∀ k, k ≠ ZSET → store w' !! k = store purgeWorld !! k)
    ∧ n = Z.of_nat (size purgeIndex)
          - Z.of_nat (size (filter (λ kv : string * Z,
                                      is_Some (store purgeWorld !! kv.1))
                              purgeIndex)).
Proof.
  apply (purgeExpired_removes_stale purgeWorld purgeIndex eq_refl).
  vm_compute. reflexivity.
Defined.

(** Of three index entries, the two without a record are removed. *)
Example purge_run :
  (purgeExpired purgeWorld).1 = Ok 2
  ∧ indexAt (store (purgeExpired purgeWorld).2) = Some {[ "es:b@x:dialog" := 12 ]}.
Proof. split; vm_compute; reflexivity. Qed.

(** *** The fan-out of a dialog event *)

Lemma setNet_id w : setNet (net w) w = w.
Proof. by destruct w. Qed.

Lemma notifyWatcher_run key info m w :
  faults w = [] →
  notifyWatcher key info m w = (Ok tt, watcherStep key info w m).
Proof.
  intros Hf.
  unfold notifyWatcher, watcherStep, tryCatch, bind, hgetallAsync, roundTrip.
  rewrite Hf. unfold hgetall.
  destruct (store w !! m) as [[[] t]|] eqn:Em; cbn -[apply makeXmlContent];
    try done.
  - unfold srfRequest, bind, nextNet, notification.
    destruct (net w) as [|[|st] r] eqn:En; cbn -[makeXmlContent];
      rewrite ?En; try done.
    by rewrite <- En, setNet_id.
  - unfold detached, command, roundTrip, setStore. rewrite Hf. cbn -[apply].
    destruct (apply (SREM key m) (store w)) as [s'|] eqn:Ea; cbn;
      try done; destruct w; cbn in *; by subst.
Qed.

Lemma watcherStep_faults key info w m :
  faults (watcherStep key info w m) = faults w.
Proof.
  unfold watcherStep. by destruct (store w !! m) as [[[] t]|]; destruct w.
Qed.

Lemma forEach_run key info l : ∀ w,
  faults w = [] →
  forEach (notifyWatcher key info) l w
  = (Ok tt, foldl (watcherStep key info) w l).
Proof.
  induction l as [|m r IH]; intros w Hf; simpl; [done|].
  unfold bind. rewrite notifyWatcher_run by done.
  apply IH. by rewrite watcherStep_faults.
Qed.

Lemma setAt_member s key m :
  m ∈ setAt s key → ∃ ms t, s !! key = Some (mkEntry (RSet ms) t) ∧ m ∈ ms.
Proof.
  unfold setAt. destruct (s !! key) as [[[] t]|]; set_solver.
Qed.

Lemma watcherStep_spec key info w m :
  m ∈ setAt (store w) key →
  let w' := watcherStep key info w m in
  setAt (store w') key
    = (if decide (is_Some (store w !! m)) then setAt (store w) key
       else setAt (store w) key ∖ {[m]})
  ∧ (∀ j, j ≠ key → store w' !! j = store w !! j)
  ∧ trace w' = (trace w
                ++ notifications info (net w)
                     (option_list (liveData (store w) m)))%list
  ∧ net w' = drop (length (option_list (liveData (store w) m))) (net w).
Proof.
  intros Hm. destruct (setAt_member _ _ _ Hm) as (ms & t & Hk & Hms).
  unfold watcherStep, liveData.
  destruct (store w !! m) as [[[] tm]|] eqn:Em; cbn -[apply].
  1-4: rewrite decide_True by done; rewrite ?app_nil_r;
       repeat split; try done; by destruct (net w).
  rewrite decide_False by (by intros [? ?]). rewrite app_nil_r.
  unfold apply. rewrite Hk. cbn.
  unfold setAt at 2. rewrite Hk.
  destruct (decide (ms ∖ {[m]} = ∅)) as [He|Hne]; cbn.
  - repeat split; try done.
    + unfold setAt. by rewrite lookup_delete_eq, He.
    + intros j Hj. by rewrite lookup_delete_ne.
  - repeat split; try done.
    + unfold setAt. by rewrite lookup_insert_eq.
    + intros j Hj. by rewrite lookup_insert_ne.
Qed.

Lemma same_class s s' key x :
  x ∈ setAt s key → x ∈ setAt s' key →
  (∀ j, j ≠ key → s' !! j = s !! j) →
  liveData s' x = liveData s x ∧ (is_Some (s' !! x) ↔ is_Some (s !! x)).
Proof.
  intros (ms & t & Hk & _)%setAt_member (ms' & t' & Hk' & _)%setAt_member Hfr.
  destruct (decide (x = key)) as [->|Hne].
  - unfold liveData. rewrite Hk, Hk'. split; [done|]. split; by eexists.
  - unfold liveData. by rewrite Hfr.
Qed.

Lemma omap_ext_in {A B} (f g : A → option B) (l : list A) :
  (∀ x, x ∈ l → f x = g x) → omap f l = omap g l.
Proof.
  induction l as [|a r IH]; intros H; simpl; [done|].
  rewrite (H a) by (by left).
  destruct (g a); [f_equal|]; apply IH; intros x Hx; apply H; by right.
Qed.

Lemma omap_cons_app {A B} (f : A → option B) (x : A) (l : list A) :
  omap f (x :: l) = (option_list (f x) ++ omap f l)%list.
Proof. simpl. by destruct (f x). Qed.

Lemma notifications_app info outcomes a b :
  notifications info outcomes (a ++ b)
  = (notifications info outcomes a
     ++ notifications info (drop (length a) outcomes) b)%list.
Proof.
  revert outcomes. induction a as [|h r IH]; intros outcomes.
  - done.
  - cbn [app notifications length]. rewrite IH.
    destruct outcomes; simpl; by rewrite ?drop_nil.
Qed.

Lemma watcherFold_spec key info l : ∀ w,
  NoDup l → (∀ m, m ∈ l → m ∈ setAt (store w) key) →
  let w' := foldl (watcherStep key info) w l in
  setAt (store w') key
    = filter (λ m, m ∉ l ∨ is_Some (store w !! m)) (setAt (store w) key)
  ∧ (∀ j, j ≠ key → store w' !! j = store w !! j)
  ∧ trace w' = (trace w
                ++ notifications info (net w) (omap (liveData (store w)) l))%list.
Proof.
  induction l as [|m r IH]; intros w Hnd Hin; cbn [foldl].
  - split; [|split; [done|]].
    + apply set_eq. intros x. rewrite elem_of_filter.
      split; [|tauto]. intros Hx. split; [|done]. left. apply not_elem_of_nil.
    + simpl. by rewrite app_nil_r.
  - apply NoDup_cons in Hnd as [Hm Hnd].
    assert (m ∈ setAt (store w) key) as HmS by (apply Hin; by left).
    destruct (watcherStep_spec key info w m HmS) as (Hs1 & Hfr1 & Htr1 & Hnet1).
    set (w1 := watcherStep key info w m) in *.
    assert (∀ x, x ∈ r → x ∈ setAt (store w1) key) as Hin1.
    { intros x Hx. rewrite Hs1.
      assert (x ∈ setAt (store w) key) by (apply Hin; by right).
      assert (x ≠ m) by (by intros ->).
      clear -Hs1 H H0.
      destruct (decide (is_Some (store w !! m))); set_solver. }
    destruct (IH w1 Hnd Hin1) as (Hs & Hfr & Htr).
    split; [|split].
    + rewrite Hs. apply set_eq. intros x. rewrite !elem_of_filter.
      destruct (decide (x = m)) as [->|Hxm].
      * rewrite Hs1. destruct (decide (is_Some (store w !! m))) as [Hl|Hl].
        -- split; [|intros [_ ?]; split; [by left | done]].
           intros [_ ?]. split; [by right | done].
        -- split; [clear; set_solver|]. intros [[Hc|Hc] _]; [|done].
           exfalso. apply Hc. by left.
      * assert (x ∈ setAt (store w1) key ↔ x ∈ setAt (store w) key) as Hmem.
        { rewrite Hs1. clear -Hxm.
          destruct (decide (is_Some (store w !! m))); set_solver. }
        rewrite Hmem. split.
        -- intros [[Hc|Hc] Hx]; (split; [|done]).
           ++ left. rewrite not_elem_of_cons. done.
           ++ right. by apply (same_class _ _ key x Hx (proj2 Hmem Hx) Hfr1).
        -- intros [[Hc|Hc] Hx]; (split; [|done]).
           ++ left. rewrite not_elem_of_cons in Hc. tauto.
           ++ right. by apply (same_class _ _ key x Hx (proj2 Hmem Hx) Hfr1).
    + intros j Hj. by rewrite Hfr, Hfr1.
    + rewrite Htr, Htr1, Hnet1, <- app_assoc. f_equal.
      rewrite omap_cons_app, notifications_app. f_equal. f_equal.
      apply omap_ext_in. intros x Hx.
      apply (same_class _ _ key x); [|by apply Hin1|done].
      apply Hin. by right.
Qed.

Lemma watched_key_not_info_key a :
  makeSubscribedResourceKey a ≠ makeDialogInfoKey a.
Proof. unfold makeSubscribedResourceKey, makeDialogInfoKey. by cbn. Qed.












(** The two live watchers are each sent one NOTIFY, the first rejected and
    the second answered 481, and the expired one is pruned. *)
Example fanout_run :
  let w' := (onMessage fanoutMessage fanoutWorld).2 in
  (λ o, match o with
        | SrfRequest d _ _ _ out => Some (d, out)
        | _ => None
        end) <$> trace w'
  = [Some (PStr "call1;from-tag=ft1", NetReject);
     Some (PStr "call3;from-tag=ft3", NetStatus 481)]
  ∧ elements (setAt (store w') "watched-aor:bob@example.com")
    = ["dlg-sub:alice@example.com-bob@example.com";
       "dlg-sub:dave@example.com-bob@example.com"].
Proof. split; vm_compute; reflexivity. Qed.

(** *** Refresh, termination and failure, run *)

(** C1, on the code: after an initial SUBSCRIBE with [Expires: 3600], a
    SUBSCRIBE with [Expires: 1800] inside the dialog is answered 480 and
    not 202; no further NOTIFY is sent, no timer is armed and the dialog
    leaves the timer map, and the subscription record written by the
    initial SUBSCRIBE stays in the store with its time to live of 3600. *)
Theorem refresh_answers_480 (nullThrows : bool) :
  let env := exampleEnv false in
  let w1 := subscribedWorld false nullThrows in
  let r := onDialogSubscribe env (exampleRequest "1800") w1 in
  r.1 = Ok tt
  ∧ statuses (trace r.2) = [480]
  ∧ length (notifies "active" (trace w1)) = 1%nat
  ∧ length (notifies "active" (trace r.2)) = 1%nat
  ∧ timers w1 ≠ ∅ ∧ timers r.2 = ∅
  ∧ dialogs r.2 = ∅
  ∧ ttlOf (store r.2) "dlg-sub:alice@example.com-bob@example.com" = Some 3600.
Proof.
  destruct nullThrows; repeat apply conj; vm_compute;
    (reflexivity || discriminate).
Qed.

(** C2, on the code: after an initial SUBSCRIBE, an unsubscribe inside the
    dialog sends one NOTIFY with Subscription-State terminated and no
    body, and then fails: the entry of the dialog stays in the timer map,
    the timer stays armed and the subscription record stays in the store.
    The callback of a timer that runs out on an active subscription fails
    the assertion of [clearSubscriptionTimer], and the entry of the dialog
    stays in the timer map too. *)
Theorem termination_keeps_timer_entry (nullThrows : bool) :
  let env := exampleEnv false in
  let id := PStr (dlg_id exampleDialog) in
  let w1 := subscribedWorld false nullThrows in
  let unsub := onDialogUnsubscribe env (exampleRequest "0") w1 in
  let expired := onTimeout env 0 w1 in
  (unsub.1 ≠ Ok tt
   ∧ (∃ d hs, notifies "terminated" (trace unsub.2)
              = [DlgRequest d "NOTIFY" hs PUndef])
   ∧ dialogs unsub.2 !! id ≠ None
   ∧ timers unsub.2 !! 0%nat ≠ None
   ∧ store unsub.2 !! "dlg-sub:alice@example.com-bob@example.com" ≠ None)
  ∧ (expired.1 = Throw AssertionError
     ∧ dialogs expired.2 !! id ≠ None).
Proof.
  destruct nullThrows; repeat apply conj; vm_compute;
    first [reflexivity | discriminate | by do 2 eexists].
Qed.

(** C3, on the code: when the write of the subscription record fails
    during an initial SUBSCRIBE for the dialog package, no 480 is sent,
    the watched-resource set has been written, and a timer is armed for a
    subscription that is [undefined].  When the dialog cannot be
    established the answer is 480 and nothing is written or armed. *)
Theorem store_failure_still_arms_timer :
  let env := exampleEnv false in
  let id := PStr (dlg_id exampleDialog) in
  let failing := setFaults [false; true] (freshWorld false) in
  let r := onSubscribe env (exampleRequest "3600") failing in
  let unreachable := setNet [NetReject] (freshWorld false) in
  let r' := onSubscribe env (exampleRequest "3600") unreachable in
  (r.1 = Ok tt
   ∧ statuses (trace r.2) = []
   ∧ store r.2 !! "dlg-sub:alice@example.com-bob@example.com" = None
   ∧ setAt (store r.2) "watched-aor:bob@example.com"
     = {[ "dlg-sub:alice@example.com-bob@example.com" ]}
   ∧ dialogs r.2 !! id = Some [mkBinding VUndef 0]
   ∧ timers r.2 !! 0%nat
     = Some (mkTimerCb VLogger VDb (VDlg exampleDialog) VUndef (PNum 3600000)))
  ∧ (r'.1 = Ok tt
     ∧ trace r'.2 = [Sent 480 []]
     ∧ store r'.2 = ∅ ∧ timers r'.2 = ∅ ∧ dialogs r'.2 = ∅).
Proof.
  repeat apply conj; vm_compute; (reflexivity || discriminate).
Qed.

(* ================================================================== *)
(** ** Further properties *)
(* ================================================================== *)

(** *** Code that only talks to the store *)

Lemma sameProcess_refl w : sameProcess w w.
Proof. by repeat split. Qed.

Lemma sameProcess_trans w1 w2 w3 :
  sameProcess w1 w2 → sameProcess w2 w3 → sameProcess w1 w3.
Proof.
  intros (?&?&?&?&?) (?&?&?&?&?). repeat split; congruence.
Qed.

Lemma StoreOnly_ret {A} (a : A) : StoreOnly (ret a).
Proof. intros w. apply sameProcess_refl. Qed.

Lemma StoreOnly_throw {A} e : StoreOnly (@throw A e).
Proof. intros w. apply sameProcess_refl. Qed.

Lemma StoreOnly_lift {A} (r : result A) : StoreOnly (lift r).
Proof. intros w. apply sameProcess_refl. Qed.

Lemma StoreOnly_bind {A B} (m : M A) (k : A → M B) :
  StoreOnly m → (∀ a, StoreOnly (k a)) → StoreOnly (bind m k).
Proof.
  intros Hm Hk w. unfold bind. specialize (Hm w).
  destruct (m w) as [[a|e] w1]; simpl in *; [|done].
  eapply sameProcess_trans; [exact Hm | apply Hk].
Qed.

Lemma StoreOnly_tryCatch {A} (m : M A) (h : exn → M A) :
  StoreOnly m → (∀ e, StoreOnly (h e)) → StoreOnly (tryCatch m h).
Proof.
  intros Hm Hh w. unfold tryCatch. specialize (Hm w).
  destruct (m w) as [[a|e] w1]; simpl in *; [done|].
  eapply sameProcess_trans; [exact Hm | apply Hh].
Qed.

Lemma StoreOnly_detached {A} (m : M A) : StoreOnly m → StoreOnly (detached m).
Proof. intros Hm w. apply Hm. Qed.

Lemma StoreOnly_roundTrip {A} (f : World → result A * World) :
  (∀ w, sameProcess w (f w).2) → StoreOnly (roundTrip f).
Proof.
  intros Hf w. unfold roundTrip.
  destruct (faults w) as [|[] fs]; simpl; [apply Hf | by repeat split |].
  eapply sameProcess_trans; [|apply Hf]. by repeat split.
Qed.

Lemma StoreOnly_command c : StoreOnly (command c).
Proof.
  apply StoreOnly_roundTrip. intros w.
  destruct (hasNullArg c && nullArgThrows w); [apply sameProcess_refl|].
  destruct (apply c (store w)); [by repeat split | apply sameProcess_refl].
Qed.

Lemma StoreOnly_multiExec cs : StoreOnly (multiExec cs).
Proof.
  apply StoreOnly_roundTrip. intros w.
  destruct (existsb hasNullArg cs && nullArgThrows w);
    [apply sameProcess_refl | by repeat split].
Qed.

Lemma StoreOnly_hgetallAsync key : StoreOnly (hgetallAsync key).
Proof. apply StoreOnly_roundTrip. intros w. apply sameProcess_refl. Qed.

Lemma StoreOnly_getAsync key : StoreOnly (getAsync key).
Proof. apply StoreOnly_roundTrip. intros w. apply sameProcess_refl. Qed.

Lemma StoreOnly_nextUuid : StoreOnly nextUuid.
Proof.
  intros w. unfold nextUuid.
  destruct (entropy w); [apply sameProcess_refl | by repeat split].
Qed.

Create HintDb storeonly.
#[local] Hint Resolve StoreOnly_ret StoreOnly_throw StoreOnly_lift
  StoreOnly_detached StoreOnly_command StoreOnly_multiExec
  StoreOnly_hgetallAsync StoreOnly_getAsync StoreOnly_nextUuid : storeonly.

Ltac store_only :=
  repeat first
    [ apply StoreOnly_bind; [|intros ?]
    | apply StoreOnly_tryCatch; [|intros ?]
    | progress eauto with storeonly
    | match goal with
      | |- StoreOnly (match ?x with _ => _ end) => destruct x
      | |- StoreOnly (if ?x then _ else _) => destruct x
      end ].

Lemma StoreOnly_dialogGetEventState subscriber resource :
  StoreOnly (dialogGetEventState subscriber resource).
Proof. unfold dialogGetEventState. store_only. Qed.

Lemma StoreOnly_getEventState env subscriber aor eventType :
  StoreOnly (getEventState env subscriber aor eventType).
Proof.
  unfold getEventState.
  destruct (hasPackage env eventType);
    [apply StoreOnly_dialogGetEventState | store_only].
Qed.

Lemma StoreOnly_dialogAddSubscription env dlg obj expiry :
  StoreOnly (dialogAddSubscription env dlg obj expiry).
Proof. unfold dialogAddSubscription. store_only. Qed.

Lemma StoreOnly_addSubscription env dlg obj expiry :
  StoreOnly (addSubscription env dlg obj expiry).
Proof.
  unfold addSubscription. apply StoreOnly_bind; [store_only|]. intros et.
  destruct (hasPackage env et);
    [apply StoreOnly_dialogAddSubscription | store_only].
Qed.

Lemma StoreOnly_dialogRemoveSubscription obj :
  StoreOnly (dialogRemoveSubscription obj).
Proof. unfold dialogRemoveSubscription. store_only. Qed.

Lemma StoreOnly_removeSubscription env obj :
  StoreOnly (removeSubscription env obj).
Proof.
  unfold removeSubscription. apply StoreOnly_bind; [store_only|]. intros et.
  destruct (hasPackage env et);
    [apply StoreOnly_dialogRemoveSubscription | store_only].
Qed.

(** *** The engine, whatever the store and the transport do *)

(** What [clearSubscriptionTimer] leaves alone, whether it returns or
    throws: nothing is sent, the store is as it was, and no timer is
    armed. *)
Lemma clearSubscriptionTimer_frame logger db dlg subscription andCancel w :
  let w' := (clearSubscriptionTimer logger db dlg subscription andCancel w).2 in
  trace w' = trace w ∧ store w' = store w ∧ timers w' ⊆ timers w
  ∧ faults w' = faults w ∧ net w' = net w.
Proof.
  unfold clearSubscriptionTimer, bind, lift, getWorld, throw, ret, modify.
  destruct (getProp dlg "id") as [id|]; [|done].
  destruct (dialogs w !! id) as [[|b l]|]; cbn -[partitionM]; try done.
  destruct (partitionM (sameEventType subscription) (b :: l))
    as [[removed kept]|]; [|done].
  cbn -[partitionM]. destruct removed as [|one [|]]; cbn -[partitionM]; try done.
  destruct (match andCancel with VPrim p => truthy p | _ => true end);
    cbn -[partitionM]; rewrite lookup_insert_eq;
    destruct kept; cbn; repeat split; try done; apply delete_subseteq.
Qed.

Lemma notify_outcome env logger sub d st w :
  let r := notify env logger VDb sub (VDlg d) st w in
  dialogs r.2 = dialogs w ∧ timers r.2 = timers w
  ∧ nextTimer r.2 = nextTimer w ∧ listeners r.2 = listeners w
  ∧ ((∃ e, r.1 = Throw e ∧ trace r.2 = trace w)
     ∨ (r.1 = Ok tt
        ∧ ∃ hs body,
            trace r.2 = (trace w ++ [DlgRequest d "NOTIFY" hs body])%list
            ∧ headerOf hs "Subscription-State" = PStr st
            ∧ (st = "terminated" →
               body = PUndef ∧ headerOf hs "Content-Type" = PUndef))).
Proof.
  unfold notify, bind, lift.
  destruct (getProp sub "subscriber") as [subscriber|e] eqn:E1;
    [|repeat split; try done; left; by eexists].
  destruct (getProp sub "resource") as [resource|e] eqn:E2;
    [|repeat split; try done; left; by eexists].
  destruct (getProp sub "eventType") as [eventType|e] eqn:E3;
    [|repeat split; try done; left; by eexists].
  pose proof (StoreOnly_getEventState env subscriber resource eventType w)
    as (Ht & Hd & Hti & Hn & Hl).
  destruct (getEventState env subscriber resource eventType w)
    as [[state|e] w1]; simpl in *;
    [|repeat split; try done; left; by eexists].
  destruct (getProp sub "callId") as [callId|e] eqn:E4;
    [|repeat split; try done; left; by eexists].
  destruct state as [stt|]; [destruct (String.eqb st "terminated") eqn:Et|];
    cbn; rewrite ?Ht; repeat split; try done; right; (split; [done|]);
    eexists _, _; (split; [reflexivity|]); (split; [done|]);
    intros ->; try done.
Qed.

(** X1: A SUBSCRIBE inside a dialog reaches [refresh] without the properties
    that [validate] sets: whatever the store holds and answers, the
    request is answered 480 and nothing else is sent, and no timer is
    armed. *)
Theorem refresh_unvalidated_request (env : Env) (req : Req) (dlg : Dlg)
    (subscription : jsval) (w : World) :
  req_event req = VUndef →
  ∃ w',
    refresh env VLogger VDb req dlg subscription w = (Ok tt, w')
    ∧ trace w' = (trace w ++ [Sent 480 []])%list
    ∧ timers w' ⊆ timers w.
Proof.
  intros Hev. unfold refresh.
  change (logInfo VLogger) with (@ret unit tt).
  unfold bind at 1. cbn [ret].
  unfold tryCatch.
  pose proof (clearSubscriptionTimer_frame VLogger VDb (VDlg dlg) subscription
                (VPrim (PBool true)) w) as (Ht1 & _ & Hti1 & _).
  unfold bind at 1.
  destruct (clearSubscriptionTimer VLogger VDb (VDlg dlg) subscription
              (VPrim (PBool true)) w) as [[[]|e1] w1]; simpl in Ht1, Hti1.
  2:{ eexists. split; [reflexivity|]. cbn. by rewrite Ht1. }
  unfold bind at 1.
  pose proof (StoreOnly_removeSubscription env subscription w1)
    as (Ht2 & _ & Hti2 & _).
  destruct (removeSubscription env subscription w1) as [[[]|e2] w2];
    simpl in Ht2, Hti2.
  2:{ eexists. split; [reflexivity|]. cbn. by rewrite Ht2, Ht1, Hti2. }
  unfold bind at 1. rewrite Hev.
  unfold addSubscription, bind, lift. cbn.
  eexists. split; [reflexivity|]. cbn. by rewrite Ht2, Ht1, Hti2.
Qed.

Lemma refresh_unvalidated_request_witness :
  ∃ w',
    refresh (exampleEnv false) VLogger VDb (exampleRequest "1800") exampleDialog
      VUndef (freshWorld false) = (Ok tt, w')
    ∧ trace w' = (trace (freshWorld false) ++ [Sent 480 []])%list
    ∧ timers w' ⊆ timers (freshWorld false).
Proof.
  exact (refresh_unvalidated_request (exampleEnv false) (exampleRequest "1800")
           exampleDialog VUndef (freshWorld false) eq_refl).
Defined.

(** X2: [notify] sends at most one request: when it returns, one NOTIFY inside
    the dialog with the given Subscription-State, which for [terminated]
    has neither a body nor a Content-Type whatever event state the store
    holds; when it throws, nothing. *)
Theorem notify_one_request (env : Env) (logger sub : jsval) (d : Dlg)
    (st : string) (w : World) :
  let r := notify env logger VDb sub (VDlg d) st w in
  (r.1 = Ok tt ∧
   ∃ hs body,
     trace r.2 = (trace w ++ [DlgRequest d "NOTIFY" hs body])%list
     ∧ headerOf hs "Subscription-State" = PStr st
     ∧ (st = "terminated" → body = PUndef ∧ headerOf hs "Content-Type" = PUndef))
  ∨ (r.1 ≠ Ok tt ∧ trace r.2 = trace w).
Proof.
  intros r.
  destruct (notify_outcome env logger sub d st w)
    as (_ & _ & _ & _ & [(e & He & Ht) | (Hr & Hs)]).
  - right. fold r in He, Ht. split; [by rewrite He | done].
  - left. by split.
Qed.

(** X3: [remove] ends in [clearSubscriptionTimer(dlg, db, subscription, true)],
    which looks the timer map up under the [id] of the subscription: when
    the map has no entry under it, [remove] throws and leaves the timer
    map and every armed timer as they were. *)
Theorem remove_keeps_timer_entry (env : Env) (req : Req) (dlg : Dlg)
    (subscription : jsval) (w : World) :
  (∀ k, getProp subscription "id" = Ok k → dialogs w !! k = None) →
  let r := remove env VLogger VDb req dlg subscription w in
  r.1 ≠ Ok tt ∧ dialogs r.2 = dialogs w ∧ timers r.2 = timers w.
Proof.
  intros Hid r.
  assert (∃ e w', remove env VLogger VDb req dlg subscription w = (Throw e, w')
                  ∧ dialogs w' = dialogs w ∧ timers w' = timers w)
    as (e & w' & Hr & Hd & Ht).
  2:{ subst r. rewrite Hr. by simpl. }
  unfold remove.
  change (logInfo VLogger) with (@ret unit tt).
  unfold bind at 1. cbn [ret].
  destruct (notify_outcome env VLogger subscription dlg "terminated" w)
    as (Hd1 & Ht1 & _ & _ & _).
  unfold bind at 1.
  destruct (notify env VLogger VDb subscription (VDlg dlg) "terminated" w)
    as [[[]|e1] w1]; simpl in Hd1, Ht1; [|by eexists _, _].
  unfold bind at 1.
  pose proof (StoreOnly_removeSubscription env subscription w1)
    as (_ & Hd2 & Ht2 & _).
  destruct (removeSubscription env subscription w1) as [[[]|e2] w2];
    simpl in Hd2, Ht2;
    [|eexists _, _; split; [reflexivity|]; by rewrite Hd2, Ht2, Hd1, Ht1].
  unfold clearSubscriptionTimer, bind, lift, getWorld.
  destruct (getProp subscription "id") as [k|e] eqn:Ek;
    [|eexists _, _; split; [reflexivity|]; by rewrite Hd2, Ht2, Hd1, Ht1].
  assert (dialogs w2 !! k = None) as Hk
    by (rewrite Hd2, Hd1; by apply Hid).
  rewrite Hk. cbn.
  eexists _, _; split; [reflexivity|]; by rewrite Hd2, Ht2, Hd1, Ht1.
Qed.

Lemma remove_keeps_timer_entry_witness :
  let w := subscribedWorld false false in
  let sub := default VUndef (snd <$> listeners w !! dlg_id exampleDialog) in
  let r := remove (exampleEnv false) VLogger VDb (exampleRequest "0")
             exampleDialog sub w in
  r.1 ≠ Ok tt ∧ dialogs r.2 = dialogs w ∧ timers r.2 = timers w.
Proof.
  intros w sub.
  apply (remove_keeps_timer_entry (exampleEnv false) (exampleRequest "0")
           exampleDialog sub w).
  intros k Hk. vm_compute in Hk. injection Hk as <-. vm_compute. reflexivity.
Defined.

Lemma tryCatch_ret_total {A} (m : M A) (a : A) w :
  ∃ v w', tryCatch m (λ _, ret a) w = (Ok v, w').
Proof. unfold tryCatch. destruct (m w) as [[v|e] w1]; by eexists _, _. Qed.






(** *** The timer map: failure and round trip *)

(** X5: [_.remove] pulls the matching pairs out of the list that the map holds
    before the assertion runs: when the number of matching pairs is not
    one, [clearSubscriptionTimer] throws, no timer is cancelled, and the
    dialog keeps the list without the matching pairs, which can be the
    empty list. *)
Theorem clearSubscriptionTimer_assert_after_removal
    (logger db dlg subscription andCancel : jsval) (w : World) (id : prim)
    (l removed kept : list binding) :
  getProp dlg "id" = Ok id →
  dialogs w !! id = Some l →
  l ≠ [] →
  partitionM (sameEventType subscription) l = Ok (removed, kept) →
  length removed ≠ 1%nat →
  clearSubscriptionTimer logger db dlg subscription andCancel w
  = (Throw AssertionError, setDialogs (insert id kept) w).
Proof.
  intros Hid Hl Hne Hp Hlen.
  unfold clearSubscriptionTimer, bind, lift, getWorld, throw, ret, modify.
  rewrite Hid, Hl. destruct l as [|b l0]; [done|].
  cbn -[partitionM]. rewrite Hp. cbn -[partitionM].
  by destruct removed as [|one [|]].
Qed.

Lemma clearSubscriptionTimer_assert_after_removal_witness :
  let sub := VObj (mkObj [("eventType", PStr "dialog")]) in
  let id := PStr (dlg_id exampleDialog) in
  let two := [mkBinding sub 0; mkBinding sub 1] in
  let w := setDialogs (λ _, {[ id := two ]}) (freshWorld false) in
  clearSubscriptionTimer VLogger VDb (VDlg exampleDialog) sub
    (VPrim (PBool true)) w
  = (Throw AssertionError, setDialogs (insert id []) w).
Proof.
  intros sub id two w.
  apply (clearSubscriptionTimer_assert_after_removal VLogger VDb
           (VDlg exampleDialog) sub (VPrim (PBool true)) w id two two []).
  - reflexivity.
  - apply lookup_singleton_eq.
  - discriminate.
  - vm_compute. reflexivity.
  - simpl. lia.
Defined.

Lemma partitionM_snoc_last (p : binding → result bool) l x :
  Forall (λ b, p b = Ok false) l → p x = Ok true →
  partitionM p (l ++ [x]) = Ok ([x], l).
Proof.
  intros Hl Hx. induction Hl as [|b r Hb Hr IH]; simpl.
  - by rewrite Hx.
  - by rewrite Hb, IH.
Qed.

(** X6: Clearing undoes arming: on a dialog that holds no pair of the event
    type of the subscription, [startSubscriptionTimer] followed by
    [clearSubscriptionTimer] with cancellation returns and leaves the
    timer map and the armed timers as they were before. *)
Theorem start_then_clear_restores (logger db logger' db' dlg subscription : jsval)
    (expiry : prim) (w : World) (id et : prim) :
  getProp dlg "id" = Ok id →
  getProp subscription "eventType" = Ok et →
  et ≠ PNaN →
  dialogs w !! id ≠ Some [] →
  Forall (λ b, ∃ e, eventTypeOf b = Ok e ∧ e ≠ et)
    (default [] (dialogs w !! id)) →
  timers w !! nextTimer w = None →
  let w1 := (startSubscriptionTimer logger db dlg subscription expiry w).2 in
  ∃ w2,
    clearSubscriptionTimer logger' db' dlg subscription (VPrim (PBool true)) w1
    = (Ok tt, w2)
    ∧ dialogs w2 = dialogs w ∧ timers w2 = timers w.
Proof.
  intros Hid Het Hnan Hne Hall Hfresh w1.
  set (l := default [] (dialogs w !! id)) in *.
  set (b := mkBinding subscription (nextTimer w)).
  assert (dialogs w1 = <[id := (l ++ [b])%list]> (dialogs w)
          ∧ timers w1
            = <[nextTimer w := mkTimerCb logger db dlg subscription
                                 (times1000 expiry)]> (timers w)
          ∧ nextTimer w1 = S (nextTimer w)) as (Hd1 & Ht1 & Hn1).
  { subst w1. unfold startSubscriptionTimer, bind, lift, getWorld.
    cbn. rewrite Hid. by cbn. }
  assert (partitionM (sameEventType subscription) (l ++ [b]) = Ok ([b], l))
    as Hp.
  { apply partitionM_snoc_last.
    - eapply Forall_impl; [exact Hall|]. intros x (e & He & Hee).
      unfold sameEventType. unfold eventTypeOf in He. rewrite He, Het.
      f_equal. unfold strictEq.
      destruct e, et; try done; by apply bool_decide_eq_false.
    - unfold sameEventType. cbn [b_subscription b]. rewrite Het.
      f_equal. unfold strictEq. destruct et; try done;
        by apply bool_decide_eq_true. }
  unfold clearSubscriptionTimer, bind, lift, getWorld, throw, ret, modify.
  rewrite Hid, Hd1, lookup_insert_eq.
  destruct (l ++ [b])%list as [|x r] eqn:El.
  { by apply app_eq_nil in El as [_ ?]. }
  cbn -[partitionM]. rewrite Hp. cbn -[partitionM].
  rewrite Hd1. rewrite lookup_insert_eq.
  assert (delete (nextTimer w) (timers w1) = timers w) as Htd.
  { rewrite Ht1, delete_insert_eq. by apply delete_id. }
  destruct l as [|b0 l0] eqn:El0; cbn.
  - eexists. split; [reflexivity|]. cbn. rewrite Hd1. split; [|exact Htd].
    rewrite !delete_insert_eq. apply delete_id.
    subst l. destruct (dialogs w !! id) as [[|]|] eqn:Ed; try done.
  - eexists. split; [reflexivity|]. cbn. rewrite Hd1. split; [|exact Htd].
    rewrite insert_insert_eq. apply insert_id.
    subst l. destruct (dialogs w !! id) as [l1|] eqn:Ed; [|done].
    simpl in El0. by subst.
Qed.

Lemma start_then_clear_restores_witness :
  let sub := VObj (mkObj [("eventType", PStr "dialog")]) in
  let w := freshWorld false in
  let w1 := (startSubscriptionTimer VLogger VDb (VDlg exampleDialog) sub
               (PNum 3600) w).2 in
  ∃ w2,
    clearSubscriptionTimer VLogger VDb (VDlg exampleDialog) sub
      (VPrim (PBool true)) w1 = (Ok tt, w2)
    ∧ dialogs w2 = dialogs w ∧ timers w2 = timers w.
Proof.
  intros sub w.
  apply (start_then_clear_restores VLogger VDb VLogger VDb (VDlg exampleDialog)
           sub (PNum 3600) w (PStr (dlg_id exampleDialog)) (PStr "dialog")).
  - reflexivity.
  - vm_compute. reflexivity.
  - discriminate.
  - discriminate.
  - constructor.
  - reflexivity.
Defined.

(** *** Requests that [validate] turns away *)

(** X7: A SUBSCRIBE outside a dialog without an Event header is answered 400,
    and one whose event type, as [parseEventHeader] reads it from a
    header of code units below 256, is not among the supported ones 489;
    in both
    cases nothing else is sent, nothing is written to the store, no dialog
    is created and no timer armed, whatever the other headers say. *)
Theorem onSubscribe_turned_away (env : Env) (req : Req) (w : World) :
  (header (headers req) "Event" = None →
   onSubscribe env req w = (Ok tt, emit (Sent 400 []) w))
  ∧ (∀ e, header (headers req) "Event" = Some e →
          (parseEventHeader e).1 ∉ supportedEvents env →
          onSubscribe env req w = (Ok tt, emit (Sent 489 []) w)).
Proof.
  split.
  - intros He. unfold onSubscribe, validate.
    by rewrite (has_None _ _ He).
  - intros e He Hs. unfold onSubscribe, validate.
    rewrite (has_Some _ _ _ He), He. change (default "" (Some e)) with e.
    destruct (parseEventHeader e) as [event id]. simpl in Hs. cbn iota.
    by rewrite (bool_decide_eq_false_2 _ Hs).
Qed.

Lemma onSubscribe_turned_away_witness :
  let env := exampleEnv false in
  let w := freshWorld false in
  let bare := mkReq [("Call-ID", "call1")] "sip:bob@example.com"
                "sip:alice@example.com" exampleDialog VUndef PUndef in
  let other := mkReq [("Event", "presence"); ("Call-ID", "call1")]
                 "sip:bob@example.com" "sip:alice@example.com" exampleDialog
                 VUndef PUndef in
  onSubscribe env bare w = (Ok tt, emit (Sent 400 []) w)
  ∧ onSubscribe env other w = (Ok tt, emit (Sent 489 []) w).
Proof.
  intros env w bare other. split.
  - apply (proj1 (onSubscribe_turned_away env bare w)). reflexivity.
  - apply (proj2 (onSubscribe_turned_away env other w) "presence").
    + reflexivity.
    + intros H. vm_compute in H. apply elem_of_cons in H as [H|H]; [done|].
      by apply elem_of_nil in H.
Defined.

(** *** The store answering *)

Lemma roundTrip_ok {A} (f : World → result A * World) w :
  faults w = [] → roundTrip f w = f w.
Proof. intros Hf. unfold roundTrip. by rewrite Hf. Qed.

Lemma command_ok c w s' :
  faults w = [] → hasNullArg c = false → apply c (store w) = Some s' →
  command c w = (Ok tt, setStore (λ _, s') w).
Proof.
  intros Hf Hn Ha. unfold command. rewrite roundTrip_ok by done.
  by rewrite Hn, Ha.
Qed.

Lemma command_refused c w :
  faults w = [] → hasNullArg c = false → apply c (store w) = None →
  command c w = (Throw (RedisError "reply"), w).
Proof.
  intros Hf Hn Ha. unfold command. rewrite roundTrip_ok by done.
  by rewrite Hn, Ha.
Qed.

Lemma multiExec_ok cs w :
  faults w = [] → existsb hasNullArg cs = false →
  multiExec cs w = (Ok tt, setStore (applyAll cs) w).
Proof.
  intros Hf Hn. unfold multiExec. rewrite roundTrip_ok by done.
  by rewrite Hn.
Qed.

Lemma hgetallAsync_ok key w :
  faults w = [] → hgetallAsync key w = (hgetall (store w) key, w).
Proof. intros Hf. unfold hgetallAsync. by rewrite roundTrip_ok. Qed.

Lemma getAsync_ok key w :
  faults w = [] → getAsync key w = (get (store w) key, w).
Proof. intros Hf. unfold getAsync. by rewrite roundTrip_ok. Qed.

Lemma subscription_name_not_watched_key subscriber resource r :
  makeSubscriptionName subscriber resource ≠ makeSubscribedResourceKey r.
Proof. unfold makeSubscriptionName, makeSubscribedResourceKey. by cbn. Qed.

(** *** The dialog package on the store *)

Lemma nextUuid_run w :
  nextUuid w = (Ok (hd 0 (entropy w)), setEntropy (tl (entropy w)) w).
Proof. unfold nextUuid. destruct w as [? ? ? ? [|u r] ? ? ? ? ?]; done. Qed.

Lemma detached_command_run c w :
  faults w = [] → hasNullArg c = false →
  detached (command c) w
  = (Ok tt, setStore (λ s, default s (apply c s)) w).
Proof.
  intros Hf Hn. unfold detached.
  destruct (apply c (store w)) as [s'|] eqn:Ea.
  - rewrite (command_ok c w s' Hf Hn Ea). unfold setStore. by rewrite Ea.
  - rewrite (command_refused c w Hf Hn Ea). unfold setStore. rewrite Ea.
    by destruct w.
Qed.

(** [dialogAddSubscription] as a function of the store, when the store
    answers. *)
Lemma dialogAddSubscription_run env dlg o expiry w :
  faults w = [] → expiry ≠ PUndef →
  let data :=
    subscriptionDataOf env dlg o (hd 0 (entropy w)) (hd 0 (tl (entropy w))) in
  dialogAddSubscription env dlg (VObj o) expiry w
  = (Ok (VObj (mkObj data)),
     setStore
       (λ s, applyAll [HMSET (nameOf o) (toFields data);
                       EXPIRE (nameOf o) expiry]
               (default s (apply (SADD (watchedKeyOf o) (nameOf o)) s)))
       (setEntropy (tl (tl (entropy w))) w)).
Proof.
  intros Hf Hu data.
  unfold dialogAddSubscription, bind at 1 2, lift, getProp.
  fold (prop o "subscriber"). fold (prop o "resource").
  fold (nameOf o). fold (watchedKeyOf o).
  unfold tryCatch. unfold bind at 1.
  rewrite detached_command_run by done.
  unfold bind at 1. rewrite nextUuid_run.
  unfold bind at 1. rewrite nextUuid_run.
  unfold bind at 1. rewrite multiExec_ok by (by destruct expiry).
  cbn. f_equal; try (destruct w; cbn in *; by subst).
Qed.

Lemma dialogRemoveSubscription_run o w :
  faults w = [] →
  dialogRemoveSubscription (VObj o) w
  = (Ok tt,
     setStore
       (λ s, match apply (SREM (watchedKeyOf o) (nameOf o)) s with
             | Some s' => delete (nameOf o) s'
             | None => s
             end) w).
Proof.
  intros Hf.
  unfold dialogRemoveSubscription, bind at 1 2, lift, getProp.
  fold (prop o "subscriber"). fold (prop o "resource").
  fold (nameOf o). fold (watchedKeyOf o).
  unfold tryCatch, bind.
  destruct (apply (SREM (watchedKeyOf o) (nameOf o)) (store w)) as [s'|] eqn:Ea.
  - rewrite (command_ok (SREM (watchedKeyOf o) (nameOf o)) w s' Hf eq_refl Ea).
    rewrite (command_ok (DEL (Some (nameOf o))) _ (delete (nameOf o) s'));
      [|done|done|done].
    unfold setStore. cbn -[apply]. by rewrite Ea.
  - rewrite (command_refused (SREM (watchedKeyOf o) (nameOf o)) w Hf eq_refl Ea).
    unfold setStore. cbn -[apply]. rewrite Ea. by destruct w.
Qed.


(** *** Replies of single commands *)

Lemma apply_HMSET_fresh k f fs s :
  s !! k = None →
  apply (HMSET k (f :: fs)) s
  = Some (<[k := mkEntry (RHash (putFields (f :: fs) ∅)) None]> s).
Proof. intros H. unfold apply. by rewrite H. Qed.

Lemma apply_HMSET_hash k f fs h t s :
  s !! k = Some (mkEntry (RHash h) t) →
  apply (HMSET k (f :: fs)) s
  = Some (<[k := mkEntry (RHash (putFields (f :: fs) h)) t]> s).
Proof. intros H. unfold apply. by rewrite H. Qed.

(** Seconds that [EXPIRE] takes, whatever the clock of the server says. *)
Lemma seconds_in_range n :
  - 2 ^ 53 < n → n < 2 ^ 53 →
  secondsOf (PNum n) = Some n ∧ expireInRange n = true.
Proof.
  intros H0 H1. unfold secondsOf, expireInRange.
  assert (EXPIRE_MAX = 9223372036854775) as -> by (vm_compute; reflexivity).
  assert (2 ^ 53 = 9007199254740992) as E53 by (vm_compute; reflexivity).
  assert (2 ^ 63 = 9223372036854775808) as E63 by (vm_compute; reflexivity).
  rewrite E53 in H0, H1. rewrite E63.
  split.
  - by rewrite (proj2 (Z.leb_le _ _)), (proj2 (Z.ltb_lt _ _)) by lia.
  - by rewrite !(proj2 (Z.leb_le _ _)) by lia.
Qed.

Lemma safe_seconds n :
  0 < n → n < 2 ^ 53 → secondsOf (PNum n) = Some n ∧ expireInRange n = true.
Proof. intros H0 H1. apply seconds_in_range; lia. Qed.

Lemma ttlAfterExpire_safe n old :
  0 < n → n < 2 ^ 53 → ttlAfterExpire n old = Some n.
Proof.
  intros Hn Hm. destruct (safe_seconds n Hn Hm) as [E1 E2].
  unfold ttlAfterExpire. by rewrite E1, E2.
Qed.

Lemma apply_EXPIRE_live k n v t s :
  0 < n → n < 2 ^ 53 → s !! k = Some (mkEntry v t) →
  apply (EXPIRE k (PNum n)) s = Some (<[k := mkEntry v (Some n)]> s).
Proof.
  intros Hn Hm H. destruct (safe_seconds n Hn Hm) as [E1 E2].
  unfold apply. rewrite E1, E2, H.
  by rewrite (proj2 (Z.leb_gt n 0)).
Qed.

Lemma apply_EXPIRE_absent k n s :
  0 < n → n < 2 ^ 53 →
  s !! k = None → apply (EXPIRE k (PNum n)) s = Some s.
Proof.
  intros Hn Hm H. destruct (safe_seconds n Hn Hm) as [E1 E2].
  unfold apply. by rewrite E1, E2, H.
Qed.

Lemma applyAll_HMSET_EXPIRE_fresh k fs n s :
  fs ≠ [] → 0 < n → n < 2 ^ 53 → s !! k = None →
  applyAll [HMSET k fs; EXPIRE k (PNum n)] s
  = <[k := mkEntry (RHash (putFields fs ∅)) (Some n)]> s.
Proof.
  intros Hfs Hn Hm H. destruct fs as [|f fs]; [done|].
  unfold applyAll. cbn [fold_left].
  rewrite (apply_HMSET_fresh _ _ _ s H). cbn [from_option id].
  erewrite apply_EXPIRE_live; [|done|done|apply lookup_insert_eq].
  cbn [from_option id]. by rewrite insert_insert_eq.
Qed.

(** Whether or not the server takes the seconds, the key holds the value. *)
Lemma apply_EXPIRE_pos k n v t s :
  0 < n → s !! k = Some (mkEntry v t) →
  default s (apply (EXPIRE k (PNum n)) s)
  = <[k := mkEntry v (ttlAfterExpire n t)]> s.
Proof.
  intros Hn H. unfold apply, ttlAfterExpire, secondsOf.
  destruct ((- 2 ^ 63 <=? n) && (n <? 2 ^ 63)); cbn [from_option id].
  - destruct (expireInRange n); cbn [from_option id].
    + by rewrite H, (proj2 (Z.leb_gt n 0)) by done.
    + by rewrite insert_id.
  - by rewrite insert_id.
Qed.

Lemma applyAll_HMSET_EXPIRE_fresh_pos k fs n s :
  fs ≠ [] → 0 < n → s !! k = None →
  applyAll [HMSET k fs; EXPIRE k (PNum n)] s
  = <[k := mkEntry (RHash (putFields fs ∅)) (ttlAfterExpire n None)]> s.
Proof.
  intros Hfs Hn H. destruct fs as [|f fs]; [done|].
  unfold applyAll. cbn [fold_left].
  rewrite (apply_HMSET_fresh _ _ _ s H). cbn [from_option id].
  rewrite (apply_EXPIRE_pos k n (RHash (putFields (f :: fs) ∅)) None
              (<[k := mkEntry (RHash (putFields (f :: fs) ∅)) None]> s) Hn)
    by apply lookup_insert_eq.
  by rewrite insert_insert_eq.
Qed.

(** X8: With the store answering, [dialogAddSubscription] with an expiry
    of 1 to [2^53 - 1] seconds, for a descriptor
    whose record does not exist, on a watched-resource key that is free or
    holds a set, writes the record with a time to live equal to the
    expiry, a zero counter and the dialog correlation
    [callId;from-tag=remoteTag], adds the name of the record to the
    watched-resource set, touches no other key and returns the record. *)
Theorem dialogAddSubscription_writes (env : Env) (dlg : Dlg) (o : jsobj)
    (n : Z) (w : World) :
  faults w = [] →
  0 < n → n < 2 ^ 53 →
  store w !! nameOf o = None →
  (store w !! watchedKeyOf o = None
   ∨ ∃ ms t, store w !! watchedKeyOf o = Some (mkEntry (RSet ms) t)) →
  let data :=
    subscriptionDataOf env dlg o (hd 0 (entropy w)) (hd 0 (tl (entropy w))) in
  ∃ w',
    dialogAddSubscription env dlg (VObj o) (PNum n) w = (Ok (VObj (mkObj data)), w')
    ∧ store w' !! nameOf o
      = Some (mkEntry (RHash (putFields (toFields data) ∅)) (Some n))
    ∧ setAt (store w') (watchedKeyOf o)
      = {[nameOf o]} ∪ setAt (store w) (watchedKeyOf o)
    ∧ (∀ j, j ≠ nameOf o → j ≠ watchedKeyOf o → store w' !! j = store w !! j).
Proof.
  intros Hf Hn Hm Hname Hkey data.
  assert (nameOf o ≠ watchedKeyOf o) as Hne
    by apply subscription_name_not_watched_key.
  rewrite dialogAddSubscription_run by done. fold data.
  eexists. split; [reflexivity|]. cbn [store setStore setEntropy].
  set (s1 := default (store w) (apply (SADD (watchedKeyOf o) (nameOf o)) (store w))).
  assert (s1 !! nameOf o = None
          ∧ setAt s1 (watchedKeyOf o) = {[nameOf o]} ∪ setAt (store w) (watchedKeyOf o)
          ∧ ∀ j, j ≠ watchedKeyOf o → s1 !! j = store w !! j) as (Hs1n & Hs1k & Hs1o).
  { subst s1. unfold apply, setAt.
    destruct Hkey as [Hk|(ms & t & Hk)]; rewrite Hk; cbn [from_option id].
    - rewrite lookup_insert_ne, lookup_insert_eq by done.
      split; [done|]. split; [by rewrite union_empty_r_L|].
      intros j Hj. by rewrite lookup_insert_ne.
    - rewrite lookup_insert_ne, lookup_insert_eq by done.
      split; [done|]. split; [done|].
      intros j Hj. by rewrite lookup_insert_ne. }
  rewrite (applyAll_HMSET_EXPIRE_fresh (nameOf o) _ n s1) by done.
  rewrite lookup_insert_eq.
  split; [done|]. split.
  - unfold setAt at 1. rewrite lookup_insert_ne by done. exact Hs1k.
  - intros j Hj1 Hj2. rewrite lookup_insert_ne by done. by apply Hs1o.
Qed.

Lemma dialogAddSubscription_writes_witness :
  let env := exampleEnv false in
  let o := mkObj [("subscriber", PStr "alice@example.com");
                  ("resource", PStr "bob@example.com");
                  ("eventType", PStr "dialog")] in
  let w := freshWorld false in
  let data :=
    subscriptionDataOf env exampleDialog o (hd 0 (entropy w))
      (hd 0 (tl (entropy w))) in
  ∃ w',
    dialogAddSubscription env exampleDialog (VObj o) (PNum 3600) w
    = (Ok (VObj (mkObj data)), w')
    ∧ store w' !! nameOf o
      = Some (mkEntry (RHash (putFields (toFields data) ∅)) (Some 3600))
    ∧ setAt (store w') (watchedKeyOf o)
      = {[nameOf o]} ∪ setAt (store w) (watchedKeyOf o)
    ∧ (∀ j, j ≠ nameOf o → j ≠ watchedKeyOf o → store w' !! j = store w !! j).
Proof.
  intros env o w.
  apply (dialogAddSubscription_writes env exampleDialog o 3600 w).
  - reflexivity.
  - reflexivity.
  - reflexivity.
  - apply lookup_empty.
  - left. apply lookup_empty.
Defined.

Lemma apply_SADD_spec k m s :
  (s !! k = None ∨ ∃ ms t, s !! k = Some (mkEntry (RSet ms) t)) →
  ∃ s', apply (SADD k m) s = Some s'
    ∧ (∃ t, s' !! k = Some (mkEntry (RSet ({[m]} ∪ setAt s k)) t))
    ∧ ∀ j, j ≠ k → s' !! j = s !! j.
Proof.
  intros Hk. unfold apply, setAt.
  destruct Hk as [Hk|(ms & t & Hk)]; rewrite Hk; eexists; (split; [done|]).
  - rewrite lookup_insert_eq, union_empty_r_L. split; [by eexists|].
    intros j Hj. by rewrite lookup_insert_ne.
  - rewrite lookup_insert_eq. split; [by eexists|].
    intros j Hj. by rewrite lookup_insert_ne.
Qed.

Lemma apply_SREM_spec k m ms t s :
  s !! k = Some (mkEntry (RSet ms) t) →
  ∃ s', apply (SREM k m) s = Some s'
    ∧ setAt s' k = ms ∖ {[m]}
    ∧ ∀ j, j ≠ k → s' !! j = s !! j.
Proof.
  intros Hk. unfold apply. rewrite Hk. cbn zeta.
  destruct (decide (ms ∖ {[m]} = ∅)) as [He|He]; eexists; (split; [done|]).
  - unfold setAt. rewrite lookup_delete_eq. split; [done|].
    intros j Hj. by rewrite lookup_delete_ne.
  - unfold setAt. rewrite lookup_insert_eq. split; [done|].
    intros j Hj. by rewrite lookup_insert_ne.
Qed.

(** X9: Removing undoes adding: with the store answering,
    [dialogAddSubscription] followed by [dialogRemoveSubscription] for the
    same descriptor leaves no record under the name of the subscription,
    the watched-resource set without that name, and every other key as it
    was. *)
Theorem dialog_add_then_remove (env : Env) (dlg : Dlg) (o : jsobj) (n : Z)
    (w : World) :
  faults w = [] →
  0 < n →
  store w !! nameOf o = None →
  (store w !! watchedKeyOf o = None
   ∨ ∃ ms t, store w !! watchedKeyOf o = Some (mkEntry (RSet ms) t)) →
  let w1 := (dialogAddSubscription env dlg (VObj o) (PNum n) w).2 in
  ∃ w2,
    dialogRemoveSubscription (VObj o) w1 = (Ok tt, w2)
    ∧ store w2 !! nameOf o = None
    ∧ setAt (store w2) (watchedKeyOf o)
      = setAt (store w) (watchedKeyOf o) ∖ {[nameOf o]}
    ∧ (∀ j, j ≠ watchedKeyOf o → store w2 !! j = store w !! j).
Proof.
  intros Hf Hn Hname Hkey w1.
  assert (nameOf o ≠ watchedKeyOf o) as Hne
    by apply subscription_name_not_watched_key.
  subst w1. rewrite dialogAddSubscription_run by done. cbn [snd].
  rewrite dialogRemoveSubscription_run by done.
  eexists. split; [reflexivity|]. cbn [store setStore setEntropy].
  destruct (apply_SADD_spec (watchedKeyOf o) (nameOf o) (store w) Hkey)
    as (s1 & Hs1 & (t1 & Hs1k) & Hs1o).
  rewrite Hs1. cbn [from_option id].
  assert (s1 !! nameOf o = None) as Hs1n by (by rewrite Hs1o).
  rewrite (applyAll_HMSET_EXPIRE_fresh_pos (nameOf o) _ n s1) by done.
  set (s2 := <[nameOf o := _]> s1).
  assert (s2 !! watchedKeyOf o
          = Some (mkEntry (RSet ({[nameOf o]} ∪ setAt (store w) (watchedKeyOf o))) t1))
    as Hs2k by (subst s2; by rewrite lookup_insert_ne).
  destruct (apply_SREM_spec (watchedKeyOf o) (nameOf o) _ _ s2 Hs2k)
    as (s3 & Hs3 & Hs3k & Hs3o).
  rewrite Hs3. split; [apply lookup_delete_eq|]. split.
  - unfold setAt at 1. rewrite lookup_delete_ne by done.
    fold (setAt s3 (watchedKeyOf o)). rewrite Hs3k. set_solver.
  - intros j Hj. destruct (decide (j = nameOf o)) as [->|Hjn].
    + by rewrite lookup_delete_eq.
    + rewrite lookup_delete_ne by done. rewrite Hs3o by done.
      subst s2. rewrite lookup_insert_ne by done. by apply Hs1o.
Qed.

Lemma dialog_add_then_remove_witness :
  let env := exampleEnv false in
  let o := mkObj [("subscriber", PStr "alice@example.com");
                  ("resource", PStr "bob@example.com");
                  ("eventType", PStr "dialog")] in
  let w := freshWorld false in
  let w1 := (dialogAddSubscription env exampleDialog (VObj o) (PNum 3600) w).2 in
  ∃ w2,
    dialogRemoveSubscription (VObj o) w1 = (Ok tt, w2)
    ∧ store w2 !! nameOf o = None
    ∧ setAt (store w2) (watchedKeyOf o)
      = setAt (store w) (watchedKeyOf o) ∖ {[nameOf o]}
    ∧ (∀ j, j ≠ watchedKeyOf o → store w2 !! j = store w !! j).
Proof.
  intros env o w.
  apply (dialog_add_then_remove env exampleDialog o 3600 w).
  - reflexivity.
  - reflexivity.
  - apply lookup_empty.
  - left. apply lookup_empty.
Defined.

(** *** Reading the state of a dialog subscription *)

Lemma dialogGetEventState_run subscriber resource w :
  faults w = [] →
  (store w !! makeDialogInfoKey (toString resource) = None
   ∨ ∃ h t, store w !! makeDialogInfoKey (toString resource)
            = Some (mkEntry (RHash h) t)) →
  dialogGetEventState subscriber resource w
  = (Ok (match liveData (store w)
                 (makeSubscriptionName (toString subscriber) (toString resource))
         with
         | Some sd =>
             Some (dialogStateOf resource (ofHash sd)
                     (dialogInfoOf (store w) resource))
         | None => None
         end), w).
Proof.
  intros Hf Hinfo.
  unfold dialogGetEventState, tryCatch, bind, dialogInfoOf, liveData.
  rewrite !hgetallAsync_ok by done. unfold hgetall.
  destruct Hinfo as [Hi|(h & t & Hi)]; rewrite Hi; cbn beta iota;
    by destruct (store w !! makeSubscriptionName _ _) as [[[] ?]|].
Qed.

Lemma hgetallAsync_frame key w :
  store (hgetallAsync key w).2 = store w ∧ trace (hgetallAsync key w).2 = trace w.
Proof. unfold hgetallAsync, roundTrip. by destruct (faults w) as [|[] fs]. Qed.

Lemma dialogGetEventState_frame subscriber resource w :
  store (dialogGetEventState subscriber resource w).2 = store w
  ∧ trace (dialogGetEventState subscriber resource w).2 = trace w.
Proof.
  unfold dialogGetEventState, tryCatch, bind.
  pose proof (hgetallAsync_frame (makeDialogInfoKey (toString resource)) w) as H1.
  destruct (hgetallAsync (makeDialogInfoKey (toString resource)) w)
    as [[di|e] w1]; cbn in *; [|done].
  pose proof (hgetallAsync_frame
                (makeSubscriptionName (toString subscriber) (toString resource))
                w1) as H2.
  destruct (hgetallAsync _ w1) as [[[sd|]|e] w2]; cbn in *;
    destruct H1, H2; split; congruence.
Qed.

(** X10: [dialogGetEventState] never throws, whatever the store holds and
    answers, and changes nothing; with the store answering, it returns
    nothing when the subscription record is gone, and otherwise the
    document rendered from the record and from the dialog information of
    the resource, under the tag of the record. *)
Theorem dialogGetEventState_reads (subscriber resource : prim) (w : World) :
  let name :=
    makeSubscriptionName (toString subscriber) (toString resource) in
  let r := dialogGetEventState subscriber resource w in
  (∃ v, r.1 = Ok v)
  ∧ store r.2 = store w ∧ trace r.2 = trace w
  ∧ (faults w = [] → store w !! name = None → r.1 = Ok None)
  ∧ (faults w = [] →
     (store w !! makeDialogInfoKey (toString resource) = None
      ∨ ∃ h t, store w !! makeDialogInfoKey (toString resource)
               = Some (mkEntry (RHash h) t)) →
     ∀ sd t, store w !! name = Some (mkEntry (RHash sd) t) →
       r.1 = Ok (Some (dialogStateOf resource (ofHash sd)
                         (dialogInfoOf (store w) resource)))).
Proof.
  intros name r. split; [|split; [|split; [|split]]].
  - subst r. unfold dialogGetEventState.
    destruct (tryCatch_ret_total
                (dialogInfo <- hgetallAsync (makeDialogInfoKey (toString resource)) ;;
                 subscriptionData <- hgetallAsync name ;;
                 match subscriptionData with
                 | None => ret None
                 | Some sd =>
                     ret (Some (mkObj
                       [("aor", resource);
                        ("etag", prop (ofHash sd) "etag");
                        ("eventType", PStr "dialog");
                        ("contentType", PStr "application/dialog-info+xml");
                        ("content",
                         PStr (makeXmlContent (ofHash sd)
                                 (ofHash (default ∅ dialogInfo))))]))
                 end) None w) as (v & w' & Hr).
    fold name. rewrite Hr. by eexists.
  - apply (dialogGetEventState_frame subscriber resource w).
  - apply (dialogGetEventState_frame subscriber resource w).
  - intros Hf Hn. subst r.
    unfold dialogGetEventState, tryCatch, bind.
    rewrite !hgetallAsync_ok by done.
    destruct (hgetall (store w) (makeDialogInfoKey (toString resource)))
      as [di|e]; cbn; [|done].
    unfold hgetall. fold name. by rewrite Hn.
  - intros Hf Hinfo sd t Hn. subst r.
    rewrite dialogGetEventState_run by done. fold name.
    unfold liveData. by rewrite Hn.
Qed.

(** What [hgetall] reads back of what [hmset] wrote: every value as its
    string. *)
Lemma putFields_toFields l : ∀ h (o : jsobj),
  h = toString <$> o →
  putFields (toFields l) h = toString <$> fold_left (λ o kv, <[kv.1 := kv.2]> o) l o.
Proof.
  induction l as [|[k v] l IH]; intros h o Ho; [done|].
  unfold putFields, toFields in *. cbn [fmap list_fmap fold_left fst snd].
  apply IH. by rewrite Ho, fmap_insert.
Qed.

Lemma ofHash_putFields l :
  ofHash (putFields (toFields l) ∅) = (λ p, PStr (toString p)) <$> mkObj l.
Proof.
  unfold ofHash, mkObj.
  rewrite (putFields_toFields l ∅ ∅) by (by rewrite fmap_empty).
  by rewrite <- map_fmap_compose.
Qed.

(** The document depends on the record through the strings of its [aor]
    and the number of its [count] only. *)
Lemma makeXmlContent_record sd sd' info :
  toString (prop sd' "aor") = toString (prop sd "aor") →
  toNumeric (prop sd' "count") = toNumeric (prop sd "count") →
  makeXmlContent sd' info = makeXmlContent sd info.
Proof.
  intros Ha Hc. unfold makeXmlContent. cbn zeta. rewrite Hc.
  assert (toString (por (prop info "aor") (prop sd' "aor"))
          = toString (por (prop info "aor") (prop sd "aor"))) as ->; [|done].
  unfold por. by destruct (truthy (prop info "aor")).
Qed.

Lemma info_key_not_name a subscriber resource :
  makeDialogInfoKey a ≠ makeSubscriptionName subscriber resource.
Proof. unfold makeDialogInfoKey, makeSubscriptionName. by cbn. Qed.

(** X11: Right after [dialogAddSubscription] has written the record of a
    subscription, [dialogGetEventState] returns for it the document
    rendered from the record that [dialogAddSubscription] returned, under
    the tag generated for the record. *)
Theorem dialog_state_after_add (env : Env) (dlg : Dlg) (o : jsobj) (n : Z)
    (w : World) :
  faults w = [] →
  0 < n →
  store w !! nameOf o = None →
  (store w !! watchedKeyOf o = None
   ∨ ∃ ms t, store w !! watchedKeyOf o = Some (mkEntry (RSet ms) t)) →
  (store w !! makeDialogInfoKey (toString (prop o "resource")) = None
   ∨ ∃ h t, store w !! makeDialogInfoKey (toString (prop o "resource"))
            = Some (mkEntry (RHash h) t)) →
  let data :=
    subscriptionDataOf env dlg o (hd 0 (entropy w)) (hd 0 (tl (entropy w))) in
  let w1 := (dialogAddSubscription env dlg (VObj o) (PNum n) w).2 in
  ∃ st,
    dialogGetEventState (prop o "subscriber") (prop o "resource") w1
    = (Ok (Some st), w1)
    ∧ prop st "aor" = prop o "resource"
    ∧ prop st "etag" = PStr (generateETag env (hd 0 (entropy w)))
    ∧ prop st "contentType" = PStr "application/dialog-info+xml"
    ∧ prop st "content"
      = PStr (makeXmlContent (mkObj data) (dialogInfoOf (store w) (prop o "resource"))).
Proof.
  intros Hf Hn Hname Hkey Hinfo data w1.
  set (ik := makeDialogInfoKey (toString (prop o "resource"))) in *.
  assert (ik ≠ nameOf o) as Hin by apply info_key_not_name.
  assert (ik ≠ watchedKeyOf o) as Hik.
  { intros E. symmetry in E. by apply watched_key_not_info_key in E. }
  assert (nameOf o ≠ watchedKeyOf o) as Hne
    by apply subscription_name_not_watched_key.
  assert (faults w1 = []
          ∧ (∃ tn, store w1 !! nameOf o
               = Some (mkEntry (RHash (putFields (toFields data) ∅)) tn))
          ∧ store w1 !! ik = store w !! ik) as (Hf1 & [tn Hrec] & Hik1).
  { subst w1. rewrite dialogAddSubscription_run by done. fold data.
    cbn [snd store faults setStore setEntropy].
    destruct (apply_SADD_spec (watchedKeyOf o) (nameOf o) (store w) Hkey)
      as (s1 & Hs1 & _ & Hs1o).
    rewrite Hs1. cbn [from_option id].
    rewrite (applyAll_HMSET_EXPIRE_fresh_pos (nameOf o) _ n s1);
      [|done|done|by rewrite Hs1o].
    rewrite lookup_insert_eq, lookup_insert_ne by done.
    rewrite Hs1o by done. split; [done|]. split; [by eexists|done]. }
  rewrite dialogGetEventState_run; [|done|fold ik; by rewrite Hik1].
  fold (nameOf o). unfold liveData at 1. rewrite Hrec.
  eexists. split; [reflexivity|].
  assert (dialogInfoOf (store w1) (prop o "resource")
          = dialogInfoOf (store w) (prop o "resource")) as ->.
  { unfold dialogInfoOf, liveData. fold ik. by rewrite Hik1. }
  rewrite ofHash_putFields.
  unfold dialogStateOf, prop, mkObj. cbn [fold_left fst snd].
  split; [|split; [|split]].
  - by rewrite !lookup_insert_ne, lookup_insert_eq by done.
  - rewrite !lookup_insert_ne, lookup_insert_eq by done. cbn [default from_option id].
    subst data. unfold subscriptionDataOf. rewrite lookup_fmap.
    cbn [fold_left fst snd].
    by rewrite !lookup_insert_ne, lookup_insert_eq by done.
  - by rewrite !lookup_insert_ne, lookup_insert_eq by done.
  - rewrite lookup_insert_eq. cbn [default from_option id]. f_equal.
    apply makeXmlContent_record.
    + unfold prop. rewrite lookup_fmap. subst data. unfold subscriptionDataOf, mkObj.
      cbn [fold_left fst snd].
      by rewrite !lookup_insert_ne, lookup_insert_eq by done.
    + unfold prop. rewrite lookup_fmap. subst data. unfold subscriptionDataOf, mkObj.
      cbn [fold_left fst snd].
      rewrite !lookup_insert_ne, lookup_insert_eq by done.
      vm_compute. reflexivity.
Qed.

Lemma dialog_state_after_add_witness :
  let env := exampleEnv false in
  let o := mkObj [("subscriber", PStr "alice@example.com");
                  ("resource", PStr "bob@example.com");
                  ("eventType", PStr "dialog")] in
  let w := freshWorld false in
  let data :=
    subscriptionDataOf env exampleDialog o (hd 0 (entropy w))
      (hd 0 (tl (entropy w))) in
  let w1 := (dialogAddSubscription env exampleDialog (VObj o) (PNum 3600) w).2 in
  ∃ st,
    dialogGetEventState (prop o "subscriber") (prop o "resource") w1
    = (Ok (Some st), w1)
    ∧ prop st "aor" = prop o "resource"
    ∧ prop st "etag" = PStr (generateETag env (hd 0 (entropy w)))
    ∧ prop st "contentType" = PStr "application/dialog-info+xml"
    ∧ prop st "content"
      = PStr (makeXmlContent (mkObj data) (dialogInfoOf (store w) (prop o "resource"))).
Proof.
  intros env o w.
  apply (dialog_state_after_add env exampleDialog o 3600 w).
  - reflexivity.
  - reflexivity.
  - apply lookup_empty.
  - left. apply lookup_empty.
  - left. apply lookup_empty.
Defined.

Lemma applyAll_HMSET_EXPIRE k fs n s :
  fs ≠ [] → 0 < n → n < 2 ^ 53 →
  (s !! k = None ∨ ∃ h t, s !! k = Some (mkEntry (RHash h) t)) →
  applyAll [HMSET k fs; EXPIRE k (PNum n)] s
  = <[k := mkEntry (RHash (putFields fs (default ∅ (liveData s k)))) (Some n)]> s.
Proof.
  intros Hfs Hn Hm [Hk|(h & t & Hk)].
  - unfold liveData. rewrite Hk. by apply applyAll_HMSET_EXPIRE_fresh.
  - destruct fs as [|f fs]; [done|].
    unfold applyAll, liveData. cbn [fold_left].
    rewrite (apply_HMSET_hash _ _ _ h t s Hk). cbn [from_option id].
    erewrite apply_EXPIRE_live; [|done|done|apply lookup_insert_eq].
    cbn [from_option id]. by rewrite insert_insert_eq, Hk.
Qed.

(** *** A dialog event that does not end the dialog *)

(** X12: On a dialog event whose state is not terminal (the store answering,
    the dialog-info key of the resource free or holding a record), the
    handler merges the fields of the event into the record, whose time to
    live becomes three hours, then sends one NOTIFY, rendered from the
    event, to each watcher whose record is in the store, removes from the
    watched-resource set the members whose record is absent, and touches
    no other key. *)
Theorem onMessage_state_upsert (w : World) (msg : string) :
  faults w = [] →
  isTerminal (item (splitSpaces "" msg) 6) = false →
  let aor := toString (item (splitSpaces "" msg) 0) in
  let key := makeSubscribedResourceKey aor in
  let info := makeDialogInfoKey aor in
  (store w !! info = None
   ∨ ∃ h t, store w !! info = Some (mkEntry (RHash h) t)) →
  let record :=
    mkEntry (RHash (putFields (messageFields msg)
                      (default ∅ (liveData (store w) info))))
      (Some MAX_CALL_LENGTH) in
  let s1 := <[info := record]> (store w) in
  let watchers := elements (setAt s1 key) in
  ∃ w',
    onMessage msg w = (Ok tt, w')
    ∧ store w' !! info = Some record
    ∧ trace w' = (trace w
                  ++ notifications (messageInfo msg) (net w)
                       (omap (liveData s1) watchers))%list
    ∧ setAt (store w') key = filter (λ m, is_Some (s1 !! m)) (setAt s1 key)
    ∧ (∀ j, j ≠ key → j ≠ info → store w' !! j = store w !! j).
Proof.
  intros Hf Hterm aor key info Hinfo record s1 watchers.
  set (w1 := setStore (λ _, s1) w).
  assert (faults w1 = []) as Hf1 by done.
  destruct (watcherFold_spec key (messageInfo msg) watchers w1)
    as (Hset & Hfr & Htr).
  { apply NoDup_elements. }
  { intros m Hm. by apply elem_of_elements in Hm. }
  exists (foldl (watcherStep key (messageInfo msg)) w1 watchers).
  split; [|split; [|split; [|split]]].
  - unfold onMessage. rewrite Hterm.
    unfold bind at 1. unfold detached at 1.
    fold aor. fold info.
    change (toFields _) with (messageFields msg).
    rewrite multiExec_ok by done. cbn [snd].
    assert (setStore
              (applyAll [HMSET info (messageFields msg);
                         EXPIRE info (PNum MAX_CALL_LENGTH)]) w = w1) as ->.
    { unfold w1, setStore.
      rewrite (applyAll_HMSET_EXPIRE info (messageFields msg) MAX_CALL_LENGTH)
        by (try done; unfold messageFields, toFields; by cbn).
      done. }
    unfold tryCatch, bind, smembersAsync, roundTrip. rewrite Hf1.
    fold key. fold (messageInfo msg).
    change (store w1) with s1.
    unfold smembers. subst watchers. unfold setAt.
    destruct (s1 !! key) as [[[] t]|]; try done;
      try (by rewrite elements_empty).
    by rewrite forEach_run.
  - rewrite Hfr by (apply not_eq_sym, watched_key_not_info_key).
    apply lookup_insert_eq.
  - exact Htr.
  - rewrite Hset. apply set_eq. intros m. rewrite !elem_of_filter.
    split; [|tauto]. intros [[Hc|Hc] Hm]; [|done].
    exfalso. apply Hc. by apply elem_of_elements.
  - intros j Hj1 Hj2. rewrite Hfr by done. by apply lookup_insert_ne.
Qed.

Lemma onMessage_state_upsert_witness :
  let msg := "bob@example.com d1 call9 lt undef initiator confirmed" in
  let w := fanoutWorld in
  let aor := toString (item (splitSpaces "" msg) 0) in
  let key := makeSubscribedResourceKey aor in
  let info := makeDialogInfoKey aor in
  let record :=
    mkEntry (RHash (putFields (messageFields msg)
                      (default ∅ (liveData (store w) info))))
      (Some MAX_CALL_LENGTH) in
  let s1 := <[info := record]> (store w) in
  let watchers := elements (setAt s1 key) in
  ∃ w',
    onMessage msg w = (Ok tt, w')
    ∧ store w' !! info = Some record
    ∧ trace w' = (trace w
                  ++ notifications (messageInfo msg) (net w)
                       (omap (liveData s1) watchers))%list
    ∧ setAt (store w') key = filter (λ m, is_Some (s1 !! m)) (setAt s1 key)
    ∧ (∀ j, j ≠ key → j ≠ info → store w' !! j = store w !! j).
Proof.
  intros msg w.
  apply (onMessage_state_upsert w msg).
  - reflexivity.
  - vm_compute. reflexivity.
  - right. eexists _, _. vm_compute. reflexivity.
Defined.

(** *** Subscriptions outside the packages *)

Lemma apply_SET k v s :
  apply (SET k v) s = Some (<[k := mkEntry (RStr v) None]> s).
Proof. done. Qed.

Lemma apply_DEL k s : apply (DEL (Some k)) s = Some (delete k s).
Proof. done. Qed.

Lemma applyAll_cons c cs s :
  applyAll (c :: cs) s = applyAll cs (default s (apply c s)).
Proof. done. Qed.

Lemma applyAll_app cs cs' s :
  applyAll (cs ++ cs') s = applyAll cs' (applyAll cs s).
Proof. unfold applyAll. apply fold_left_app. Qed.

Lemma applyAll_SET_EXPIRE k v n s :
  0 < n → n < 2 ^ 53 →
  applyAll [SET k v; EXPIRE k (PNum n)] s = <[k := mkEntry (RStr v) (Some n)]> s.
Proof.
  intros Hn Hm. rewrite applyAll_cons, apply_SET. cbn [from_option id].
  rewrite applyAll_cons.
  erewrite apply_EXPIRE_live; [|done|done|apply lookup_insert_eq].
  cbn [from_option id applyAll fold_left]. apply insert_insert_eq.
Qed.

Lemma applyAll_SET_EXPIRE_pos k v n s :
  0 < n →
  applyAll [SET k v; EXPIRE k (PNum n)] s
  = <[k := mkEntry (RStr v) (ttlAfterExpire n None)]> s.
Proof.
  intros Hn. rewrite applyAll_cons, apply_SET. cbn [from_option id].
  rewrite applyAll_cons.
  rewrite (apply_EXPIRE_pos k n (RStr v) None
              (<[k := mkEntry (RStr v) None]> s) Hn)
    by apply lookup_insert_eq.
  cbn [from_option id applyAll fold_left]. apply insert_insert_eq.
Qed.

(** The fields of an object, written to a hash, are the object with every
    value as its string, over what the hash held. *)
Lemma putFields_objFields_union (o : jsobj) (h : gmap string string) :
  putFields (objFields o) h = (toString <$> o) ∪ h.
Proof.
  unfold putFields, objFields.
  assert (∀ (l : list (string * string)) (h : gmap string string),
            fold_left (λ m kv, <[kv.1 := kv.2]> m) l h
            = (list_to_map (reverse l) : gmap string string) ∪ h) as Hfold.
  { induction l as [|[k v] l IH]; intros h'.
    - cbn. by rewrite (left_id_L ∅ (∪)).
    - cbn [fold_left fst snd]. rewrite IH, reverse_cons, list_to_map_app.
      cbn [list_to_map foldr fst snd uncurry].
      by rewrite <- (assoc_L (∪)), <- insert_union_l, (left_id_L ∅ (∪)). }
  rewrite Hfold. f_equal.
  rewrite <- (list_to_map_to_list (toString <$> o)).
  symmetry. apply list_to_map_proper; [apply NoDup_fst_map_to_list|].
  rewrite reverse_Permutation, map_to_list_fmap.
  assert ((prod_map id toString <$> map_to_list o)
          = ((λ kv : string * prim, (kv.1, toString kv.2)) <$> map_to_list o))
    as ->; [|done].
  apply list_fmap_ext. by intros ? [].
Qed.

Lemma putFields_objFields (o : jsobj) :
  putFields (objFields o) ∅ = toString <$> o.
Proof. by rewrite putFields_objFields_union, (right_id_L ∅ (∪)). Qed.

Lemma objFields_nonempty (o : jsobj) : o ≠ ∅ → objFields o ≠ [].
Proof.
  intros Ho Hl. apply Ho. unfold objFields in Hl.
  apply fmap_nil_inv in Hl. by apply map_to_list_empty_iff.
Qed.

Lemma sub_keys_distinct env u o :
  subKeyOf env u ≠ keyDialogOf o ∧ subKeyOf env u ≠ keyIdOf o
  ∧ keyDialogOf o ≠ keyIdOf o.
Proof.
  unfold subKeyOf, keyDialogOf, keyIdOf, makeSubStateKey, makeSubStateKeyDialog,
    makeSubStateKeyId. by cbn.
Qed.

(** [addSubscription] outside the packages, as a function of the store. *)
Lemma addSubscription_generic_run env dlg o expiry w :
  faults w = [] → expiry ≠ PUndef →
  hasPackage env (prop o "eventType") = false →
  let key := subKeyOf env (hd 0 (entropy w)) in
  addSubscription env dlg (VObj o) expiry w
  = (Ok (VObj o),
     setStore
       (applyAll
          ([HMSET key (objFields o); SET (keyDialogOf o) key;
            EXPIRE key expiry; EXPIRE (keyDialogOf o) expiry]
           ++ (if truthy (prop o "id")
               then [SET (keyIdOf o) key; EXPIRE (keyIdOf o) expiry]
               else [])))
       (setEntropy (tl (entropy w)) w)).
Proof.
  intros Hf Hu Hp key.
  unfold addSubscription, bind at 1, lift, getProp.
  fold (prop o "eventType"). rewrite Hp.
  unfold bind at 1. rewrite nextUuid_run.
  unfold bind at 1 2 3 4.
  fold (prop o "subscriber"). fold (prop o "resource").
  fold (prop o "callId"). fold (prop o "id").
  fold (keyDialogOf o). fold (keyIdOf o). fold (subKeyOf env (hd 0 (entropy w))).
  fold key. unfold bind.
  rewrite multiExec_ok; [done|done|].
  rewrite existsb_app. by destruct (truthy (prop o "id")), expiry.
Qed.

(** The store after [addSubscription] outside the packages. *)
Lemma addSubscription_generic_store env o n s u :
  0 < n → o ≠ ∅ → s !! subKeyOf env u = None →
  let key := subKeyOf env u in
  let s' :=
    applyAll
      ([HMSET key (objFields o); SET (keyDialogOf o) key;
        EXPIRE key (PNum n); EXPIRE (keyDialogOf o) (PNum n)]
       ++ (if truthy (prop o "id")
           then [SET (keyIdOf o) key; EXPIRE (keyIdOf o) (PNum n)]
           else [])) s in
  let ttl := ttlAfterExpire n None in
  s' !! key = Some (mkEntry (RHash (toString <$> o)) ttl)
  ∧ s' !! keyDialogOf o = Some (mkEntry (RStr key) ttl)
  ∧ (truthy (prop o "id") = true →
     s' !! keyIdOf o = Some (mkEntry (RStr key) ttl))
  ∧ (∀ j, j ∉ subscriptionKeys env u o → s' !! j = s !! j).
Proof.
  intros Hn Ho Hfresh key s' ttl.
  destruct (sub_keys_distinct env u o) as (H1 & H2 & H3). fold key in H1, H2.
  pose proof (objFields_nonempty o Ho) as Hne.
  assert (applyAll [HMSET key (objFields o); SET (keyDialogOf o) key;
                    EXPIRE key (PNum n); EXPIRE (keyDialogOf o) (PNum n)] s
          = <[keyDialogOf o := mkEntry (RStr key) ttl]>
              (<[key := mkEntry (RHash (toString <$> o)) ttl]> s)) as Hfour.
  { destruct (objFields o) as [|f fs] eqn:Ef; [done|].
    rewrite applyAll_cons, (apply_HMSET_fresh _ _ _ s Hfresh).
    cbn [from_option id]. rewrite <- Ef, putFields_objFields.
    rewrite applyAll_cons, apply_SET. cbn [from_option id].
    rewrite applyAll_cons.
    erewrite apply_EXPIRE_pos;
      [|done|rewrite lookup_insert_ne by done; apply lookup_insert_eq].
    rewrite applyAll_cons.
    erewrite apply_EXPIRE_pos;
      [|done|rewrite lookup_insert_ne by done; apply lookup_insert_eq].
    cbn [applyAll fold_left]. fold ttl.
    apply map_eq. intros j.
    destruct (decide (j = keyDialogOf o)) as [->|Hj1].
    { by rewrite !lookup_insert_eq. }
    rewrite (lookup_insert_ne _ (keyDialogOf o)) by done.
    rewrite (lookup_insert_ne _ (keyDialogOf o)) by done.
    destruct (decide (j = key)) as [->|Hj2].
    { by rewrite !lookup_insert_eq. }
    rewrite !lookup_insert_ne by done. done. }
  subst s'. rewrite applyAll_app, Hfour. unfold subscriptionKeys.
  fold key. destruct (truthy (prop o "id")) eqn:Eid.
  - rewrite applyAll_SET_EXPIRE_pos by done. fold ttl.
    split; [|split; [|split]].
    + rewrite !lookup_insert_ne by done. apply lookup_insert_eq.
    + rewrite lookup_insert_ne by done. apply lookup_insert_eq.
    + intros _. apply lookup_insert_eq.
    + intros j Hj. rewrite !lookup_insert_ne; [done|..];
        intros <-; apply Hj; set_solver.
  - cbn [applyAll fold_left]. split; [|split; [|split]].
    + rewrite !lookup_insert_ne by done. apply lookup_insert_eq.
    + apply lookup_insert_eq.
    + done.
    + intros j Hj. rewrite !lookup_insert_ne; [done|..];
        intros <-; apply Hj; set_solver.
Qed.

(** X13: With the store answering, [addSubscription] for an event type that no
    package handles, a descriptor that holds strings and an expiry of 1 to
    [2^53 - 1] seconds writes the descriptor
    under a fresh random name, and the name under the key built from
    subscriber, resource, event type and Call-ID and, when the descriptor
    has an [id], under the key built with the [id]; all of them with a
    time to live equal to the expiry; it touches no other key and returns
    the descriptor. *)
Theorem addSubscription_generic_writes (env : Env) (dlg : Dlg) (o : jsobj)
    (n : Z) (w : World) :
  faults w = [] →
  hasPackage env (prop o "eventType") = false →
  0 < n → n < 2 ^ 53 →
  stringValued o →
  o ≠ ∅ →
  store w !! subKeyOf env (hd 0 (entropy w)) = None →
  let key := subKeyOf env (hd 0 (entropy w)) in
  ∃ w',
    addSubscription env dlg (VObj o) (PNum n) w = (Ok (VObj o), w')
    ∧ store w' !! key = Some (mkEntry (RHash (toString <$> o)) (Some n))
    ∧ store w' !! keyDialogOf o = Some (mkEntry (RStr key) (Some n))
    ∧ (truthy (prop o "id") = true →
       store w' !! keyIdOf o = Some (mkEntry (RStr key) (Some n)))
    ∧ (∀ j, j ∉ subscriptionKeys env (hd 0 (entropy w)) o →
            store w' !! j = store w !! j).
Proof.
  intros Hf Hp Hn Hm _ Ho Hfresh key.
  rewrite addSubscription_generic_run by done.
  eexists. split; [reflexivity|]. cbn [store setStore setEntropy].
  rewrite <- (ttlAfterExpire_safe n None Hn Hm).
  by apply addSubscription_generic_store.
Qed.

Lemma addSubscription_generic_writes_witness :
  let env := exampleEnv false in
  let o := mkObj [("subscriber", PStr "alice@example.com");
                  ("resource", PStr "bob@example.com");
                  ("eventType", PStr "presence");
                  ("callId", PStr "call1")] in
  let w := freshWorld false in
  let key := subKeyOf env (hd 0 (entropy w)) in
  ∃ w',
    addSubscription env exampleDialog (VObj o) (PNum 3600) w = (Ok (VObj o), w')
    ∧ store w' !! key = Some (mkEntry (RHash (toString <$> o)) (Some 3600))
    ∧ store w' !! keyDialogOf o = Some (mkEntry (RStr key) (Some 3600))
    ∧ (truthy (prop o "id") = true →
       store w' !! keyIdOf o = Some (mkEntry (RStr key) (Some 3600)))
    ∧ (∀ j, j ∉ subscriptionKeys env (hd 0 (entropy w)) o →
            store w' !! j = store w !! j).
Proof.
  intros env o w.
  apply (addSubscription_generic_writes env exampleDialog o 3600 w).
  - reflexivity.
  - vm_compute. reflexivity.
  - reflexivity.
  - reflexivity.
  - unfold stringValued, o, mkObj. cbn [fold_left fst snd].
    repeat (apply map_Forall_insert_2; [by eexists|]).
    apply map_Forall_empty.
  - apply insert_non_empty.
  - apply lookup_empty.
Defined.

(** [removeSubscription] outside the packages, as a function of the store,
    when the client sends what it is given. *)
Lemma removeSubscription_generic_run env o w value :
  faults w = [] →
  hasPackage env (prop o "eventType") = false →
  get (store w) (keyDialogOf o) = Ok value →
  (is_Some value ∨ nullArgThrows w = false) →
  removeSubscription env (VObj o) w
  = (Ok tt,
     setStore
       (applyAll
          ([DEL (Some (keyDialogOf o)); DEL value]
           ++ (if truthy (prop o "id") then [DEL (Some (keyIdOf o))] else [])))
       w).
Proof.
  intros Hf Hp Hget Hnull.
  unfold removeSubscription, bind at 1, lift, getProp.
  fold (prop o "eventType"). rewrite Hp.
  unfold bind at 1 2 3 4.
  fold (prop o "subscriber"). fold (prop o "resource").
  fold (prop o "callId"). fold (prop o "id").
  fold (keyDialogOf o). fold (keyIdOf o).
  unfold bind. rewrite getAsync_ok, Hget by done.
  unfold multiExec. rewrite roundTrip_ok by done.
  assert (existsb hasNullArg
            ([DEL (Some (keyDialogOf o)); DEL value]
             ++ (if truthy (prop o "id") then [DEL (Some (keyIdOf o))] else []))
          && nullArgThrows w = false) as ->; [|done].
  destruct Hnull as [[v Hv] | Hv]; rewrite Hv.
  - rewrite existsb_app. by destruct (truthy (prop o "id")).
  - apply andb_false_r.
Qed.

(** X14: Removing undoes adding, outside the packages too: with the store
    answering, [addSubscription] followed by [removeSubscription] for the
    same descriptor leaves none of the keys of the subscription and every
    other key as it was. *)
Theorem generic_add_then_remove (env : Env) (dlg : Dlg) (o : jsobj) (n : Z)
    (w : World) :
  faults w = [] →
  hasPackage env (prop o "eventType") = false →
  0 < n →
  o ≠ ∅ →
  store w !! subKeyOf env (hd 0 (entropy w)) = None →
  let w1 := (addSubscription env dlg (VObj o) (PNum n) w).2 in
  ∃ w2,
    removeSubscription env (VObj o) w1 = (Ok tt, w2)
    ∧ (∀ j, j ∈ subscriptionKeys env (hd 0 (entropy w)) o → store w2 !! j = None)
    ∧ (∀ j, j ∉ subscriptionKeys env (hd 0 (entropy w)) o →
            store w2 !! j = store w !! j).
Proof.
  intros Hf Hp Hn Ho Hfresh w1.
  set (u := hd 0 (entropy w)) in *.
  destruct (sub_keys_distinct env u o) as (H1 & H2 & H3).
  assert (faults w1 = []
          ∧ store w1 !! keyDialogOf o
            = Some (mkEntry (RStr (subKeyOf env u)) (ttlAfterExpire n None))
          ∧ (∀ j, j ∉ subscriptionKeys env u o → store w1 !! j = store w !! j))
    as (Hf1 & Hkd & Hother).
  { subst w1. rewrite addSubscription_generic_run by done.
    cbn [snd store faults setStore setEntropy]. split; [done|].
    destruct (addSubscription_generic_store env o n (store w) u Hn Ho Hfresh)
      as (_ & Hb & _ & Hd). by split. }
  rewrite (removeSubscription_generic_run env o w1 (Some (subKeyOf env u)));
    [|done|done|unfold get; by rewrite Hkd|left; by eexists].
  eexists. split; [reflexivity|]. cbn [store setStore].
  rewrite applyAll_app, !applyAll_cons, !apply_DEL. cbn [from_option id].
  unfold subscriptionKeys.
  destruct (truthy (prop o "id")) eqn:Eid.
  - rewrite applyAll_cons, apply_DEL.
    cbn [from_option id applyAll fold_left app]. split.
    + intros j Hj. rewrite !elem_of_cons, elem_of_nil in Hj.
      destruct Hj as [->|[->|[->|[]]]].
      * rewrite lookup_delete_ne by done. apply lookup_delete_eq.
      * rewrite !lookup_delete_ne by done. apply lookup_delete_eq.
      * apply lookup_delete_eq.
    + intros j Hj. rewrite !lookup_delete_ne; [|intros <-; apply Hj; set_solver..].
      apply Hother. unfold subscriptionKeys. by rewrite Eid.
  - cbn [applyAll fold_left app]. split.
    + intros j Hj. rewrite !elem_of_cons, elem_of_nil in Hj.
      destruct Hj as [->|[->|[]]].
      * apply lookup_delete_eq.
      * rewrite !lookup_delete_ne by done. apply lookup_delete_eq.
    + intros j Hj. rewrite !lookup_delete_ne; [|intros <-; apply Hj; set_solver..].
      apply Hother. unfold subscriptionKeys. by rewrite Eid.
Qed.

Lemma generic_add_then_remove_witness :
  let env := exampleEnv false in
  let o := mkObj [("subscriber", PStr "alice@example.com");
                  ("resource", PStr "bob@example.com");
                  ("eventType", PStr "presence");
                  ("id", PStr "7");
                  ("callId", PStr "call1")] in
  let w := freshWorld false in
  let w1 := (addSubscription env exampleDialog (VObj o) (PNum 3600) w).2 in
  ∃ w2,
    removeSubscription env (VObj o) w1 = (Ok tt, w2)
    ∧ (∀ j, j ∈ subscriptionKeys env (hd 0 (entropy w)) o → store w2 !! j = None)
    ∧ (∀ j, j ∉ subscriptionKeys env (hd 0 (entropy w)) o →
            store w2 !! j = store w !! j).
Proof.
  intros env o w.
  apply (generic_add_then_remove env exampleDialog o 3600 w).
  - reflexivity.
  - vm_compute. reflexivity.
  - reflexivity.
  - apply insert_non_empty.
  - apply lookup_empty.
Defined.

(** *** The record of a dialog subscription outlives its removal *)

Lemma multiExec_store cs w :
  store (multiExec cs w).2 = store w
  ∨ store (multiExec cs w).2 = applyAll cs (store w).
Proof.
  unfold multiExec, roundTrip.
  destruct (faults w) as [|[] fs]; cbn; try (by left);
    destruct (existsb hasNullArg cs && nullArgThrows w); cbn; auto.
Qed.

Lemma getAsync_outcome key w :
  store (getAsync key w).2 = store w
  ∧ nullArgThrows (getAsync key w).2 = nullArgThrows w
  ∧ ((∃ e, (getAsync key w).1 = Throw e)
     ∨ (getAsync key w).1 = get (store w) key).
Proof.
  unfold getAsync, roundTrip.
  destruct (faults w) as [|[] fs]; cbn; repeat split; eauto.
Qed.

(** X16: The subscriptions of the dialog package are removed with the record
    that [dialogAddSubscription] returned, which has no [eventType],
    [subscriber], [resource] or [callId]: [removeSubscription] then takes
    the way of the events without a package and, whatever the store
    answers (it holding nothing under the lookup key of that way), leaves
    the record of the subscription and the watched-resource set as they
    are. *)
Theorem removal_misses_dialog_record (env : Env) (dlg : Dlg) (o : jsobj)
    (etagUuid idUuid : Z) (w : World) :
  let sub := mkObj (subscriptionDataOf env dlg o etagUuid idUuid) in
  store w !! keyDialogOf sub = None →
  let r := removeSubscription env (VObj sub) w in
  keyDialogOf sub = "subkeydlg:undefined:undefined:undefined:undefined"
  ∧ store r.2 !! nameOf o = store w !! nameOf o
  ∧ store r.2 !! watchedKeyOf o = store w !! watchedKeyOf o.
Proof.
  intros sub Hkd r.
  assert (prop sub "eventType" = PUndef ∧ prop sub "subscriber" = PUndef
          ∧ prop sub "resource" = PUndef ∧ prop sub "callId" = PUndef)
    as (He & Hs & Hr & Hc).
  { unfold prop, sub, subscriptionDataOf, mkObj. cbn [fold_left fst snd].
    by rewrite !lookup_insert_ne, lookup_empty by done. }
  assert (keyDialogOf sub = "subkeydlg:undefined:undefined:undefined:undefined")
    as Hname.
  { unfold keyDialogOf. by rewrite He, Hs, Hr, Hc. }
  split; [exact Hname|].
  assert (hasPackage env (prop sub "eventType") = false) as Hp.
  { rewrite He. unfold hasPackage. rewrite bool_decide_eq_false_2 by done.
    apply andb_false_r. }
  assert (keyIdOf sub ≠ nameOf o ∧ keyIdOf sub ≠ watchedKeyOf o) as (Hk1 & Hk2).
  { unfold nameOf, watchedKeyOf, keyIdOf, makeSubscriptionName,
      makeSubscribedResourceKey, makeSubStateKeyId; by cbn. }
  clearbody sub.
  assert (∀ j, j ≠ keyDialogOf sub → j ≠ "null" → j ≠ keyIdOf sub →
               store r.2 !! j = store w !! j) as Hframe.
  { intros j Hj1 Hj2 Hj3. subst r.
    unfold removeSubscription, bind at 1, lift, getProp.
    fold (prop sub "eventType"). rewrite Hp.
    unfold bind at 1 2 3 4.
    fold (prop sub "subscriber"). fold (prop sub "resource").
    fold (prop sub "callId"). fold (prop sub "id").
    fold (keyDialogOf sub). fold (keyIdOf sub). unfold bind.
    destruct (getAsync_outcome (keyDialogOf sub) w) as (Hst & _ & Hres).
    destruct (getAsync (keyDialogOf sub) w) as [[value|e] w1];
      simpl in Hst, Hres; cbn beta iota; [|cbn [snd]; by rewrite Hst].
    destruct Hres as [[e He']|Hres]; [done|].
    unfold get in Hres. rewrite Hkd in Hres. injection Hres as ->.
    match goal with
    | |- context [multiExec ?cs w1] =>
        destruct (multiExec_store cs w1) as [Hm|Hm]; rewrite Hm, ?Hst; [done|]
    end.
    rewrite applyAll_app, !applyAll_cons, apply_DEL. cbn [from_option id].
    assert (apply (DEL None) (delete (keyDialogOf sub) (store w))
            = Some (delete "null" (delete (keyDialogOf sub) (store w)))) as ->
      by done.
    cbn [from_option id].
    destruct (truthy (prop sub "id")).
    - rewrite applyAll_cons, apply_DEL. cbn [from_option id applyAll fold_left].
      by rewrite !lookup_delete_ne by done.
    - cbn [applyAll fold_left]. by rewrite !lookup_delete_ne by done. }
  split; apply Hframe; try (rewrite Hname); try (by apply not_eq_sym);
    unfold nameOf, watchedKeyOf, makeSubscriptionName,
      makeSubscribedResourceKey; by cbn.
Qed.

Lemma removal_misses_dialog_record_witness :
  let env := exampleEnv false in
  let o := mkObj [("subscriber", PStr "alice@example.com");
                  ("resource", PStr "bob@example.com");
                  ("eventType", PStr "dialog")] in
  let w := subscribedWorld false false in
  let sub := mkObj (subscriptionDataOf env exampleDialog o 1 2) in
  let r := removeSubscription env (VObj sub) w in
  keyDialogOf sub = "subkeydlg:undefined:undefined:undefined:undefined"
  ∧ store r.2 !! nameOf o = store w !! nameOf o
  ∧ store r.2 !! watchedKeyOf o = store w !! watchedKeyOf o.
Proof.
  intros env o w.
  apply (removal_misses_dialog_record env exampleDialog o 1 2 w).
  vm_compute. reflexivity.
Defined.

(** *** Event state and its index *)

Lemma apply_HSET_spec k f v s :
  (s !! k = None ∨ ∃ h t, s !! k = Some (mkEntry (RHash h) t)) →
  apply (HSET k f v) s
  = Some (<[k := mkEntry (RHash (<[f := v]> (default ∅ (liveData s k))))
                   (s !! k ≫= e_ttl)]> s).
Proof.
  intros [Hk|(h & t & Hk)]; unfold apply, liveData; rewrite Hk; cbn.
  - by rewrite insert_empty.
  - done.
Qed.

Lemma apply_ZADD_index k score s z :
  indexAt s = Some z →
  ∃ s', apply (ZADD ZSET (PNum score) k) s = Some s'
    ∧ indexAt s' = Some (<[k := score]> z)
    ∧ ∀ j, j ≠ ZSET → s' !! j = s !! j.
Proof.
  unfold indexAt, apply. intros Hz.
  destruct (s !! ZSET) as [[[] t]|] eqn:Es; try done;
    injection Hz as <-; eexists; (split; [done|]);
    rewrite lookup_insert_eq; (split; [by rewrite ?insert_empty|]);
    intros j Hj; by rewrite lookup_insert_ne.
Qed.

Lemma apply_ZREM_index k s z :
  indexAt s = Some z →
  ∃ s', apply (ZREM ZSET k) s = Some s'
    ∧ indexAt s' = Some (delete k z)
    ∧ ∀ j, j ≠ ZSET → s' !! j = s !! j.
Proof.
  unfold indexAt, apply. intros Hz.
  destruct (s !! ZSET) as [[[] t]|] eqn:Es; try done; injection Hz as <-.
  - cbn zeta. destruct (decide (delete k z0 = ∅)) as [He|He];
      eexists; (split; [done|]).
    + rewrite lookup_delete_eq. split; [by rewrite He|].
      intros j Hj. by rewrite lookup_delete_ne.
    + rewrite lookup_insert_eq. split; [done|].
      intros j Hj. by rewrite lookup_insert_ne.
  - eexists. split; [done|]. rewrite Es. split; [by rewrite delete_empty|done].
Qed.

Lemma purgeWorld_index : indexAt (store purgeWorld) = Some purgeIndex.
Proof. vm_compute. reflexivity. Qed.

Lemma indexAt_frame s s' :
  s' !! ZSET = s !! ZSET → indexAt s' = indexAt s.
Proof. unfold indexAt. by intros ->. Qed.

Lemma state_key_not_index aor eventType : makeEventStateKey aor eventType ≠ ZSET.
Proof. unfold makeEventStateKey, ZSET. by cbn. Qed.

Lemma parseInt_generateETag env uuid :
  parseInt (generateETag env uuid)
  = PNum (toDouble (decimalValue 0 (generateETag env uuid))).
Proof.
  destruct (generateETag_19 env uuid) as [Hne H19].
  unfold parseInt. rewrite (parseIntDigits_19 _ Hne H19). f_equal.
  assert (0 <= decimalValue 0 (generateETag env uuid)) as Hv
    by (apply decimalValue_nonneg; [done | by apply forallb_19_digit]).
  rewrite Z.abs_eq by done.
  destruct (decide (decimalValue 0 (generateETag env uuid) = 0)) as [->|Hnz];
    [done|].
  rewrite Z.sgn_pos by lia. lia.
Qed.

(** An object whose values are strings is read back from the store as it
    was written. *)
Lemma mkObj_strings l :
  Forall (λ kv : string * prim, ∃ s, kv.2 = PStr s) l →
  (λ p, PStr (toString p)) <$> mkObj l = mkObj l.
Proof.
  intros Hl.
  assert (∀ o : jsobj,
            map_Forall (λ _ v, ∃ s, v = PStr s) o →
            map_Forall (λ _ v, ∃ s, v = PStr s)
              (fold_left (λ o kv, <[kv.1 := kv.2]> o) l o)) as Hall.
  { induction Hl as [|[k' v'] l' Hv' Hl' IH]; intros o Ho; [done|].
    cbn [fold_left fst snd]. apply IH. by apply map_Forall_insert_2. }
  rewrite <- (map_fmap_id (mkObj l)) at 2.
  apply map_fmap_ext. intros k v Hkv.
  destruct (Hall ∅ (map_Forall_empty _) k v Hkv) as [s ->]. done.
Qed.

(** X17: With the store answering, [addEventState] for a resource and an event
    type without a state in the store writes the state under their key
    with a time to live equal to the expiry, of 1 to [2^53 - 1] seconds,
    and enters the key
    in the index under the number that [parseInt] makes of the new tag;
    [getEventState], for an event type without a package, then returns
    what [addEventState] returned.  No other key is touched. *)
Theorem addEventState_then_get (env : Env) (aor eventType contentType content : string)
    (n : Z) (subscriber : prim) (w : World) (z : gmap string Z) :
  faults w = [] →
  0 < n → n < 2 ^ 53 →
  hasPackage env (PStr eventType) = false →
  store w !! makeEventStateKey aor eventType = None →
  indexAt (store w) = Some z →
  let key := makeEventStateKey aor eventType in
  let etag := generateETag env (hd 0 (entropy w)) in
  let data :=
    mkObj [("aor", PStr aor); ("eventType", PStr eventType);
           ("etag", PStr etag); ("contentType", PStr contentType);
           ("content", PStr content)] in
  ∃ w1,
    addEventState env aor (PNum n) eventType contentType content w = (Ok data, w1)
    ∧ getEventState env subscriber (PStr aor) (PStr eventType) w1
      = (Ok (Some data), w1)
    ∧ ttlOf (store w1) key = Some n
    ∧ indexAt (store w1) = Some (<[key := toDouble (decimalValue 0 etag)]> z)
    ∧ (∀ j, j ≠ key → j ≠ ZSET → store w1 !! j = store w !! j).
Proof.
  intros Hf Hn Hm Hp Hfresh Hz key etag data.
  pose proof (state_key_not_index aor eventType) as Hkz. fold key in Hkz.
  unfold addEventState, bind at 1. rewrite nextUuid_run.
  fold etag. fold key. unfold bind.
  rewrite multiExec_ok by done.
  eexists. split; [reflexivity|].
  set (fields := toFields _).
  set (s2 := applyAll [HMSET key fields; EXPIRE key (PNum n)] (store w)).
  assert (s2 = <[key := mkEntry (RHash (putFields fields ∅)) (Some n)]> (store w))
    as Hs2.
  { subst s2. by apply applyAll_HMSET_EXPIRE_fresh. }
  assert (indexAt s2 = Some z) as Hz2.
  { rewrite <- Hz. apply indexAt_frame. rewrite Hs2.
    by rewrite lookup_insert_ne. }
  destruct (apply_ZADD_index key (toDouble (decimalValue 0 etag)) s2 z Hz2)
    as (s3 & Hs3 & Hz3 & Hs3o).
  assert (store (setStore
                   (applyAll [HMSET key fields; EXPIRE key (PNum n);
                              ZADD ZSET (parseInt etag) key])
                   (setEntropy (tl (entropy w)) w)) = s3) as Hst.
  { cbn [store setStore setEntropy].
    change (applyAll [HMSET key fields; EXPIRE key (PNum n);
                      ZADD ZSET (parseInt etag) key] (store w))
      with (applyAll [ZADD ZSET (parseInt etag) key] s2).
    unfold etag at 1. rewrite parseInt_generateETag. fold etag.
    rewrite applyAll_cons, Hs3. done. }
  assert (s3 !! key = Some (mkEntry (RHash (putFields fields ∅)) (Some n)))
    as Hrec.
  { rewrite Hs3o by done. rewrite Hs2. apply lookup_insert_eq. }
  split; [|split; [|split]].
  - unfold getEventState. rewrite Hp. unfold bind.
    rewrite hgetallAsync_ok by done. unfold hgetall.
    change (makeEventStateKey (toString (PStr aor)) (toString (PStr eventType)))
      with key.
    assert (ofHash (putFields fields ∅) = data) as Hread.
    { subst fields. rewrite ofHash_putFields. apply mkObj_strings.
      repeat first [apply Forall_nil_2 | apply Forall_cons_2; [by eexists|]]. }
    rewrite Hst, Hrec. cbn [ret fmap option_fmap option_map].
    by rewrite Hread.
  - unfold ttlOf. by rewrite Hst, Hrec.
  - by rewrite Hst.
  - intros j Hj1 Hj2. rewrite Hst, Hs3o by done. rewrite Hs2.
    by rewrite lookup_insert_ne.
Qed.

Lemma addEventState_then_get_witness :
  let env := exampleEnv false in
  let w := freshWorld false in
  let key := makeEventStateKey "bob@example.com" "presence" in
  let etag := generateETag env (hd 0 (entropy w)) in
  let data :=
    mkObj [("aor", PStr "bob@example.com"); ("eventType", PStr "presence");
           ("etag", PStr etag); ("contentType", PStr "application/pidf+xml");
           ("content", PStr "<presence/>")] in
  ∃ w1,
    addEventState env "bob@example.com" (PNum 3600) "presence"
      "application/pidf+xml" "<presence/>" w = (Ok data, w1)
    ∧ getEventState env (PStr "alice@example.com") (PStr "bob@example.com")
        (PStr "presence") w1 = (Ok (Some data), w1)
    ∧ ttlOf (store w1) key = Some 3600
    ∧ indexAt (store w1) = Some (<[key := toDouble (decimalValue 0 etag)]> ∅)
    ∧ (∀ j, j ≠ key → j ≠ ZSET → store w1 !! j = store w !! j).
Proof.
  intros env w.
  apply (addEventState_then_get env "bob@example.com" "presence"
           "application/pidf+xml" "<presence/>" 3600 (PStr "alice@example.com")
           w ∅).
  - reflexivity.
  - reflexivity.
  - reflexivity.
  - vm_compute. reflexivity.
  - apply lookup_empty.
  - reflexivity.
Defined.

Lemma state_write_index k score s z (f : Store → Store) :
  k ≠ ZSET → indexAt s = Some z →
  (∀ j, j ≠ k → f s !! j = s !! j) →
  let s' := applyAll [ZREM ZSET k; ZADD ZSET (PNum score) k] (f s) in
  s' !! k = f s !! k
  ∧ indexAt s' = Some (<[k := score]> z)
  ∧ (∀ j, j ≠ k → j ≠ ZSET → s' !! j = s !! j).
Proof.
  intros Hk Hz Hf s'.
  assert (indexAt (f s) = Some z) as Hz1.
  { rewrite <- Hz. apply indexAt_frame. apply Hf. by apply not_eq_sym. }
  destruct (apply_ZREM_index k (f s) z Hz1) as (s2 & Hs2 & Hz2 & Hs2o).
  destruct (apply_ZADD_index k score s2 _ Hz2) as (s3 & Hs3 & Hz3 & Hs3o).
  assert (s' = s3) as ->.
  { subst s'. rewrite applyAll_cons, Hs2. cbn [from_option id].
    by rewrite applyAll_cons, Hs3. }
  split; [|split].
  - by rewrite Hs3o, Hs2o.
  - by rewrite Hz3, insert_delete_eq.
  - intros j Hj1 Hj2. by rewrite Hs3o, Hs2o, Hf.
Qed.

(** X18: With the store answering, [refreshEventState] with an expiry of 1 to
    [2^53 - 1] seconds gives the state a new
    tag and a time to live equal to the expiry, keeps its other fields,
    and moves the key in the index to the number that [parseInt] makes of
    the new tag.  For a state that is not in the store the call creates a
    record that holds the tag alone. *)
Theorem refreshEventState_moves_index (env : Env) (aor eventType : string)
    (n : Z) (w : World) (z : gmap string Z) :
  faults w = [] →
  0 < n → n < 2 ^ 53 →
  (store w !! makeEventStateKey aor eventType = None
   ∨ ∃ h t, store w !! makeEventStateKey aor eventType
            = Some (mkEntry (RHash h) t)) →
  indexAt (store w) = Some z →
  let key := makeEventStateKey aor eventType in
  let etag := generateETag env (hd 0 (entropy w)) in
  ∃ w1,
    refreshEventState env aor eventType (PNum n) w = (Ok etag, w1)
    ∧ liveData (store w1) key
      = Some (<["etag" := etag]> (default ∅ (liveData (store w) key)))
    ∧ ttlOf (store w1) key = Some n
    ∧ indexAt (store w1) = Some (<[key := toDouble (decimalValue 0 etag)]> z)
    ∧ (∀ j, j ≠ key → j ≠ ZSET → store w1 !! j = store w !! j).
Proof.
  intros Hf Hn Hm Hkey Hz key etag.
  pose proof (state_key_not_index aor eventType) as Hkz. fold key in Hkz.
  unfold refreshEventState, bind at 1. rewrite nextUuid_run.
  rewrite parseInt_generateETag.
  fold etag. fold key. unfold bind.
  rewrite multiExec_ok by done.
  eexists. split; [reflexivity|]. cbn [store setStore setEntropy].
  set (rec := mkEntry (RHash (<["etag" := etag]>
                                (default ∅ (liveData (store w) key)))) (Some n)).
  set (f := λ s : Store, <[key := rec]> s).
  assert (applyAll [HSET key "etag" etag; EXPIRE key (PNum n); ZREM ZSET key;
                    ZADD ZSET (PNum (toDouble (decimalValue 0 etag))) key] (store w)
          = applyAll [ZREM ZSET key;
                      ZADD ZSET (PNum (toDouble (decimalValue 0 etag))) key]
              (f (store w))) as ->.
  { rewrite applyAll_cons, apply_HSET_spec by done. cbn [from_option id].
    rewrite applyAll_cons.
    erewrite apply_EXPIRE_live; [|done|done|apply lookup_insert_eq].
    cbn [from_option id]. by rewrite insert_insert_eq. }
  destruct (state_write_index key (toDouble (decimalValue 0 etag)) (store w) z f)
    as (Hrec & Hidx & Hfr); [done|done| |].
  { intros j Hj. unfold f. by rewrite lookup_insert_ne. }
  assert (f (store w) !! key = Some rec) as Hfk by apply lookup_insert_eq.
  rewrite Hfk in Hrec.
  split; [|split; [|split]]; [| |exact Hidx|exact Hfr].
  - unfold liveData at 1. by rewrite Hrec.
  - unfold ttlOf. by rewrite Hrec.
Qed.

Lemma refreshEventState_moves_index_witness :
  let env := exampleEnv false in
  let w := purgeWorld in
  let key := makeEventStateKey "b@x" "dialog" in
  let etag := generateETag env (hd 0 (entropy w)) in
  ∃ w1,
    refreshEventState env "b@x" "dialog" (PNum 60) w = (Ok etag, w1)
    ∧ liveData (store w1) key
      = Some (<["etag" := etag]> (default ∅ (liveData (store w) key)))
    ∧ ttlOf (store w1) key = Some 60
    ∧ indexAt (store w1)
      = Some (<[key := toDouble (decimalValue 0 etag)]> purgeIndex)
    ∧ (∀ j, j ≠ key → j ≠ ZSET → store w1 !! j = store w !! j).
Proof.
  intros env w.
  apply (refreshEventState_moves_index env "b@x" "dialog" 60 w purgeIndex).
  - reflexivity.
  - reflexivity.
  - reflexivity.
  - right. eexists _, _. vm_compute. reflexivity.
  - exact purgeWorld_index.
Defined.

(** X19: With the store answering, [modifyEventState] with an expiry of 1 to
    [2^53 - 1] seconds writes the object it is given, one that holds
    strings, with a new tag and the new content, a string, over the state under the
    key of the [aor] and [eventType] of the object, with a time to live
    equal to the expiry, and moves the key in the index to the number
    that [parseInt] makes of the new tag.  The content type it is given
    is not written: the field keeps what the object, or else the store,
    held. *)
Theorem modifyEventState_writes (env : Env) (data : jsobj) (n : Z)
    (contentType content : prim) (w : World) (z : gmap string Z) :
  let key :=
    makeEventStateKey (toString (prop data "aor"))
      (toString (prop data "eventType")) in
  faults w = [] →
  0 < n → n < 2 ^ 53 →
  stringValued data → (∃ c, content = PStr c) →
  (store w !! key = None ∨ ∃ h t, store w !! key = Some (mkEntry (RHash h) t)) →
  indexAt (store w) = Some z →
  let etag := generateETag env (hd 0 (entropy w)) in
  let data' := <["content" := content]> (<["etag" := PStr etag]> data) in
  let old := default ∅ (liveData (store w) key) in
  ∃ w1,
    modifyEventState env data (PNum n) contentType content w
    = (Ok (etag, data'), w1)
    ∧ liveData (store w1) key = Some ((toString <$> data') ∪ old)
    ∧ ((toString <$> data') ∪ old) !! "contentType"
      = match data !! "contentType" with
        | Some v => Some (toString v)
        | None => old !! "contentType"
        end
    ∧ ttlOf (store w1) key = Some n
    ∧ indexAt (store w1) = Some (<[key := toDouble (decimalValue 0 etag)]> z)
    ∧ (∀ j, j ≠ key → j ≠ ZSET → store w1 !! j = store w !! j).
Proof.
  intros key Hf Hn Hm _ _ Hkey Hz etag data' old.
  pose proof (state_key_not_index (toString (prop data "aor"))
                (toString (prop data "eventType"))) as Hkz. fold key in Hkz.
  unfold modifyEventState, bind at 1. rewrite nextUuid_run.
  rewrite parseInt_generateETag.
  fold etag. fold key. fold data'. unfold bind.
  rewrite multiExec_ok by done.
  eexists. split; [reflexivity|]. cbn [store setStore setEntropy].
  set (rec := mkEntry (RHash ((toString <$> data') ∪ old)) (Some n)).
  set (f := λ s : Store, <[key := rec]> s).
  assert (applyAll [HMSET key (objFields data'); EXPIRE key (PNum n);
                    ZREM ZSET key;
                    ZADD ZSET (PNum (toDouble (decimalValue 0 etag))) key] (store w)
          = applyAll [ZREM ZSET key;
                      ZADD ZSET (PNum (toDouble (decimalValue 0 etag))) key]
              (f (store w))) as ->.
  { change (applyAll [HMSET key (objFields data'); EXPIRE key (PNum n);
                      ZREM ZSET key;
                      ZADD ZSET (PNum (toDouble (decimalValue 0 etag))) key]
              (store w))
      with (applyAll [ZREM ZSET key;
                      ZADD ZSET (PNum (toDouble (decimalValue 0 etag))) key]
              (applyAll [HMSET key (objFields data'); EXPIRE key (PNum n)]
                 (store w))).
    rewrite (applyAll_HMSET_EXPIRE key (objFields data') n (store w));
      [|apply objFields_nonempty, insert_non_empty|done|done|done].
    by rewrite putFields_objFields_union. }
  destruct (state_write_index key (toDouble (decimalValue 0 etag)) (store w) z f)
    as (Hrec & Hidx & Hfr); [done|done| |].
  { intros j Hj. unfold f. by rewrite lookup_insert_ne. }
  assert (f (store w) !! key = Some rec) as Hfk by apply lookup_insert_eq.
  rewrite Hfk in Hrec.
  split; [|split; [|split; [|split]]]; [| | |exact Hidx|exact Hfr].
  - unfold liveData at 1. by rewrite Hrec.
  - rewrite lookup_union, lookup_fmap. unfold data'.
    rewrite !lookup_insert_ne by done.
    destruct (data !! "contentType") as [v|]; cbn.
    + by destruct (old !! "contentType").
    + by destruct (old !! "contentType").
  - unfold ttlOf. by rewrite Hrec.
Qed.

Lemma modifyEventState_writes_witness :
  let env := exampleEnv false in
  let w := purgeWorld in
  let data := mkObj [("aor", PStr "b@x"); ("eventType", PStr "dialog");
                     ("contentType", PStr "application/dialog-info+xml")] in
  let key :=
    makeEventStateKey (toString (prop data "aor"))
      (toString (prop data "eventType")) in
  let etag := generateETag env (hd 0 (entropy w)) in
  let data' := <["content" := PStr "<x/>"]> (<["etag" := PStr etag]> data) in
  let old := default ∅ (liveData (store w) key) in
  ∃ w1,
    modifyEventState env data (PNum 60) (PStr "text/plain") (PStr "<x/>") w
    = (Ok (etag, data'), w1)
    ∧ liveData (store w1) key = Some ((toString <$> data') ∪ old)
    ∧ ((toString <$> data') ∪ old) !! "contentType"
      = match data !! "contentType" with
        | Some v => Some (toString v)
        | None => old !! "contentType"
        end
    ∧ ttlOf (store w1) key = Some 60
    ∧ indexAt (store w1)
      = Some (<[key := toDouble (decimalValue 0 etag)]> purgeIndex)
    ∧ (∀ j, j ≠ key → j ≠ ZSET → store w1 !! j = store w !! j).
Proof.
  intros env w data.
  apply (modifyEventState_writes env data 60 (PStr "text/plain") (PStr "<x/>")
           w purgeIndex).
  - reflexivity.
  - reflexivity.
  - reflexivity.
  - unfold stringValued, data, mkObj. cbn [fold_left fst snd].
    repeat (apply map_Forall_insert_2; [by eexists|]).
    apply map_Forall_empty.
  - by eexists.
  - right. eexists _, _. vm_compute. reflexivity.
  - exact purgeWorld_index.
Defined.

(** *** Registrations *)

Lemma multiExecReplies_ok cs w :
  faults w = [] → existsb hasNullArg cs = false →
  multiExecReplies cs w = (Ok (replies cs (store w)), setStore (applyAll cs) w).
Proof.
  intros Hf Hn. unfold multiExecReplies. rewrite roundTrip_ok by done.
  by rewrite Hn.
Qed.

Lemma addRegistration_run aor obj expires w :
  faults w = [] → obj ≠ ∅ → expires ≠ PUndef →
  let key := makeRegKey aor in
  addRegistration aor obj expires w
  = (Ok (bool_decide (is_Some (apply (HMSET key (objFields obj)) (store w)))),
     setStore (applyAll [HMSET key (objFields obj); EXPIRE key expires]) w).
Proof.
  intros Hf Ho Hu key. unfold addRegistration, tryCatch, bind. fold key.
  rewrite bool_decide_eq_false_2 by done.
  rewrite multiExecReplies_ok by (by destruct expires). cbn [replies head ret].
  by destruct (apply (HMSET key (objFields obj)) (store w)).
Qed.

(** X20: With the store answering, [addRegistration] of an object with at
    least one property, all of them strings, with [expires] of 1 to
    [2^53 - 1] seconds, under a key that is free or holds a registration,
    returns [true], writes the properties
    over what the registration held, and gives it a time to live equal to
    [expires]; [queryRegistration] then returns the record.  No other key
    is touched. *)
Theorem addRegistration_then_query (aor : string) (obj : jsobj) (n : Z)
    (w : World) :
  faults w = [] →
  obj ≠ ∅ →
  stringValued obj →
  0 < n → n < 2 ^ 53 →
  (store w !! makeRegKey aor = None
   ∨ ∃ h t, store w !! makeRegKey aor = Some (mkEntry (RHash h) t)) →
  let key := makeRegKey aor in
  let record := (toString <$> obj) ∪ default ∅ (liveData (store w) key) in
  ∃ w1,
    addRegistration aor obj (PNum n) w = (Ok true, w1)
    ∧ queryRegistration aor w1 = (Ok (Some record), w1)
    ∧ ttlOf (store w1) key = Some n
    ∧ (∀ j, j ≠ key → store w1 !! j = store w !! j).
Proof.
  intros Hf Ho _ Hn Hm Hkey key record.
  pose proof (objFields_nonempty obj Ho) as Hne.
  rewrite addRegistration_run by done. fold key.
  assert (is_Some (apply (HMSET key (objFields obj)) (store w))) as Hok.
  { destruct (objFields obj) as [|f fs]; [done|].
    destruct Hkey as [Hk|(h & t & Hk)].
    - rewrite (apply_HMSET_fresh _ _ _ _ Hk). by eexists.
    - rewrite (apply_HMSET_hash _ _ _ _ _ _ Hk). by eexists. }
  rewrite bool_decide_eq_true_2 by done.
  eexists. split; [reflexivity|].
  assert (store (setStore
                   (applyAll [HMSET key (objFields obj); EXPIRE key (PNum n)]) w)
          = <[key := mkEntry (RHash record) (Some n)]> (store w)) as Hst.
  { cbn [store setStore].
    rewrite (applyAll_HMSET_EXPIRE key (objFields obj) n (store w)) by done.
    by rewrite putFields_objFields_union. }
  split; [|split].
  - unfold queryRegistration. fold key. rewrite hgetallAsync_ok by done.
    unfold hgetall. by rewrite Hst, lookup_insert_eq.
  - unfold ttlOf. by rewrite Hst, lookup_insert_eq.
  - intros j Hj. by rewrite Hst, lookup_insert_ne.
Qed.

Lemma addRegistration_then_query_witness :
  let obj := mkObj [("contact", PStr "sip:bob@10.0.0.7");
                    ("sbcAddress", PStr "sip:10.0.0.1");
                    ("protocol", PStr "udp")] in
  let w := freshWorld false in
  let key := makeRegKey "bob@example.com" in
  let record := (toString <$> obj) ∪ default ∅ (liveData (store w) key) in
  ∃ w1,
    addRegistration "bob@example.com" obj (PNum 3600) w = (Ok true, w1)
    ∧ queryRegistration "bob@example.com" w1 = (Ok (Some record), w1)
    ∧ ttlOf (store w1) key = Some 3600
    ∧ (∀ j, j ≠ key → store w1 !! j = store w !! j).
Proof.
  intros obj w.
  apply (addRegistration_then_query "bob@example.com" obj 3600 w).
  - reflexivity.
  - apply insert_non_empty.
  - unfold stringValued, obj, mkObj. cbn [fold_left fst snd].
    repeat (apply map_Forall_insert_2; [by eexists|]).
    apply map_Forall_empty.
  - reflexivity.
  - reflexivity.
  - left. apply lookup_empty.
Defined.

(** X21: What [addRegistration] reports.  It never throws.  With the store
    answering it returns [true] whenever the fields were written, also
    when the time to live was not set: for an [expires] that is not
    positive, above [-2^53], the registration is gone when the call
    returns.  Under a key
    that holds something else than a registration it returns [false],
    and has set the time to live of what the key holds, for [expires] of 1
    to [2^53 - 1] seconds. *)
Theorem addRegistration_reports (aor : string) (obj : jsobj) (expires : prim)
    (w : World) :
  let key := makeRegKey aor in
  let r := addRegistration aor obj expires w in
  (∃ b, r.1 = Ok b)
  ∧ (faults w = [] → obj ≠ ∅ → store w !! key = None →
     ∀ n, expires = PNum n → - 2 ^ 53 < n → n <= 0 →
       r.1 = Ok true ∧ store r.2 = store w)
  ∧ (faults w = [] → obj ≠ ∅ →
     ∀ v t n, store w !! key = Some (mkEntry v t) →
       (∀ h, v ≠ RHash h) → expires = PNum n → 0 < n → n < 2 ^ 53 →
       r.1 = Ok false ∧ store r.2 = <[key := mkEntry v (Some n)]> (store w)).
Proof.
  intros key r. split; [|split].
  - subst r. unfold addRegistration.
    match goal with
    | |- context [tryCatch ?m _ w] =>
        destruct (tryCatch_ret_total m false w) as (b & w' & Hr)
    end.
    rewrite Hr. by eexists.
  - intros Hf Ho Hk n -> Hm Hn. subst r.
    pose proof (objFields_nonempty obj Ho) as Hne.
    rewrite addRegistration_run by done. fold key. cbn [fst snd store setStore].
    destruct (objFields obj) as [|f fs] eqn:Ef; [done|].
    rewrite (apply_HMSET_fresh _ _ _ _ Hk).
    split; [by rewrite bool_decide_eq_true_2|].
    rewrite applyAll_cons, (apply_HMSET_fresh _ _ _ _ Hk). cbn [from_option id].
    destruct (seconds_in_range n) as [E1 E2]; [done|lia|].
    rewrite applyAll_cons. unfold apply. rewrite E1, E2, lookup_insert_eq.
    rewrite (proj2 (Z.leb_le n 0)) by done.
    cbn [from_option id applyAll fold_left].
    rewrite delete_insert_eq. by apply delete_id.
  - intros Hf Ho v t n Hk Hv -> Hn Hm. subst r.
    pose proof (objFields_nonempty obj Ho) as Hne.
    rewrite addRegistration_run by done. fold key. cbn [fst snd store setStore].
    assert (apply (HMSET key (objFields obj)) (store w) = None) as Hno.
    { unfold apply. rewrite Hk.
      destruct (objFields obj) as [|f fs]; [done|].
      destruct v; try done. by destruct (Hv h). }
    split; [by rewrite Hno, bool_decide_eq_false_2 by (by intros [])|].
    rewrite applyAll_cons, Hno. cbn [from_option id].
    rewrite applyAll_cons. erewrite apply_EXPIRE_live; [|done|done|exact Hk].
    done.
Qed.

Lemma addRegistration_reports_witness :
  let obj := mkObj [("contact", PStr "sip:bob@10.0.0.7")] in
  let key := makeRegKey "bob@example.com" in
  let w := freshWorld false in
  let taken := setStore (λ _, {[ key := mkEntry (RStr "x") None ]}) w in
  let r := addRegistration "bob@example.com" obj (PNum 0) w in
  let r' := addRegistration "bob@example.com" obj (PNum 60) taken in
  (r.1 = Ok true ∧ store r.2 = store w)
  ∧ (r'.1 = Ok false
     ∧ store r'.2 = <[key := mkEntry (RStr "x") (Some 60)]> (store taken)).
Proof.
  intros obj key w taken. split.
  - apply (proj1 (proj2 (addRegistration_reports "bob@example.com" obj
                           (PNum 0) w)) eq_refl (insert_non_empty _ _ _)
             (lookup_empty _) 0 eq_refl); [reflexivity|lia].
  - apply (proj2 (proj2 (addRegistration_reports "bob@example.com" obj
                           (PNum 60) taken)) eq_refl (insert_non_empty _ _ _)
             (RStr "x") None 60);
      [apply lookup_singleton_eq|discriminate|reflexivity|reflexivity
      |reflexivity].
Defined.

(** X22: With the store answering, [removeRegistration] returns whether there
    was something under the key of the user, and leaves nothing there:
    after [addRegistration] it returns [true], [queryRegistration] then
    finds nothing, and a store in which the key was free is as it was
    before the registration. *)
Theorem registration_add_then_remove (aor : string) (obj : jsobj) (n : Z)
    (w : World) :
  faults w = [] →
  obj ≠ ∅ →
  0 < n →
  store w !! makeRegKey aor = None →
  let w1 := (addRegistration aor obj (PNum n) w).2 in
  ∃ w2,
    removeRegistration aor w1 = (Ok true, w2)
    ∧ store w2 = store w
    ∧ queryRegistration aor w2 = (Ok None, w2)
    ∧ removeRegistration aor w2 = (Ok false, w2).
Proof.
  intros Hf Ho Hn Hk w1.
  set (key := makeRegKey aor) in *.
  assert (faults w1 = []
          ∧ ∃ e, store w1 = <[key := e]> (store w)) as (Hf1 & e & Hs1).
  { subst w1. rewrite addRegistration_run by done. fold key.
    cbn [snd store faults setStore]. split; [done|].
    rewrite (applyAll_HMSET_EXPIRE_fresh_pos key (objFields obj) n (store w));
      [by eexists|by apply objFields_nonempty|done|done]. }
  assert (∀ w0, faults w0 = [] →
            removeRegistration aor w0
            = (Ok (bool_decide (is_Some (store w0 !! key))),
               setStore (delete key) w0)) as Hrun.
  { intros w0 Hf0. unfold removeRegistration, tryCatch, bind, delAsync.
    fold key. rewrite roundTrip_ok by done. cbn [ret]. do 2 f_equal.
    destruct (bool_decide (is_Some (store w0 !! key))); done. }
  rewrite Hrun by done.
  rewrite bool_decide_eq_true_2 by (rewrite Hs1, lookup_insert_eq; by eexists).
  eexists. split; [reflexivity|].
  assert (store (setStore (delete key) w1) = store w) as Hs2.
  { cbn [store setStore]. rewrite Hs1, delete_insert_eq. by apply delete_id. }
  split; [exact Hs2|]. split.
  - unfold queryRegistration. fold key. rewrite hgetallAsync_ok by done.
    unfold hgetall. by rewrite Hs2, Hk.
  - rewrite Hrun by done.
    rewrite bool_decide_eq_false_2
      by (rewrite Hs2, Hk; by intros []).
    f_equal. rewrite setStore_setStore. unfold setStore. f_equal.
    apply delete_id, lookup_delete_eq.
Qed.

Lemma registration_add_then_remove_witness :
  let obj := mkObj [("contact", PStr "sip:bob@10.0.0.7")] in
  let w := freshWorld false in
  let w1 := (addRegistration "bob@example.com" obj (PNum 3600) w).2 in
  ∃ w2,
    removeRegistration "bob@example.com" w1 = (Ok true, w2)
    ∧ store w2 = store w
    ∧ queryRegistration "bob@example.com" w2 = (Ok None, w2)
    ∧ removeRegistration "bob@example.com" w2 = (Ok false, w2).
Proof.
  intros obj w.
  apply (registration_add_then_remove "bob@example.com" obj 3600 w).
  - reflexivity.
  - apply insert_non_empty.
  - reflexivity.
  - apply lookup_empty.
Defined.

(** *** Purging, whatever the store answers *)

(** One turn of the loop of [purgeExpired]: it returns, having counted at
    most one member, and a member it counts has no record; the store is
    as it was, or lacks that member in the index. *)
Lemma purgeOne_any n k w :
  ∃ n' w',
    purgeOne n k w = (Ok n', w')
    ∧ ((n' = n ∧ store w' = store w)
       ∨ (n' = n + 1 ∧ store w !! k = None
          ∧ (store w' = store w
             ∨ store w' = default (store w) (apply (ZREM ZSET k) (store w))))).
Proof.
  unfold purgeOne, tryCatch, bind, hgetallAsync, roundTrip, detached, command,
    hgetall.
  destruct w as [s fs nt ne en dl ls tm nx tr]. cbn [faults store setFaults].
  destruct fs as [|[] fs]; cbn [faults store setFaults hasNullArg andb].
  - destruct (s !! k) as [[[] t]|] eqn:Ek; cbn -[apply]; eauto 8.
    destruct (apply (ZREM ZSET k) s) as [s'|]; cbn -[apply]; eexists _, _; split;
      try reflexivity; right; cbn -[apply]; eauto.
  - eauto 8.
  - destruct (s !! k) as [[[] t]|] eqn:Ek; cbn -[apply]; eauto 8.
    destruct fs as [|[] fs]; cbn -[apply].
    + destruct (apply (ZREM ZSET k) s) as [s'|]; cbn -[apply]; eexists _, _; split;
        try reflexivity; right; cbn -[apply]; eauto.
    + eexists _, _; split; [reflexivity|]; right; cbn -[apply]; eauto.
    + destruct (apply (ZREM ZSET k) s) as [s'|]; cbn -[apply]; eexists _, _; split;
        try reflexivity; right; cbn -[apply]; eauto.
Qed.

(** What the loop keeps, from any store on. *)
Lemma purgeLoop_any l : ∀ n w z,
  indexAt (store w) = Some z →
  ∃ n' w' z',
    purgeLoop n l w = (Ok n', w')
    ∧ (∀ j, j ≠ ZSET → store w' !! j = store w !! j)
    ∧ indexAt (store w') = Some z'
    ∧ z' ⊆ z
    ∧ (∀ k, z' !! k ≠ z !! k → store w !! k = None)
    ∧ n <= n' <= n + Z.of_nat (length l)
    ∧ Z.of_nat (size z) - Z.of_nat (size z') <= n' - n.
Proof.
  induction l as [|k l IH]; intros n w z Hz.
  - exists n, w, z. cbn. repeat split; try done; lia.
  - cbn [purgeLoop]. unfold bind.
    destruct (purgeOne_any n k w) as (n1 & w1 & Hone & Hcase).
    rewrite Hone.
    assert (∃ z1, indexAt (store w1) = Some z1
                  ∧ (∀ j, j ≠ ZSET → store w1 !! j = store w !! j)
                  ∧ z1 ⊆ z
                  ∧ (∀ j, z1 !! j ≠ z !! j → store w !! j = None)
                  ∧ n <= n1 <= n + 1
                  ∧ Z.of_nat (size z) - Z.of_nat (size z1) <= n1 - n)
      as (z1 & Hz1 & Hfr1 & Hsub1 & Hdead1 & Hn1 & Hsz1).
    { destruct Hcase as [[-> Hs]|(-> & Hk & [Hs|Hs])].
      - exists z. rewrite Hs. repeat split; try done; lia.
      - exists z. rewrite Hs. repeat split; try done; lia.
      - destruct (apply_ZREM_index k (store w) z Hz) as (s' & Ha & Hi & Hf).
        rewrite Ha in Hs. cbn in Hs. exists (delete k z). rewrite Hs.
        split; [done|]. split; [done|]. split; [apply delete_subseteq|].
        split; [|split; [lia|]].
        + intros j Hj. destruct (decide (j = k)) as [->|Hjk]; [done|].
          by rewrite lookup_delete_ne in Hj.
        + destruct (z !! k) as [v|] eqn:Ezk.
          * rewrite map_size_delete_Some by (by eexists). lia.
          * rewrite delete_id by done. lia. }
    destruct (IH n1 w1 z1 Hz1)
      as (n' & w' & z' & Hrun & Hfr & Hz' & Hsub & Hdead & Hn & Hsz).
    exists n', w', z'. split; [exact Hrun|].
    split; [intros j Hj; by rewrite Hfr, Hfr1|].
    split; [done|]. split; [by etrans|].
    split; [|split; [cbn [length]; lia|lia]].
    intros j Hj. destruct (decide (z1 !! j = z !! j)) as [E|E]; [|by apply Hdead1].
    rewrite <- E in Hj. pose proof (Hdead j Hj) as Hd.
    destruct (decide (j = ZSET)) as [->|Hjz]; [|by rewrite <- Hfr1].
    exfalso. apply Hj.
    assert (z1 = ∅) as ->.
    { unfold indexAt in Hz1. rewrite Hd in Hz1. by injection Hz1. }
    rewrite lookup_empty. destruct (z' !! ZSET) as [v|] eqn:Ev; [|done].
    pose proof (lookup_weaken _ _ _ _ Ev Hsub) as Hw.
    by rewrite lookup_empty in Hw.
Qed.

(** X23: Whatever the store answers, and whichever round trips fail,
    [purgeExpired] touches no key but the index, adds nothing to the
    index, changes no score, and removes no member whose key is in the
    store; when it returns, the number it returns is at least the number
    of members it removed and at most the number the index held. *)
Theorem purgeExpired_keeps_live (w : World) (z : gmap string Z) :
  indexAt (store w) = Some z →
  let r := purgeExpired w in
  (∀ j, j ≠ ZSET → store r.2 !! j = store w !! j)
  ∧ ∃ z',
      indexAt (store r.2) = Some z'
      ∧ z' ⊆ z
      ∧ (∀ k, is_Some (store w !! k) → z' !! k = z !! k)
      ∧ (∀ n, r.1 = Ok n →
              Z.of_nat (size z) - Z.of_nat (size z') <= n <= Z.of_nat (size z)).
Proof.
  intros Hz r.
  assert (∀ w0 l, store w0 = store w → (length l <= size z)%nat →
            let r0 := purgeLoop 0 l w0 in
            (∀ j, j ≠ ZSET → store r0.2 !! j = store w !! j)
            ∧ ∃ z',
                indexAt (store r0.2) = Some z'
                ∧ z' ⊆ z
                ∧ (∀ k, is_Some (store w !! k) → z' !! k = z !! k)
                ∧ (∀ n, r0.1 = Ok n →
                        Z.of_nat (size z) - Z.of_nat (size z') <= n
                        <= Z.of_nat (size z))) as Hloop.
  { intros w0 l Hs Hlen r0.
    destruct (purgeLoop_any l 0 w0 z)
      as (n' & w' & z' & Hrun & Hfr & Hz' & Hsub & Hdead & Hn & Hsz);
      [by rewrite Hs|].
    subst r0. rewrite Hrun. cbn [fst snd].
    split; [intros j Hj; by rewrite Hfr, Hs|].
    exists z'. split; [done|]. split; [done|]. split.
    - intros k Hk. destruct (decide (z' !! k = z !! k)) as [E|E]; [done|].
      apply Hdead in E. rewrite Hs in E. rewrite E in Hk. by destruct Hk.
    - intros n [= <-]. lia. }
  subst r. unfold purgeExpired, bind, zrangebyscoreAllAsync, roundTrip.
  assert (∀ l, zrangeAll (store w) ZSET = Ok l → (length l <= size z)%nat)
    as Hlen.
  { intros l Hl. unfold zrangeAll in Hl. unfold indexAt in Hz.
    destruct (store w !! ZSET) as [[[] t]|]; try done.
    - injection Hz as ->. injection Hl as <-.
      rewrite length_fmap, merge_sort_Permutation.
      by rewrite length_map_to_list.
    - injection Hl as <-. cbn. lia. }
  assert ((∀ j, j ≠ ZSET → store w !! j = store w !! j)
          ∧ ∃ z', indexAt (store w) = Some z' ∧ z' ⊆ z
              ∧ (∀ k, is_Some (store w !! k) → z' !! k = z !! k)) as Hsame.
  { split; [done|]. by exists z. }
  destruct (faults w) as [|[] fs] eqn:Hf.
  - destruct (zrangeAll (store w) ZSET) as [l|e] eqn:Hl.
    + by apply Hloop; [|apply Hlen].
    + cbn [fst snd]. destruct Hsame as [Hs1 (z' & ? & ? & ?)].
      split; [done|]. exists z'. by repeat split.
  - cbn [fst snd store setFaults]. destruct Hsame as [Hs1 (z' & ? & ? & ?)].
    split; [done|]. exists z'. by repeat split.
  - cbn [store setFaults].
    destruct (zrangeAll (store w) ZSET) as [l|e] eqn:Hl.
    + by apply Hloop; [|apply Hlen].
    + cbn [fst snd store setFaults]. destruct Hsame as [Hs1 (z' & ? & ? & ?)].
      split; [done|]. exists z'. by repeat split.
Qed.

Lemma purgeExpired_keeps_live_witness :
  let w := setFaults [false; false; true; true] purgeWorld in
  let r := purgeExpired w in
  (∀ j, j ≠ ZSET → store r.2 !! j = store w !! j)
  ∧ ∃ z',
      indexAt (store r.2) = Some z'
      ∧ z' ⊆ purgeIndex
      ∧ (∀ k, is_Some (store w !! k) → z' !! k = purgeIndex !! k)
      ∧ (∀ n, r.1 = Ok n →
              Z.of_nat (size purgeIndex) - Z.of_nat (size z') <= n
              <= Z.of_nat (size purgeIndex)).
Proof.
  intros w.
  apply (purgeExpired_keeps_live w purgeIndex).
  exact purgeWorld_index.
Defined.

(** *** Purging twice *)

Lemma purgePure_live l : ∀ s n,
  (∀ k, k ∈ l → is_Some (s !! k)) → purgePure s l n = (n, s).
Proof.
  induction l as [|k l IH]; intros s n Hl; [done|].
  cbn [purgePure]. unfold purgeStep, purgeCount.
  destruct (Hl k) as [e He]; [by left|]. rewrite He.
  apply IH. intros j Hj. apply Hl. by right.
Qed.

(** X24: With the store answering, a second [purgeExpired] right after the
    first finds nothing to remove: it returns 0 and leaves the store as
    it is. *)
Theorem purgeExpired_twice (w : World) (z : gmap string Z) :
  faults w = [] →
  indexAt (store w) = Some z →
  let w1 := (purgeExpired w).2 in
  purgeExpired w1 = (Ok 0, w1).
Proof.
  intros Hf Hi w1.
  assert (∀ w0 z0, faults w0 = [] → indexAt (store w0) = Some z0 →
            ∃ l, NoDup l ∧ (∀ k, k ∈ l ↔ is_Some (z0 !! k))
              ∧ purgeExpired w0
                = (Ok (purgePure (store w0) l 0).1,
                   setStore (λ _, (purgePure (store w0) l 0).2) w0)) as Hrun.
  { intros w0 z0 Hf0 Hi0.
    assert (∃ l, zrangeAll (store w0) ZSET = Ok l ∧ NoDup l
                 ∧ ∀ k, k ∈ l ↔ is_Some (z0 !! k)) as (l & Hl & Hnd & Hin).
    { unfold zrangeAll. unfold indexAt in Hi0.
      destruct (store w0 !! ZSET) as [[[] t]|]; try done.
      - injection Hi0 as ->. eexists. split; [done|]. apply zrange_members.
      - injection Hi0 as <-. exists []. split; [done|]. split; [constructor|].
        intros k. rewrite lookup_empty. split; [by intros ?%elem_of_nil|].
        by intros [? ?]. }
    exists l. split; [done|]. split; [done|].
    unfold purgeExpired, bind, zrangebyscoreAllAsync, roundTrip.
    by rewrite Hf0, Hl, purgeLoop_run. }
  destruct (Hrun w z Hf Hi) as (l & Hnd & Hin & Hp).
  destruct (purgePure_spec l (store w) z 0 Hi Hnd (λ k, proj1 (Hin k)))
    as (Hidx & Hfr & _).
  set (z1 := filter (λ kv : string * Z, kv.1 ∉ l ∨ is_Some (store w !! kv.1)) z)
    in *.
  assert (store w1 = (purgePure (store w) l 0).2) as Hs1
    by (subst w1; by rewrite Hp).
  assert (faults w1 = []) as Hf1 by (subst w1; by rewrite Hp).
  rewrite <- Hs1 in Hidx, Hfr.
  destruct (Hrun w1 z1 Hf1 Hidx) as (l1 & Hnd1 & Hin1 & Hp1).
  rewrite Hp1, purgePure_live; [cbn [fst snd]; by rewrite setStore_id|].
  intros k Hk. apply Hin1 in Hk.
  destruct (decide (k = ZSET)) as [->|Hkz].
  - destruct (indexAt_nonempty _ _ _ Hidx Hk) as [t Ht]. by eexists.
  - rewrite Hfr by done. destruct Hk as [v Hv].
    apply map_lookup_filter_Some in Hv as [Hv [Hn|Hl]]; [|done].
    exfalso. apply Hn. apply Hin. by eexists.
Qed.

Lemma purgeExpired_twice_witness :
  let w1 := (purgeExpired purgeWorld).2 in
  purgeExpired w1 = (Ok 0, w1).
Proof.
  apply (purgeExpired_twice purgeWorld purgeIndex).
  - reflexivity.
  - exact purgeWorld_index.
Defined.

(** *** The Event header *)



(** The [id] of [Event: dialog;id=sub1] is empty, and that of
    [Event: presence;id=a1/b] is [a1]. *)
Example parseEventHeader_id_cut :
  parseEventHeader "dialog;id=sub1" = ("dialog", Some "")
  ∧ parseEventHeader "presence;id=a1/b" = ("presence", Some "a1")
  ∧ parseEventHeader " dialog " = (" dialog ", None).
Proof. repeat apply conj; vm_compute; reflexivity. Qed.

(** *** Requests that [validate] lets through, and requests it cannot read *)

(** X26: A SUBSCRIBE for a supported event whose From or To URI the parser of
    the transport library does not read makes the handler throw before
    it has sent anything: the handler answers nothing, writes nothing and
    arms nothing.  (What the transport library, which called the handler,
    does with the exception is outside the model.) *)
Theorem onSubscribe_unparsable_uri (env : Env) (req : Req) (w : World)
    (e : string) :
  header (headers req) "Event" = Some e →
  (parseEventHeader e).1 ∈ supportedEvents env →
  parseUri env (from_uri req) = None ∨ parseUri env (to_uri req) = None →
  onSubscribe env req w = (Throw (TypeError "host"), w).
Proof.
  intros He Hs Huri.
  unfold onSubscribe, validate.
  rewrite (has_Some _ _ _ He), He. change (default "" (Some e)) with e.
  destruct (parseEventHeader e) as [event id] eqn:Ep. simpl in Hs. cbn iota.
  rewrite (bool_decide_eq_true_2 _ Hs). cbn [negb].
  unfold bind at 1. unfold bind at 1. unfold lift.
  destruct Huri as [Hu|Hu].
  - unfold parseAor at 1. by rewrite Hu.
  - destruct (parseAor env (from_uri req)) as [s|err] eqn:Ef.
    + unfold bind at 1. unfold parseAor at 1. by rewrite Hu.
    + unfold parseAor in Ef. destruct (parseUri env (from_uri req)); [done|].
      by injection Ef as <-.
Qed.

Lemma onSubscribe_unparsable_uri_witness :
  let req := mkReq [("Event", "dialog")] "sip:bob@example.com" "mailto:alice"
               exampleDialog VUndef PUndef in
  onSubscribe (exampleEnv false) req (freshWorld false)
  = (Throw (TypeError "host"), freshWorld false).
Proof.
  intros req.
  apply (onSubscribe_unparsable_uri (exampleEnv false) req (freshWorld false)
           "dialog").
  - reflexivity.
  - vm_compute. left.
  - left. reflexivity.
Defined.

Lemma omitNil_lookup (o : jsobj) k :
  omitNil o !! k = match o !! k with
                   | Some PUndef => None
                   | x => x
                   end.
Proof.
  unfold omitNil.
  destruct (o !! k) as [v|] eqn:Ek.
  - destruct (decide (v = PUndef)) as [->|Hv].
    + apply map_lookup_filter_None. right. intros x Hx. cbn. naive_solver.
    + transitivity (Some v); [|by destruct v].
      apply map_lookup_filter_Some. by split.
  - apply map_lookup_filter_None. by left.
Qed.

(** X27: The descriptor [validate] hangs on a request it lets through: the
    subscriber and the resource as [parseAor] gives them, the event type,
    and the [id], the Accept header and the Call-ID where the request has
    them; it has no other property, and none that is undefined. *)
Theorem validate_descriptor (env : Env) (req : Req) (w : World)
    (e subscriber resource : string) :
  header (headers req) "Event" = Some e →
  (parseEventHeader e).1 ∈ supportedEvents env →
  parseAor env (from_uri req) = Ok subscriber →
  parseAor env (to_uri req) = Ok resource →
  ∃ ok req' ev,
    (validate env VLogger req w).1 = Ok (ok, req')
    ∧ req_event req' = VObj ev
    ∧ ev !! "subscriber" = Some (PStr subscriber)
    ∧ ev !! "resource" = Some (PStr resource)
    ∧ ev !! "eventType" = Some (PStr (parseEventHeader e).1)
    ∧ ev !! "id" = PStr <$> (parseEventHeader e).2
    ∧ ev !! "accept" = PStr <$> header (headers req) "Accept"
    ∧ ev !! "callId" = PStr <$> header (headers req) "Call-ID"
    ∧ (∀ k, ev !! k ≠ Some PUndef)
    ∧ (∀ k, is_Some (ev !! k) →
            k ∈ ["subscriber"; "resource"; "eventType"; "id"; "accept"; "callId"]).
Proof.
  intros He Hs Hfrom Hto.
  unfold validate.
  rewrite (has_Some _ _ _ He), He. change (default "" (Some e)) with e.
  destruct (parseEventHeader e) as [event id] eqn:Ep. simpl in Hs. cbn iota.
  rewrite (bool_decide_eq_true_2 _ Hs). cbn [negb fst snd].
  unfold bind, lift. rewrite Hfrom, Hto. cbn [logInfo ret].
  set (o := mkObj _).
  assert (∀ k, o !! k
               = if decide (k = "callId") then Some (getHeader req "Call-ID")
                 else if decide (k = "accept") then Some (getHeader req "Accept")
                 else if decide (k = "id") then Some (from_option PStr PUndef id)
                 else if decide (k = "eventType") then Some (PStr event)
                 else if decide (k = "resource") then Some (PStr resource)
                 else if decide (k = "subscriber") then Some (PStr subscriber)
                 else None) as Ho.
  { intros k. subst o. unfold mkObj. cbn [fold_left fst snd].
    repeat (destruct (decide _) as [->|?];
            [by rewrite ?lookup_insert_ne, lookup_insert_eq by done|]).
    by rewrite !lookup_insert_ne, lookup_empty by done. }
  assert (omitNil o !! "subscriber" = Some (PStr subscriber)
          ∧ omitNil o !! "resource" = Some (PStr resource)
          ∧ omitNil o !! "eventType" = Some (PStr event)
          ∧ omitNil o !! "id" = PStr <$> id
          ∧ omitNil o !! "accept" = PStr <$> header (headers req) "Accept"
          ∧ omitNil o !! "callId" = PStr <$> header (headers req) "Call-ID"
          ∧ (∀ k, omitNil o !! k ≠ Some PUndef)
          ∧ (∀ k, is_Some (omitNil o !! k) →
                  k ∈ ["subscriber"; "resource"; "eventType"; "id"; "accept";
                       "callId"])) as Hev.
  { repeat apply conj.
    - by rewrite omitNil_lookup, Ho.
    - by rewrite omitNil_lookup, Ho.
    - by rewrite omitNil_lookup, Ho.
    - rewrite omitNil_lookup, Ho. cbn. by destruct id.
    - rewrite omitNil_lookup, Ho. cbn. unfold getHeader.
      by destruct (header (headers req) "Accept").
    - rewrite omitNil_lookup, Ho. cbn. unfold getHeader.
      by destruct (header (headers req) "Call-ID").
    - intros k. rewrite omitNil_lookup. by destruct (o !! k) as [[]|].
    - intros k. rewrite omitNil_lookup, Ho.
      repeat (destruct (decide _) as [->|?]; [intros _; set_solver|]).
      by intros []. }
  clearbody o.
  destruct (strictEq (PNum 0) _); cbn;
    eexists _, _, (omitNil o); (split; [reflexivity|]);
    (split; [reflexivity|]); exact Hev.
Qed.

Lemma validate_descriptor_witness :
  let env := exampleEnv false in
  let req := exampleRequest "3600" in
  ∃ ok req' ev,
    (validate env VLogger req (freshWorld false)).1 = Ok (ok, req')
    ∧ req_event req' = VObj ev
    ∧ ev !! "subscriber" = Some (PStr "alice@example.com")
    ∧ ev !! "resource" = Some (PStr "bob@example.com")
    ∧ ev !! "eventType" = Some (PStr (parseEventHeader "dialog").1)
    ∧ ev !! "id" = PStr <$> (parseEventHeader "dialog").2
    ∧ ev !! "accept" = PStr <$> header (headers req) "Accept"
    ∧ ev !! "callId" = PStr <$> header (headers req) "Call-ID"
    ∧ (∀ k, ev !! k ≠ Some PUndef)
    ∧ (∀ k, is_Some (ev !! k) →
            k ∈ ["subscriber"; "resource"; "eventType"; "id"; "accept"; "callId"]).
Proof.
  intros env req.
  apply (validate_descriptor env req (freshWorld false) "dialog"
           "alice@example.com" "bob@example.com").
  - reflexivity.
  - vm_compute. left.
  - reflexivity.
  - reflexivity.
Defined.

(** *** A timer that runs out *)

Lemma partitionM_undefined (l : list binding) :
  l ≠ [] → ∃ e, partitionM (sameEventType VUndef) l = Throw e.
Proof.
  destruct l as [|b l]; [done|]. intros _. cbn [partitionM].
  unfold sameEventType. cbn [getProp].
  destruct (getProp (b_subscription b) "eventType"); by eexists.
Qed.

Lemma notify_frame env logger db sub dlg st w :
  let w' := (notify env logger db sub dlg st w).2 in
  dialogs w' = dialogs w ∧ timers w' = timers w.
Proof.
  unfold notify, bind, lift.
  destruct (getProp sub "subscriber") as [subscriber|e]; [|done].
  destruct (getProp sub "resource") as [resource|e]; [|done].
  destruct (getProp sub "eventType") as [eventType|e]; [|done].
  destruct db; try done.
  pose proof (StoreOnly_getEventState env subscriber resource eventType w)
    as (_ & Hd & Ht & _).
  destruct (getEventState env subscriber resource eventType w) as [[a|e] w1];
    cbn [snd] in Hd, Ht; [|done].
  destruct (getProp sub "callId") as [callId|e]; [|done].
  destruct a as [st0|]; [destruct (negb (String.eqb st "terminated"))|];
    by destruct dlg.
Qed.

(** X28: [_expireSubscription] calls
    [clearSubscriptionTimer(logger, dlg, subscription)], which looks for
    the dialog under the [id] of the subscription and compares event
    types with [undefined]: whatever it is called with, it throws, and
    the timer map and the armed timers are as they were.  The entry of a
    subscription whose timer has run out stays in the timer map. *)
Theorem expireSubscription_always_throws (env : Env)
    (logger db dlg subscription : jsval) (w : World) :
  let r := _expireSubscription env logger db dlg subscription w in
  r.1 ≠ Ok tt ∧ dialogs r.2 = dialogs w ∧ timers r.2 = timers w.
Proof.
  intros r. subst r. unfold _expireSubscription.
  unfold bind at 1.
  assert (∀ m : M unit,
            (∀ w0, (m w0).2 = w0) →
            let r := (let (r0, w') := m w in
                      match r0 with
                      | Ok a =>
                          (clearSubscriptionTimer logger dlg subscription
                             VUndef VUndef ;;;
                           detached (notify env logger db subscription dlg
                                       "terminated")) w'
                      | Throw e => (Throw e, w')
                      end) in
            r.1 ≠ Ok tt ∧ dialogs r.2 = dialogs w ∧ timers r.2 = timers w)
    as Hgen.
  { intros m Hm. specialize (Hm w).
    destruct (m w) as [[[]|e] w0]; cbn in Hm; subst w0; [|done].
    unfold bind at 1.
    unfold clearSubscriptionTimer, bind, lift, getWorld, throw, ret, modify.
    destruct (getProp subscription "id") as [id|e]; [|done].
    destruct (dialogs w !! id) as [[|b l]|] eqn:El; cbn -[partitionM];
      try done.
    destruct (partitionM_undefined (b :: l)) as [e He]; [done|].
    rewrite He. by cbn. }
  destruct dlg; try (by apply (Hgen (throw _))).
  destruct logger as [[]| | | |]; try (by apply (Hgen (throw _))).
  by apply (Hgen (ret tt)).
Qed.

(** *** The store layer keeps to the store *)

Lemma StoreOnly_zrangebyscoreAllAsync key : StoreOnly (zrangebyscoreAllAsync key).
Proof. apply StoreOnly_roundTrip. intros w. apply sameProcess_refl. Qed.

Lemma StoreOnly_purgeLoop l : ∀ n, StoreOnly (purgeLoop n l).
Proof.
  induction l as [|k l IH]; intros n; cbn [purgeLoop]; [apply StoreOnly_ret|].
  apply StoreOnly_bind; [|done]. unfold purgeOne. store_only.
Qed.

(** X29: Whatever they are called with and whatever the store answers, the
    calls of [lib/redisdb.js] and of the dialog package that the engine
    makes, and the upkeep of the event state, send nothing, arm and
    cancel no timer, and leave the timer map and the listeners alone. *)
Theorem db_calls_store_only (env : Env) :
  (∀ dlg obj expiry, StoreOnly (addSubscription env dlg obj expiry))
  ∧ (∀ obj, StoreOnly (removeSubscription env obj))
  ∧ (∀ subscriber aor eventType,
       StoreOnly (getEventState env subscriber aor eventType))
  ∧ (∀ aor expiry eventType contentType content,
       StoreOnly (addEventState env aor expiry eventType contentType content))
  ∧ (∀ aor eventType expiry, StoreOnly (refreshEventState env aor eventType expiry))
  ∧ (∀ data expiry contentType content,
       StoreOnly (modifyEventState env data expiry contentType content))
  ∧ StoreOnly purgeExpired.
Proof.
  repeat apply conj.
  - apply StoreOnly_addSubscription.
  - apply StoreOnly_removeSubscription.
  - apply StoreOnly_getEventState.
  - intros. unfold addEventState. store_only.
  - intros. unfold refreshEventState. store_only.
  - intros. unfold modifyEventState. store_only.
  - unfold purgeExpired. apply StoreOnly_bind.
    + apply StoreOnly_zrangebyscoreAllAsync.
    + intros arr. apply StoreOnly_purgeLoop.
Qed.

(** *** An initial SUBSCRIBE that fails *)

(** X30: When the transport does not establish the dialog, [initial] answers
    480 and does nothing else.  When the dialog is established and the
    write of a subscription that no package handles fails, the 480 is
    sent after the dialog has been established, and no timer is armed. *)
Theorem initial_failure_answers_480 (env : Env) (req : Req) (w : World) :
  (head (net w) = Some NetReject →
   initial env VLogger req w
   = (Ok tt, emit (Sent 480 []) (setNet (tl (net w)) w)))
  ∧ (∀ o, head (net w) ≠ Some NetReject →
          req_event req = VObj o →
          hasPackage env (prop o "eventType") = false →
          head (faults w) = Some true →
          ∃ w',
            initial env VLogger req w = (Ok tt, w')
            ∧ trace w'
              = (trace w
                 ++ [Established (req_dialog req) [("Expires", req_expiry req)];
                     Sent 480 []])%list
            ∧ store w' = store w ∧ timers w' = timers w
            ∧ dialogs w' = dialogs w ∧ listeners w' = listeners w).
Proof.
  split.
  - intros Hn. unfold initial.
    change (logInfo VLogger) with (@ret unit tt).
    unfold bind at 1. cbn [ret]. unfold tryCatch, bind at 1.
    unfold createUAS, bind at 1, nextNet.
    by destruct (net w) as [|[|s] r] eqn:En.
  - intros o Hn Hev Hp Hf. unfold initial.
    change (logInfo VLogger) with (@ret unit tt).
    unfold bind at 1. cbn [ret]. unfold tryCatch, bind at 1.
    assert (∃ w1, createUAS req [("Expires", req_expiry req)] w
                  = (Ok (req_dialog req), w1)
                  ∧ trace w1 = (trace w ++ [Established (req_dialog req)
                                              [("Expires", req_expiry req)]])%list
                  ∧ store w1 = store w ∧ faults w1 = faults w
                  ∧ dialogs w1 = dialogs w ∧ timers w1 = timers w
                  ∧ listeners w1 = listeners w)
      as (w1 & -> & Ht1 & Hs1 & Hf1 & Hd1 & Hti1 & Hl1).
    { unfold createUAS, bind, nextNet.
      destruct (net w) as [|[|s] r] eqn:En; cbn; try done; by eexists. }
    unfold bind at 1. rewrite Hev.
    assert (∃ e w2, addSubscription env (req_dialog req) (VObj o)
                      (req_expiry req) w1 = (Throw e, w2)
                    ∧ trace w2 = trace w1 ∧ store w2 = store w1
                    ∧ dialogs w2 = dialogs w1 ∧ timers w2 = timers w1
                    ∧ listeners w2 = listeners w1)
      as (e & w2 & -> & Ht2 & Hs2 & Hd2 & Hti2 & Hl2).
    { unfold addSubscription, bind at 1, lift, getProp.
      fold (prop o "eventType"). rewrite Hp.
      unfold bind at 1. rewrite nextUuid_run.
      unfold bind at 1 2 3 4. unfold bind, multiExec, roundTrip.
      cbn [faults setEntropy]. rewrite Hf1.
      destruct (faults w) as [|[] fs]; try done.
      eexists _, _. split; [reflexivity|]. done. }
    cbn. eexists. split; [reflexivity|]. cbn.
    rewrite Ht2, Ht1, Hs2, Hs1, Hd2, Hd1, Hti2, Hti1, Hl2, Hl1.
    by rewrite <- app_assoc.
Qed.

Lemma initial_failure_answers_480_witness :
  let env := exampleEnv false in
  let o := mkObj [("subscriber", PStr "alice@example.com");
                  ("resource", PStr "bob@example.com");
                  ("eventType", PStr "presence");
                  ("callId", PStr "call1")] in
  let req := mkReq [("Event", "presence"); ("Call-ID", "call1")]
               "sip:bob@example.com" "sip:alice@example.com" exampleDialog
               (VObj o) (PNum 3600) in
  let down := setNet [NetReject] (freshWorld false) in
  let failing := setFaults [true] (freshWorld false) in
  initial env VLogger req down
  = (Ok tt, emit (Sent 480 []) (setNet (tl (net down)) down))
  ∧ ∃ w',
      initial env VLogger req failing = (Ok tt, w')
      ∧ trace w'
        = (trace failing
           ++ [Established (req_dialog req) [("Expires", req_expiry req)];
               Sent 480 []])%list
      ∧ store w' = store failing ∧ timers w' = timers failing
      ∧ dialogs w' = dialogs failing ∧ listeners w' = listeners failing.
Proof.
  intros env o req down failing. split.
  - apply (proj1 (initial_failure_answers_480 env req down)). reflexivity.
  - apply (proj2 (initial_failure_answers_480 env req failing) o).
    + discriminate.
    + reflexivity.
    + vm_compute. reflexivity.
    + reflexivity.
Defined.
